(** * WebExport-IFET: language detection, page translation, feedback relay

    A shallow embedding of [ifet/lang.js] and [api/ifet/feedback.js].

    JavaScript strings are sequences of UTF-16 code units; they are modelled
    as [list N].  ASCII literals of the sources are written [js "..."]. *)

From Stdlib Require Import NArith List Ascii String Lia.
From Stdlib Require Import DecimalString.
From stdpp Require Import base option list gmap.

Set Warnings "-abstract-large-number".

Local Open Scope N_scope.

(* ===================================================================== *)
(** * JavaScript strings *)
(* ===================================================================== *)

Abbreviation jsstring := (list N).

(** An ASCII literal of the source as a sequence of code units. *)
Definition js (s : string) : jsstring :=
  map N_of_ascii (list_ascii_of_string s).

(** ECMAScript [WhiteSpace] and [LineTerminator] code points, the ones
    [String.prototype.trim] strips: TAB, VT, FF, SP, NBSP, ZWNBSP, the
    category Zs, LF, CR, LS and PS.  All of them are in the BMP. *)
Definition isWhiteSpace (c : N) : bool :=
  bool_decide (c ∈ [0x9; 0xA; 0xB; 0xC; 0xD; 0x20; 0xA0; 0x1680;
                    0x2028; 0x2029; 0x202F; 0x205F; 0x3000; 0xFEFF])
  || ((0x2000 <=? c) && (c <=? 0x200A)).

Fixpoint trimStart (s : jsstring) : jsstring :=
  match s with
  | [] => []
  | c :: r => if isWhiteSpace c then trimStart r else s
  end.

Definition trimEnd (s : jsstring) : jsstring :=
  rev (trimStart (rev s)).

(** [s.trim()] *)
Definition trim (s : jsstring) : jsstring := trimEnd (trimStart s).

(** Lower case of one code unit.  Exact below U+0080 and for the only two
    code points above it whose lower case contains an ASCII letter
    (U+0130 and U+212A KELVIN SIGN); every other code unit is kept, where
    the platform puts other code units that are not ASCII either. *)
Definition lowerUnit (c : N) : jsstring :=
  if (0x41 <=? c) && (c <=? 0x5A) then [c + 0x20]
  else if c =? 0x212A then [0x6B]
  else if c =? 0x130 then [0x69; 0x307]
  else [c].

(** [s.toLowerCase()] *)
Definition toLowerCase (s : jsstring) : jsstring := flat_map lowerUnit s.

(** [s.split(sep)] for a separator of one code unit. *)
Fixpoint split (sep : N) (s : jsstring) : list jsstring :=
  match s with
  | [] => [[]]
  | c :: r =>
      if c =? sep then [] :: split sep r
      else match split sep r with
           | h :: t => (c :: h) :: t
           | [] => [[c]]
           end
  end.

(** [array.includes(x)] for an array of strings. *)
Definition includes (l : list jsstring) (x : jsstring) : bool :=
  bool_decide (x ∈ l).

(** [a.includes(b)] on strings: [b] occurs in [a] as a substring. *)
Fixpoint isPrefix (p s : jsstring) : bool :=
  match p, s with
  | [], _ => true
  | _ :: _, [] => false
  | a :: p', b :: s' => (a =? b) && isPrefix p' s'
  end.

Fixpoint strIncludes (s sub : jsstring) : bool :=
  isPrefix sub s ||
  match s with
  | [] => false
  | _ :: r => strIncludes r sub
  end.

(** Truthiness of a string: only the empty string is falsy. *)
Definition nonEmpty (s : jsstring) : bool :=
  match s with [] => false | _ :: _ => true end.

(** [a || b] where [a] is [undefined]/[null] or a string. *)
Definition orElse (a : option jsstring) (b : jsstring) : jsstring :=
  match a with
  | Some (c :: r) => c :: r
  | _ => b
  end.

(** A thrown [Error] object. *)
Record jsError := { errorName : jsstring; errorMessage : jsstring }.

(* --------------------------------------------------------------------- *)
(** ** Values *)
(* --------------------------------------------------------------------- *)

(** A call that returns a value or throws. *)
Inductive result (A : Type) :=
| Ok (v : A)
| Thrown (e : jsError).
Arguments Ok {A} v.
Arguments Thrown {A} e.

#[global] Instance result_bind : MBind result :=
  fun A B (k : A -> result B) (r : result A) =>
    match r with
    | Ok v => k v
    | Thrown e => Thrown e
    end.

(** A [File] of a multipart body. *)
Record File := { fileName : jsstring; fileSize : N }.

(** The values the code passes to [||], to a DOM setter and to [safeStr].
    [Other] is a number, a boolean, an array, an object or a function: the
    code sees of it only whether it is truthy and what [String()] makes of
    it, which for an object can be a thrown TypeError. *)
Inductive jsvalue :=
| Undefined
| Null
| Str (s : jsstring)
| FileValue (f : File)
| Other (truthy : bool) (string : result jsstring).

Definition toBoolean (v : jsvalue) : bool :=
  match v with
  | Undefined | Null => false
  | Str s => nonEmpty s
  | FileValue _ => true
  | Other t _ => t
  end.

(** [String(v)] *)
Definition toString (v : jsvalue) : result jsstring :=
  match v with
  | Undefined => Ok (js "undefined")
  | Null => Ok (js "null")
  | Str s => Ok s
  | FileValue _ => Ok (js "[object File]")
  | Other _ r => r
  end.

(** [a || b] *)
Definition or (a b : jsvalue) : jsvalue := if toBoolean a then a else b.

(* --------------------------------------------------------------------- *)
(** ** Code points, UTF-8 *)
(* --------------------------------------------------------------------- *)

Definition isLeadSurrogate (c : N) : bool := (0xD800 <=? c) && (c <=? 0xDBFF).
Definition isTrailSurrogate (c : N) : bool := (0xDC00 <=? c) && (c <=? 0xDFFF).

(** Code units to scalar values (the conversion to a USVString: a lone
    surrogate becomes U+FFFD). *)
Fixpoint toCodePoints (s : jsstring) : list N :=
  match s with
  | [] => []
  | c :: r =>
      if isLeadSurrogate c then
        match r with
        | d :: r' =>
            if isTrailSurrogate d
            then (0x10000 + (c - 0xD800) * 0x400 + (d - 0xDC00)) :: toCodePoints r'
            else 0xFFFD :: toCodePoints r
        | [] => [0xFFFD]
        end
      else if isTrailSurrogate c then 0xFFFD :: toCodePoints r
      else c :: toCodePoints r
  end.

Definition codeUnitsOf (cp : N) : jsstring :=
  if cp <? 0x10000 then [cp]
  else [0xD800 + (cp - 0x10000) / 0x400; 0xDC00 + (cp - 0x10000) mod 0x400].

Definition fromCodePoints (l : list N) : jsstring := flat_map codeUnitsOf l.

Definition utf8EncodeOne (cp : N) : list N :=
  if cp <? 0x80 then [cp]
  else if cp <? 0x800 then [0xC0 + cp / 0x40; 0x80 + cp mod 0x40]
  else if cp <? 0x10000 then
    [0xE0 + cp / 0x1000; 0x80 + (cp / 0x40) mod 0x40; 0x80 + cp mod 0x40]
  else [0xF0 + cp / 0x40000; 0x80 + (cp / 0x1000) mod 0x40;
        0x80 + (cp / 0x40) mod 0x40; 0x80 + cp mod 0x40].

Definition utf8Encode (s : jsstring) : list N :=
  flat_map utf8EncodeOne (toCodePoints s).

(** The UTF-8 decoder of the Encoding Standard: what a byte does in the
    initial state. *)
Inductive utf8Step :=
| Emit (cp : N)
| Need (cp : N) (needed : N) (lower upper : N)
| Malformed.

Definition utf8Start (b : N) : utf8Step :=
  if b <=? 0x7F then Emit b
  else if (0xC2 <=? b) && (b <=? 0xDF) then Need (N.land b 0x1F) 1 0x80 0xBF
  else if (0xE0 <=? b) && (b <=? 0xEF) then
    Need (N.land b 0xF) 2 (if b =? 0xE0 then 0xA0 else 0x80)
         (if b =? 0xED then 0x9F else 0xBF)
  else if (0xF0 <=? b) && (b <=? 0xF4) then
    Need (N.land b 0x7) 3 (if b =? 0xF0 then 0x90 else 0x80)
         (if b =? 0xF4 then 0x8F else 0xBF)
  else Malformed.

(** "UTF-8 decode without BOM": malformed input is replaced by U+FFFD and
    the offending byte is looked at again in the initial state. *)
Fixpoint utf8Decode (st : option (N * N * N * N)) (bytes : list N) : list N :=
  match bytes with
  | [] => match st with None => [] | Some _ => [0xFFFD] end
  | b :: r =>
      let fresh :=
        match utf8Start b with
        | Emit cp => cp :: utf8Decode None r
        | Need cp n lo hi => utf8Decode (Some (cp, n, lo, hi)) r
        | Malformed => 0xFFFD :: utf8Decode None r
        end in
      match st with
      | None => fresh
      | Some (cp, n, lo, hi) =>
          if (lo <=? b) && (b <=? hi) then
            let cp' := cp * 0x40 + N.land b 0x3F in
            if n =? 1 then cp' :: utf8Decode None r
            else utf8Decode (Some (cp', n - 1, 0x80, 0xBF)) r
          else 0xFFFD :: fresh
      end
  end.

(** The strict reading of one complete sequence of octets, as
    [decodeURIComponent] needs it: [None] when the octets are not the
    UTF-8 encoding of one code point. *)
Fixpoint utf8Continue (cp n lo hi : N) (bytes : list N) : option N :=
  match bytes with
  | [] => None
  | b :: r =>
      if (lo <=? b) && (b <=? hi) then
        let cp' := cp * 0x40 + N.land b 0x3F in
        if n =? 1 then match r with [] => Some cp' | _ :: _ => None end
        else utf8Continue cp' (n - 1) 0x80 0xBF r
      else None
  end.

Definition utf8DecodeOne (octets : list N) : option N :=
  match octets with
  | [] => None
  | b :: r =>
      match utf8Start b with
      | Emit cp => match r with [] => Some cp | _ :: _ => None end
      | Need cp n lo hi => utf8Continue cp n lo hi r
      | Malformed => None
      end
  end.

Definition hexValue (c : N) : option N :=
  if (0x30 <=? c) && (c <=? 0x39) then Some (c - 0x30)
  else if (0x41 <=? c) && (c <=? 0x46) then Some (c - 0x41 + 10)
  else if (0x61 <=? c) && (c <=? 0x66) then Some (c - 0x61 + 10)
  else None.

(* ===================================================================== *)
(** * ifet/lang.js: language detection *)
(* ===================================================================== *)

Definition SUPPORTED_LOCALES : list jsstring :=
  [js "ar"; js "bn"; js "de"; js "en"; js "es"; js "fr";
   js "hi"; js "ja"; js "ko"; js "pt"; js "ru"; js "zh"].

Definition DEFAULT_LOCALE : jsstring := js "en".

(** [window.location], as far as [detectLanguage] reads it. *)
Record Location := { search : jsstring; href : jsstring }.

(* --------------------------------------------------------------------- *)
(** ** [new URLSearchParams(init)] and [get] *)
(* --------------------------------------------------------------------- *)

(** Percent-decoding of the URL Standard: a [%] that is not followed by two
    hexadecimal digits stays. *)
Fixpoint percentDecode (bytes : list N) : list N :=
  match bytes with
  | [] => []
  | c :: r =>
      if c =? 0x25 then
        match r with
        | h1 :: h2 :: r' =>
            match hexValue h1, hexValue h2 with
            | Some a, Some b => (16 * a + b) :: percentDecode r'
            | _, _ => c :: percentDecode r
            end
        | _ => c :: percentDecode r
        end
      else c :: percentDecode r
  end.

(** The part before the first [=] and the part after it; without [=] the
    whole sequence is the name and the value is empty. *)
Fixpoint splitNameValue (bytes : list N) : list N * list N :=
  match bytes with
  | [] => ([], [])
  | c :: r =>
      if c =? 0x3D then ([], r)
      else let '(n, v) := splitNameValue r in (c :: n, v)
  end.

Definition plusToSpace (bytes : list N) : list N :=
  map (fun c => if c =? 0x2B then 0x20 else c) bytes.

Definition urlDecode (bytes : list N) : jsstring :=
  fromCodePoints (utf8Decode None (percentDecode (plusToSpace bytes))).

(** The application/x-www-form-urlencoded parser: pairs in order of
    appearance, empty sequences between [&] skipped. *)
Definition parseUrlencoded (bytes : list N) : list (jsstring * jsstring) :=
  flat_map
    (fun piece =>
       match piece with
       | [] => []
       | _ :: _ =>
           let '(n, v) := splitNameValue piece in [(urlDecode n, urlDecode v)]
       end)
    (split 0x26 bytes).

Definition URLSearchParams (init : jsstring) : list (jsstring * jsstring) :=
  parseUrlencoded
    (utf8Encode (match init with
                 | c :: r => if c =? 0x3F then r else init
                 | [] => []
                 end)).

(** [params.get(name)]: the value of the first pair with that name, or
    [null]. *)
Fixpoint get (params : list (jsstring * jsstring)) (name : jsstring)
  : option jsstring :=
  match params with
  | [] => None
  | (n, v) :: r => if bool_decide (n = name) then Some v else get r name
  end.

(* --------------------------------------------------------------------- *)
(** ** [href.match(/[?&]lang=([^&#]+)/i)] *)
(* --------------------------------------------------------------------- *)

(** A pattern letter under the [i] flag: the letter or its upper case. *)
Definition eqIgnoreCase (lower c : N) : bool :=
  (c =? lower) || (c =? lower - 0x20).

Fixpoint takeValue (s : jsstring) : jsstring :=
  match s with
  | [] => []
  | c :: r => if (c =? 0x26) || (c =? 0x23) then [] else c :: takeValue r
  end.

(** The capture group of the leftmost match, [None] when nothing matches. *)
Fixpoint matchLang (s : jsstring) : option jsstring :=
  match s with
  | [] => None
  | c :: r =>
      let here :=
        if (c =? 0x3F) || (c =? 0x26) then
          match r with
          | l :: a :: n :: g :: e :: v =>
              if eqIgnoreCase 0x6C l && eqIgnoreCase 0x61 a
                 && eqIgnoreCase 0x6E n && eqIgnoreCase 0x67 g && (e =? 0x3D)
              then match takeValue v with
                   | [] => None
                   | x :: m1 => Some (x :: m1)
                   end
              else None
          | _ => None
          end
        else None in
      match here with
      | Some m1 => Some m1
      | None => matchLang r
      end
  end.

(* --------------------------------------------------------------------- *)
(** ** [decodeURIComponent] *)
(* --------------------------------------------------------------------- *)

(** Number of leading 1 bits of an octet. *)
Definition leadingOnes (b : N) : N :=
  if b <? 0x80 then 0 else if b <? 0xC0 then 1 else if b <? 0xE0 then 2
  else if b <? 0xF0 then 3 else if b <? 0xF8 then 4 else 5.

(** Decode of ECMAScript with an empty reserved set.  [pending] holds the
    octets of a multi-byte sequence read so far and the number of escapes
    still to come.  [None] is a thrown [URIError]. *)
Fixpoint decodeFrom (pending : option (list N * N)) (s : jsstring)
  : option jsstring :=
  match s with
  | [] => match pending with None => Some [] | Some _ => None end
  | c :: r =>
      if c =? 0x25 then
        match r with
        | h1 :: h2 :: r' =>
            match hexValue h1, hexValue h2 with
            | Some a, Some b =>
                let B := 16 * a + b in
                match pending with
                | None =>
                    let n := leadingOnes B in
                    if n =? 0 then (fun t => B :: t) <$> decodeFrom None r'
                    else if (n =? 1) || (4 <? n) then None
                    else decodeFrom (Some ([B], n - 1)) r'
                | Some (octets, k) =>
                    let octets' := octets ++ [B] in
                    if k =? 1 then
                      match utf8DecodeOne octets' with
                      | Some cp =>
                          (fun t => codeUnitsOf cp ++ t) <$> decodeFrom None r'
                      | None => None
                      end
                    else decodeFrom (Some (octets', k - 1)) r'
                end
            | _, _ => None
            end
        | _ => None
        end
      else
        match pending with
        | None => (fun t => c :: t) <$> decodeFrom None r
        | Some _ => None
        end
  end.

Definition decodeURIComponent (s : jsstring) : option jsstring :=
  decodeFrom None s.

(* --------------------------------------------------------------------- *)
(** ** [detectLanguage] *)
(* --------------------------------------------------------------------- *)

(** How a block of statements ends. *)
Inductive completion (A : Type) :=
| Return (v : A)
| Normal
| Throw (e : jsError).
Arguments Return {A} v.
Arguments Normal {A}.
Arguments Throw {A} e.

(** [x.trim().toLowerCase().split('-')[0]]; [split] never gives an empty
    array, so the element exists. *)
Definition normalize (raw : jsstring) : jsstring :=
  hd [] (split 0x2D (toLowerCase (trim raw))).

(** The body of the [try] block. *)
Definition detectLanguage_try (location : Location) : completion jsstring :=
  let urlParams := URLSearchParams (search location) in
  let raw := trim (orElse (get urlParams (js "lang")) []) in
  let normalized := hd [] (split 0x2D (toLowerCase raw)) in
  if includes SUPPORTED_LOCALES normalized then Return normalized
  else
    match matchLang (href location) with
    | Some m1 =>
        match decodeURIComponent m1 with
        | None => Throw {| errorName := js "URIError";
                           errorMessage := js "URI malformed" |}
        | Some decoded =>
            let fromHref := hd [] (split 0x2D (toLowerCase (trim decoded))) in
            if includes SUPPORTED_LOCALES fromHref then Return fromHref
            else Normal
        end
    | None => Normal
    end.

Definition detectLanguage (location : Location) : jsstring :=
  match detectLanguage_try location with
  | Return v => v
  | Normal => DEFAULT_LOCALE
  | Throw _ => DEFAULT_LOCALE
  end.

(** [location.search] and [location.href] of a serialised URL: the query is
    what stands from the first [?] to the fragment, and [search] is empty
    when the query is. *)
Fixpoint beforeHash (s : jsstring) : jsstring :=
  match s with
  | [] => []
  | c :: r => if c =? 0x23 then [] else c :: beforeHash r
  end.

Fixpoint fromQuestionMark (s : jsstring) : jsstring :=
  match s with
  | [] => []
  | c :: r => if c =? 0x3F then s else fromQuestionMark r
  end.

Definition locationOf (url : jsstring) : Location :=
  let q := fromQuestionMark (beforeHash url) in
  {| search := match q with [_] => [] | _ => q end; href := url |}.

(* ===================================================================== *)
(** * ifet/lang.js: page translation *)
(* ===================================================================== *)

(* --------------------------------------------------------------------- *)
(** ** The translations object *)
(* --------------------------------------------------------------------- *)

(** The translations object: locale, then key, then text.  It is a plain
    object of plain objects of strings, as a page writes it in a literal;
    [Translations] is the finite map of its own properties.  A property
    that is not an own one is read from [Object.prototype]. *)
Abbreviation Translations := (gmap jsstring (gmap jsstring jsstring)).

Local Open Scope string_scope.

(** The methods of [Object.prototype] (ECMAScript, Annex B included); no
    script of the repository adds to them. *)
Definition objectPrototypeMethods : list jsstring :=
  map js ["constructor"; "hasOwnProperty"; "isPrototypeOf";
          "propertyIsEnumerable"; "toLocaleString"; "toString"; "valueOf";
          "__defineGetter__"; "__defineSetter__"; "__lookupGetter__";
          "__lookupSetter__"].

(** The names of the properties of [Object.prototype]: its methods and the
    accessor [__proto__]. *)
Definition objectPrototypeNames : list jsstring :=
  js "__proto__" :: objectPrototypeMethods.

(** The types of an [input] element, and the attributes the sanitization
    of its value can read besides [type]. *)
Definition inputTypes : list jsstring :=
  map js ["hidden"; "text"; "search"; "tel"; "url"; "email"; "password";
          "date"; "month"; "week"; "time"; "datetime-local"; "number";
          "range"; "color"; "checkbox"; "radio"; "file"; "submit"; "image";
          "reset"; "button"].

Definition sanitizationAttributes : list jsstring :=
  map js ["min"; "max"; "step"; "multiple"; "alpha"; "colorspace"].

Local Close Scope string_scope.

(** What the sources leave to the platform.
    - [functionSource name] is [String(Object.prototype[name])] for a
      method of [Object.prototype], a text of the form
      [function name() { [native code] }] that each engine writes in its
      own way.
    - [functionProperty name key] is [Object.prototype[name][key]] for such
      a method: an own property of the function ([name], [length], for
      [Object] its static methods), one of [Function.prototype] or one of
      [Object.prototype]; reading [caller] or [arguments] can throw.
    - [sanitize type attrs text] is the value sanitization algorithm of
      HTML for the input types whose algorithm parses the value (dates,
      times, numbers, ranges, colours, lists of addresses); [attrs] are
      the values of [sanitizationAttributes]. *)
Record Platform := {
  functionSource : jsstring -> jsstring;
  functionProperty : jsstring -> jsstring -> result jsvalue;
  sanitize : jsstring -> list (option jsstring) -> jsstring -> jsstring
}.

(** [o[name]] for a plain object [o] without an own property [name]: a
    method of [Object.prototype], or [Object.prototype] itself under
    [__proto__], or [undefined]. *)
Definition inherited (platform : Platform) (name : jsstring) : jsvalue :=
  if bool_decide (name = js "__proto__")
  then Other true (Ok (js "[object Object]"))
  else if includes objectPrototypeMethods name
       then Other true (Ok (functionSource platform name))
       else Undefined.

(** [m[key]] where [m] is [Object.prototype[name]], for a name of
    [objectPrototypeNames].  Under [__proto__], [m] is [Object.prototype],
    whose own [__proto__] is [null]. *)
Definition memberProperty (platform : Platform) (name key : jsstring)
  : result jsvalue :=
  if bool_decide (name = js "__proto__") then
    if bool_decide (key = js "__proto__") then Ok Null
    else Ok (inherited platform key)
  else functionProperty platform name key.

(** [translations[lang]?.[key]] *)
Definition entry (platform : Platform) (translations : Translations)
    (lang key : jsstring) : result jsvalue :=
  match translations !! lang with
  | Some table =>
      Ok match table !! key with
         | Some text => Str text
         | None => inherited platform key
         end
  | None =>
      if includes objectPrototypeNames lang
      then memberProperty platform lang key
      else Ok Undefined
  end.

(** [translations[lang]?.[key] || translations['en']?.[key] || key] *)
Definition translate (platform : Platform) (translations : Translations)
    (lang key : jsstring) : result jsvalue :=
  a ← entry platform translations lang key;
  if toBoolean a then Ok a
  else b ← entry platform translations (js "en") key;
       Ok (or b (Str key)).

(* --------------------------------------------------------------------- *)
(** ** The document *)
(* --------------------------------------------------------------------- *)

Definition HTML_NAMESPACE : jsstring := js "http://www.w3.org/1999/xhtml".

(** The document tree.  An element has its namespace and its local name
    (elements are named without a prefix, as the HTML parser names them),
    its content attributes (in no namespace, by name), the value a
    script or the user has given to an [input] or a [textarea] (a control
    that was given none shows its [value] attribute or its text, which
    the script does not read), and its child nodes.  For the script a
    node that is neither an element nor a text node (a comment, a
    processing instruction, a CDATA section) is a [CommentNode]. *)
Inductive element :=
| Element (namespaceURI : option jsstring) (localName : jsstring)
          (attributes : gmap jsstring jsstring) (value : jsstring)
          (childNodes : list node)
with node :=
| TextNode (data : jsstring)
| CommentNode (data : jsstring)
| ElementNode (e : element).

Definition namespaceURI (e : element) : option jsstring :=
  match e with Element ns _ _ _ _ => ns end.
Definition localName (e : element) : jsstring :=
  match e with Element _ n _ _ _ => n end.
Definition attributes (e : element) : gmap jsstring jsstring :=
  match e with Element _ _ a _ _ => a end.
Definition value (e : element) : jsstring :=
  match e with Element _ _ _ v _ => v end.
Definition childNodes (e : element) : list node :=
  match e with Element _ _ _ _ c => c end.

(** A document is an HTML document (made by the HTML parser, or by a
    script) or an XML document (an XHTML or an SVG page).  The script
    runs in a document that has a root element. *)
Inductive documentKind := HTMLDocument | XMLDocument.

Record Document := { kind : documentKind; documentElement : element }.

(** The element is an [HTMLElement]. *)
Definition isHTMLElement (e : element) : bool :=
  bool_decide (namespaceURI e = Some HTML_NAMESPACE).

(** The element is the HTML element of the given name: an
    [HTMLInputElement] for [input], and so on. *)
Definition isHTML (name : jsstring) (e : element) : bool :=
  isHTMLElement e && bool_decide (localName e = name).

Definition upperUnit (c : N) : N :=
  if (0x61 <=? c) && (c <=? 0x7A) then c - 0x20 else c.

Definition lowerASCII (c : N) : N :=
  if (0x41 <=? c) && (c <=? 0x5A) then c + 0x20 else c.

(** [element.tagName]: the name, in ASCII upper case for an HTML element
    of an HTML document. *)
Definition tagName (kind : documentKind) (e : element) : jsstring :=
  match kind with
  | HTMLDocument =>
      if isHTMLElement e then map upperUnit (localName e) else localName e
  | XMLDocument => localName e
  end.

Definition isElementNode (n : node) : bool :=
  match n with ElementNode _ => true | _ => false end.

(** [element.children]: the child nodes that are elements. *)
Definition children (c : list node) : list node :=
  List.filter isElementNode c.

(** [firstChild && firstChild.nodeType === Node.TEXT_NODE] *)
Definition firstChildIsText (c : list node) : bool :=
  match c with TextNode _ :: _ => true | _ => false end.

(** What assigning [textContent] leaves as child nodes: one text node, or
    nothing for the empty string. *)
Definition textContentNodes (text : jsstring) : list node :=
  match text with
  | [] => []
  | _ :: _ => [TextNode text]
  end.

(** The element reached from [e] by going to the child node of the given
    index, again and again. *)
Fixpoint subtree (e : element) (path : list nat) : option element :=
  match path with
  | [] => Some e
  | i :: p =>
      match childNodes e !! i with
      | Some (ElementNode e') => subtree e' p
      | _ => None
      end
  end.

(* --------------------------------------------------------------------- *)
(** ** The value of an [input] *)
(* --------------------------------------------------------------------- *)

(** The state of the [type] attribute: its keyword in lower case, [text]
    when the attribute is missing or is no keyword. *)
Definition typeState (attrs : gmap jsstring jsstring) : jsstring :=
  match attrs !! js "type" with
  | Some t =>
      if includes inputTypes (map lowerASCII t) then map lowerASCII t
      else js "text"
  | None => js "text"
  end.

(** How the [value] property of an [input] works in each state. *)
Inductive valueMode := ModeValue | ModeDefault | ModeDefaultOn | ModeFilename.

Definition valueModeOf (state : jsstring) : valueMode :=
  if includes (map js ["hidden"; "submit"; "image"; "reset"; "button"]%string)
              state then ModeDefault
  else if includes (map js ["checkbox"; "radio"]%string) state
       then ModeDefaultOn
       else if bool_decide (state = js "file") then ModeFilename
            else ModeValue.

Definition stripNewlines (s : jsstring) : jsstring :=
  List.filter (fun c => negb ((c =? 0xA) || (c =? 0xD))) s.

Definition isASCIIWhitespace (c : N) : bool :=
  bool_decide (c ∈ [0x9; 0xA; 0xC; 0xD; 0x20]).

Fixpoint stripLeading (s : jsstring) : jsstring :=
  match s with
  | [] => []
  | c :: r => if isASCIIWhitespace c then stripLeading r else s
  end.

Definition stripASCIIWhitespace (s : jsstring) : jsstring :=
  rev (stripLeading (rev (stripLeading s))).

(** The value sanitization algorithm: [text], [search], [tel] and
    [password] strip the line breaks; [url], and [email] without
    [multiple], then strip the white space at both ends; the other types
    are the platform's. *)
Definition sanitized (platform : Platform) (attrs : gmap jsstring jsstring)
    (text : jsstring) : jsstring :=
  let state := typeState attrs in
  if includes (map js ["text"; "search"; "tel"; "password"]%string) state
  then stripNewlines text
  else if bool_decide (state = js "url")
          || bool_decide (state = js "email")
             && bool_decide (attrs !! js "multiple" = None)
       then stripASCIIWhitespace (stripNewlines text)
       else sanitize platform state
                     (map (fun name => attrs !! name) sanitizationAttributes)
                     text.

Definition InvalidStateError : jsError :=
  {| errorName := js "InvalidStateError";
     errorMessage := js "This input element accepts a filename, which may only be programmatically set to the empty string." |}.

(** [input.value = text] on an [HTMLInputElement]: the value is set and
    sanitized, or the [value] attribute is set, or, for a file input, the
    selection is emptied by the empty string and any other string
    throws. *)
Definition setInputValue (platform : Platform) (e : element) (text : jsstring)
  : result element :=
  match e with
  | Element ns n attrs v c =>
      match valueModeOf (typeState attrs) with
      | ModeValue => Ok (Element ns n attrs (sanitized platform attrs text) c)
      | ModeDefault | ModeDefaultOn =>
          Ok (Element ns n (<[js "value" := text]> attrs) v c)
      | ModeFilename =>
          match text with
          | [] => Ok (Element ns n attrs [] c)
          | _ :: _ => Thrown InvalidStateError
          end
      end
  end.

(* --------------------------------------------------------------------- *)
(** ** The callback of [forEach] *)
(* --------------------------------------------------------------------- *)

(** How a property of a DOM object takes the value assigned to it: a
    [DOMString] property ([placeholder]) takes [String(v)]; one that is
    [LegacyNullToEmptyString] ([value]) takes [null] as the empty string;
    a [DOMString?] property ([textContent]) takes [null] and [undefined]
    as no string, which it sets as the empty string. *)
Inductive stringType := DOMString | NullToEmptyString | NullableDOMString.

Definition toDOMString (type : stringType) (v : jsvalue) : result jsstring :=
  match type, v with
  | NullToEmptyString, Null => Ok []
  | NullableDOMString, (Null | Undefined) => Ok []
  | _, _ => toString v
  end.

(** What the callback assigns on one element. *)
Inductive assignment :=
| SetPlaceholder (text : jsvalue)
| SetValue (text : jsvalue)
| SetTextContent (text : jsvalue)
| Untouched.

(** [element.tagName === 'INPUT' || element.tagName === 'TEXTAREA'] *)
Definition isInputLike (kind : documentKind) (e : element) : bool :=
  bool_decide (tagName kind e = js "INPUT")
  || bool_decide (tagName kind e = js "TEXTAREA").

(** The callback on an element selected by [[data-i18n]], whose key is
    [key]: the lookups, which can throw, and the assignment chosen. *)
Definition translateElement (platform : Platform) (translations : Translations)
    (lang : jsstring) (kind : documentKind) (key : jsstring) (e : element)
  : result assignment :=
  text ← translate platform translations lang key;
  if isInputLike kind e then
    match attributes e !! js "placeholder" with
    | Some _ => Ok (SetPlaceholder text)
    | None => Ok (SetValue text)
    end
  else
    match attributes e !! js "data-i18n-link" with
    | Some linkKey =>
        linkText ← translate platform translations lang linkKey;
        Ok (SetTextContent linkText)
    | None =>
        if (length (children (childNodes e)) =? 0)%nat
        then Ok (SetTextContent text)
        else if firstChildIsText (childNodes e)
                && (length (children (childNodes e)) =? 0)%nat
             then Ok (SetTextContent text)
             else Ok Untouched
    end.

(** The assignment made on the element.  [placeholder] and [value] are
    properties of the HTML elements [input] and [textarea]; on another
    element whose tag name reads INPUT or TEXTAREA the assignment makes a
    property of the script's object and leaves the document as it is.
    Where the platform takes a string, the text is converted, which can
    throw.  The [value] of a [textarea] is its raw value. *)
Definition assign (platform : Platform) (e : element) (a : assignment)
  : result element :=
  match e with
  | Element ns n attrs v c =>
      match a with
      | SetPlaceholder text =>
          if isHTML (js "input") e || isHTML (js "textarea") e then
            s ← toDOMString DOMString text;
            Ok (Element ns n (<[js "placeholder" := s]> attrs) v c)
          else Ok e
      | SetValue text =>
          if isHTML (js "input") e then
            s ← toDOMString NullToEmptyString text; setInputValue platform e s
          else if isHTML (js "textarea") e then
            s ← toDOMString NullToEmptyString text;
            Ok (Element ns n attrs s c)
          else Ok e
      | SetTextContent text =>
          s ← toDOMString NullableDOMString text;
          Ok (Element ns n attrs v (textContentNodes s))
      | Untouched => Ok e
      end
  end.

(** The callback of [forEach]: [key] is the [data-i18n] attribute of the
    element, which every element of the list has. *)
Definition forEachCallback (platform : Platform) (translations : Translations)
    (lang : jsstring) (kind : documentKind) (e : element) : result element :=
  match attributes e !! js "data-i18n" with
  | Some key =>
      a ← translateElement platform translations lang kind key e;
      assign platform e a
  | None => Ok e
  end.

(** The callback assigns [textContent] on [e], which takes what was below
    [e] out of the document. *)
Definition overwritten (platform : Platform) (translations : Translations)
    (lang : jsstring) (kind : documentKind) (e : element) : bool :=
  match attributes e !! js "data-i18n" with
  | Some key =>
      match translateElement platform translations lang kind key e with
      | Ok (SetTextContent text) =>
          match toDOMString NullableDOMString text with
          | Ok _ => true
          | Thrown _ => false
          end
      | _ => false
      end
  | None => false
  end.

(* --------------------------------------------------------------------- *)
(** ** [querySelectorAll] and [forEach] *)
(* --------------------------------------------------------------------- *)

(** [document.querySelectorAll('[data-i18n]')]: the elements that carry
    the attribute, in document order.  An element of the list is named by
    its place, the indices of the child nodes that lead to it from the
    root. *)
Fixpoint querySelectorAll (e : element) : list (list nat) :=
  match e with
  | Element _ _ attrs _ c =>
      match attrs !! js "data-i18n" with
      | Some _ => [[]]
      | None => []
      end
      ++ (fix below (i : nat) (c : list node) : list (list nat) :=
            match c with
            | [] => []
            | n :: r =>
                match n with
                | ElementNode e' => map (cons i) (querySelectorAll e')
                | _ => []
                end ++ below (S i) r
            end) 0%nat c
  end.

(** The selected elements below the child nodes [c], the first of which
    has the index [i]. *)
Fixpoint selectedBelow (i : nat) (c : list node) : list (list nat) :=
  match c with
  | [] => []
  | n :: r =>
      match n with
      | ElementNode e' => map (cons i) (querySelectorAll e')
      | _ => []
      end ++ selectedBelow (S i) r
  end.

(** The document after [f] has changed the element at a place. *)
Fixpoint updateAt (place : list nat) (f : element -> element) (e : element)
  : element :=
  match place with
  | [] => f e
  | i :: p =>
      match e with
      | Element ns n attrs v c =>
          match c !! i with
          | Some (ElementNode e') =>
              Element ns n attrs v (<[i := ElementNode (updateAt p f e')]> c)
          | _ => e
          end
      end
  end.

(** What the callback throws on the element that stood at [place] when
    the list was made, if it throws. *)
Definition thrownAt (callback : element -> result element)
    (original : element) (place : list nat) : option jsError :=
  match callback <$> subtree original place with
  | Some (Thrown err) => Some err
  | _ => None
  end.

(** One turn of [forEach], on the element of the list that stood at
    [place] when the list was made.  The callback moves no element; it
    takes out of the document what was below an element whose
    [textContent] it assigns.  An element that has left the document is
    still in the list, and the callback runs on it: it is as [original]
    has it, because the callback writes to the element of its turn only,
    and what it does to this element is not seen in the document, unless
    it throws.  After a throw no callback runs. *)
Definition forEachStep (callback : element -> result element)
    (original : element) (state : element * option jsError)
    (place : list nat) : element * option jsError :=
  match state with
  | (_, Some _) => state
  | (d, None) =>
      match subtree d place with
      | Some x =>
          match callback x with
          | Ok x' => (updateAt place (fun _ => x') d, None)
          | Thrown err => (d, Some err)
          end
      | None => (d, thrownAt callback original place)
      end
  end.

(** [document.querySelectorAll('[data-i18n]').forEach(...)]: the list is
    made first, then the callback runs on its elements in order.  The
    result is the root element it leaves and what it threw, if it did. *)
Definition forEachSelected (platform : Platform) (translations : Translations)
    (lang : jsstring) (kind : documentKind) (root : element)
  : element * option jsError :=
  fold_left (forEachStep (forEachCallback platform translations lang kind) root)
            (querySelectorAll root) (root, None).

(** The first exception of the callbacks on the selected elements of a
    tree, in document order. *)
Fixpoint firstThrow (callback : element -> result element) (e : element)
  : option jsError :=
  match callback e with
  | Thrown err => Some err
  | Ok _ =>
      match e with
      | Element _ _ _ _ c =>
          (fix below (c : list node) : option jsError :=
             match c with
             | [] => None
             | ElementNode e' :: r =>
                 match firstThrow callback e' with
                 | Some err => Some err
                 | None => below r
                 end
             | _ :: r => below r
             end) c
      end
  end.

Definition firstThrowBelow (callback : element -> result element)
  : list node -> option jsError :=
  fix below (c : list node) : option jsError :=
    match c with
    | [] => None
    | ElementNode e' :: r =>
        match firstThrow callback e' with
        | Some err => Some err
        | None => below r
        end
    | _ :: r => below r
    end.

(** The same by recursion on the tree ([forEachSelected_walk] below): an
    element is visited before its descendants, and the callback reads and
    writes the visited element only; when it assigns [textContent] the
    descendants leave the document and only their exceptions are seen,
    otherwise the walk goes on in the child nodes, up to the first
    exception. *)
Fixpoint forEachMarked (platform : Platform) (translations : Translations)
    (lang : jsstring) (kind : documentKind) (e : element)
  : element * option jsError :=
  match e with
  | Element ns n attrs v c =>
      let below :=
        (fix walk (c : list node) : list node * option jsError :=
           match c with
           | [] => ([], None)
           | ElementNode x :: r =>
               match forEachMarked platform translations lang kind x with
               | (x', Some err) => (ElementNode x' :: r, Some err)
               | (x', None) =>
                   let '(r', thrown) := walk r in (ElementNode x' :: r', thrown)
               end
           | m :: r => let '(r', thrown) := walk r in (m :: r', thrown)
           end) c in
      match attrs !! js "data-i18n" with
      | None => let '(c', thrown) := below in (Element ns n attrs v c', thrown)
      | Some key =>
          match translateElement platform translations lang kind key e with
          | Thrown err => (e, Some err)
          | Ok a =>
              match assign platform e a with
              | Thrown err => (e, Some err)
              | Ok (Element ns' n' attrs' v' c1) =>
                  match a with
                  | SetTextContent _ =>
                      (Element ns' n' attrs' v' c1,
                       firstThrowBelow
                         (forEachCallback platform translations lang kind) c)
                  | _ =>
                      let '(c', thrown) := below in
                      (Element ns' n' attrs' v' c', thrown)
                  end
              end
          end
      end
  end.

(** The walk of the child nodes, from left to right, up to the first
    exception. *)
Definition forEachMarkedBelow (platform : Platform) (translations : Translations)
    (lang : jsstring) (kind : documentKind)
  : list node -> list node * option jsError :=
  fix walk (c : list node) : list node * option jsError :=
    match c with
    | [] => ([], None)
    | ElementNode x :: r =>
        match forEachMarked platform translations lang kind x with
        | (x', Some err) => (ElementNode x' :: r, Some err)
        | (x', None) =>
            let '(r', thrown) := walk r in (ElementNode x' :: r', thrown)
        end
    | m :: r => let '(r', thrown) := walk r in (m :: r', thrown)
    end.

(** The walk where [thrown] is what has been thrown before: after an
    exception nothing is touched. *)
Definition forEachMarkedFrom (platform : Platform) (translations : Translations)
    (lang : jsstring) (kind : documentKind) (thrown : option jsError)
    (e : element) : element * option jsError :=
  match thrown with
  | Some _ => (e, thrown)
  | None => forEachMarked platform translations lang kind e
  end.

Definition forEachMarkedNodes (platform : Platform) (translations : Translations)
    (lang : jsstring) (kind : documentKind) (thrown : option jsError)
    (c : list node) : list node * option jsError :=
  match thrown with
  | Some _ => (c, thrown)
  | None => forEachMarkedBelow platform translations lang kind c
  end.

(* --------------------------------------------------------------------- *)
(** ** The gate and [translatePage] *)
(* --------------------------------------------------------------------- *)

Definition LF : jsstring := [0xA].

(** The child nodes the parser makes of the template literal assigned to
    [document.body.innerHTML], white space included.  The HTML parser and
    the XML parser, which an XML document uses, make the same nodes of
    this markup, HTML elements all of them. *)
Definition comingSoon : list node :=
  let tag (name class : string) (c : list node) :=
    ElementNode (Element (Some HTML_NAMESPACE) (js name)
                         {[ js "class" := js class ]} [] c) in
  [ TextNode (LF ++ js "      ");
    tag "div"%string "container"%string
      [ TextNode (LF ++ js "        ");
        tag "div"%string "panel"%string
          [ TextNode (LF ++ js "          ");
            tag "h1"%string "page-title"%string [TextNode (js "Coming Soon")];
            TextNode (LF ++ js "          ");
            tag "p"%string "page-subtitle"%string
              [TextNode
                 (js "This page is not yet available in your language.")];
            TextNode (LF ++ js "        ") ];
        TextNode (LF ++ js "      ") ];
    TextNode (LF ++ js "    ") ].

(** In a [frameset] the HTML parser ignores the tags and the letters of
    the markup and keeps its white space, in one text node. *)
Definition comingSoonInFrameset : list node :=
  [ TextNode (LF ++ repeat 0x20 6 ++ LF ++ repeat 0x20 8 ++ LF ++ repeat 0x20 11
              ++ LF ++ repeat 0x20 18 ++ LF ++ repeat 0x20 8
              ++ LF ++ repeat 0x20 6 ++ LF ++ repeat 0x20 4) ].

(** The child nodes the assignment to [innerHTML] leaves in a [body] or a
    [frameset], whose name is [context]. *)
Definition comingSoonIn (kind : documentKind) (context : jsstring) : list node :=
  match kind with
  | HTMLDocument =>
      if bool_decide (context = js "frameset") then comingSoonInFrameset
      else comingSoon
  | XMLDocument => comingSoon
  end.

(** A [body] or a [frameset] element. *)
Definition isBodyElement (e : element) : bool :=
  isHTML (js "body") e || isHTML (js "frameset") e.

(** [document.body.innerHTML = ...] among the child nodes of the root:
    [document.body] is the first child that is a [body] or a [frameset];
    [None] where [document.body] is [null]. *)
Fixpoint setBody (c : list node) (new : jsstring -> list node)
  : option (list node) :=
  match c with
  | [] => None
  | n :: r =>
      match n with
      | ElementNode (Element ns name a v old) =>
          if isBodyElement (Element ns name a v old)
          then Some (ElementNode (Element ns name a v (new name)) :: r)
          else (fun r' => n :: r') <$> setBody r new
      | _ => (fun r' => n :: r') <$> setBody r new
      end
  end.

(** [document.body] is [null] as well when the root is not an [html]
    element. *)
Definition setBodyInnerHTML (root : element) (new : jsstring -> list node)
  : option element :=
  match root with
  | Element ns n a v c =>
      if isHTML (js "html") root
      then Element ns n a v <$> setBody c new
      else None
  end.

(** [document.documentElement.lang = lang]: [lang] is a property of the
    HTML elements, which sets the attribute; on another root the
    assignment makes a property of the script's object. *)
Definition setLang (root : element) (lang : jsstring) : element :=
  match root with
  | Element ns n a v c =>
      if isHTMLElement root then Element ns n (<[js "lang" := lang]> a) v c
      else root
  end.

(** The gate: [!translations[lang] && lang !== 'en' && lang !== 'ru'].  An
    entry of the translations object is an object, and so is a property of
    [Object.prototype]: both are truthy. *)
Definition comingSoonGate (translations : Translations) (lang : jsstring)
  : bool :=
  match translations !! lang with
  | Some _ => false
  | None => negb (includes objectPrototypeNames lang)
            && negb (bool_decide (lang = js "en"))
            && negb (bool_decide (lang = js "ru"))
  end.

Definition bodyIsNull : jsError :=
  {| errorName := js "TypeError"; errorMessage := js "document.body is null" |}.

(** [translatePage()]: the document it leaves and how the call ends.  On
    the path of the gate [Throw] is the TypeError of assigning to a
    property of [null], raised before anything is changed; on the path of
    the substitution it is what a callback threw, and the [lang] of the
    root is then not set. *)
Definition translatePage (platform : Platform) (translations : Translations)
    (lang : jsstring) (document : Document) : Document * completion () :=
  let root := documentElement document in
  let leave root' := {| kind := kind document; documentElement := root' |} in
  if comingSoonGate translations lang then
    match setBodyInnerHTML root (comingSoonIn (kind document)) with
    | Some root' => (leave root', Return ())
    | None => (document, Throw bodyIsNull)
    end
  else
    match forEachSelected platform translations lang (kind document) root with
    | (root', Some err) => (leave root', Throw err)
    | (root', None) => (leave (setLang root' lang), Normal)
    end.

(** [initTranslations(pageTranslations)]: the new translations object and
    the document after [translatePage()]. *)
Definition initTranslations (platform : Platform)
    (pageTranslations : Translations) (lang : jsstring) (document : Document)
  : Translations * (Document * completion ()) :=
  (pageTranslations, translatePage platform pageTranslations lang document).

(* ===================================================================== *)
(** * api/ifet/feedback.js *)
(* ===================================================================== *)


Definition ELLIPSIS : jsstring := [0x2026].

(** [safeStr] on a string, where [String(v)] is [v] and cannot throw. *)
Definition safeStrOfString (s : jsstring) (max : nat) : jsstring :=
  let s := trim s in
  if (max <? length s)%nat then take max s ++ ELLIPSIS else s.

(** [safeStr(v, max)] *)
Definition safeStr (v : jsvalue) (max : nat) : result jsstring :=
  s ← match v with
      | Undefined | Null => Ok []
      | _ => toString v
      end;
  Ok (safeStrOfString s max).

Definition corsHeaders (requestOrigin : jsstring) (allowedOrigins : list jsstring)
  : gmap jsstring jsstring :=
  let allow :=
    if (length allowedOrigins =? 0)%nat then js "*"
    else if includes allowedOrigins (js "*") then js "*"
    else if includes allowedOrigins requestOrigin then requestOrigin
    else hd [] allowedOrigins in
  {[ js "Access-Control-Allow-Origin" := allow;
     js "Access-Control-Allow-Methods" := js "POST, OPTIONS";
     js "Access-Control-Allow-Headers" := js "Content-Type, Authorization";
     js "Access-Control-Max-Age" := js "86400";
     js "Vary" := js "Origin" ]}.

(** The JSON documents the handler answers with. *)
Inductive responseBody :=
| NoBody
| JsonOk
| JsonError (error : jsstring)
| JsonHealth (hasBotToken hasChatId : bool) (allowedOrigins : list jsstring).

Record Response := {
  status : N;
  headers : gmap jsstring jsstring;
  body : responseBody }.

(** [json(data, headers, status)]: the spread headers come after
    Content-Type and win over it. *)
Definition json (data : responseBody) (headers : gmap jsstring jsstring)
    (status : N) : Response :=
  {| status := status;
     headers :=
       headers ∪ {[ js "Content-Type" := js "application/json; charset=utf-8" ]};
     body := data |}.

Record Payload := {
  type : jsstring;
  lang : jsstring;
  email : jsstring;
  message : jsstring;
  timestamp : jsstring;
  userAgent : jsstring }.

(** [lines.join("\n")] *)
Fixpoint join (sep : jsstring) (lines : list jsstring) : jsstring :=
  match lines with
  | [] => []
  | [l] => l
  | l :: r => l ++ sep ++ join sep r
  end.

(** [if (present) lines.push(`${prefix}${safeStr(field, max)}`)]: the lines
    pushed. *)
Definition pushIf (present prefix field : jsstring) (max : nat)
  : list jsstring :=
  if nonEmpty present then [prefix ++ safeStrOfString field max] else [].

Definition formatMessage (payload : Payload) : jsstring :=
  join LF
    ([ [0xD83D; 0xDCDD] ++ js " IFET feedback: "
       ++ safeStrOfString (orElse (Some (type payload)) (js "unknown")) 40 ]
     ++ pushIf (lang payload) ([0xD83C; 0xDF10] ++ js " lang: ") (lang payload) 20
     ++ pushIf (email payload) ([0x2709; 0xFE0F] ++ js " email: ")
               (email payload) 200
     ++ pushIf (userAgent payload) ([0xD83E; 0xDDED] ++ js " ua: ")
               (userAgent payload) 240
     ++ pushIf (message payload) LF (message payload) 3500
     ++ pushIf (timestamp payload) (LF ++ [0x23F1] ++ js " ")
               (timestamp payload) 80).

(** The environment variables the handler reads. *)
Record Env := {
  BOT_TOKEN : option jsstring;
  CHAT_ID : option jsstring;
  ALLOWED_ORIGIN : option jsstring;
  ALLOWED_ORIGINS : option jsstring }.

(** The two requests to the bot API. *)
Inductive telegramCall :=
| SendMessage (url chat_id text : jsstring)
| SendDocument (url chat_id caption : jsstring) (document : File)
               (filename : jsstring).

(** What [fetch] gives for such a request: a rejection, or a response
    with its [ok], its [status] and what [text()] gives. *)
Inductive fetchOutcome :=
| Rejected (e : jsError)
| Responded (ok : bool) (status : N) (text : result jsstring).

(** [`${n}`] for a status code. *)
Definition numberToString (n : N) : jsstring :=
  js (NilZero.string_of_uint (N.to_uint n)).

Definition afterFetch (what : jsstring) (o : fetchOutcome) : result () :=
  match o with
  | Rejected e => Thrown e
  | Responded true _ _ => Ok ()
  | Responded false st text =>
      t ← text;
      Thrown {| errorName := js "Error";
                errorMessage := js "Telegram " ++ what ++ js " failed: "
                                ++ numberToString st ++ js " " ++ t |}
  end.

Definition BOT_API : jsstring := js "https://api.telegram.org/bot".

(** The request [tgSendMessage(env, text)] sends. *)
Definition tgSendMessage (env : Env) (text : jsstring) : telegramCall :=
  SendMessage (BOT_API ++ default (js "undefined") (BOT_TOKEN env) ++ js "/sendMessage")
              (default [] (CHAT_ID env)) text.

(** The request [tgSendDocument(env, file, caption)] sends. *)
Definition tgSendDocument (env : Env) (file : File) (caption : jsstring)
  : telegramCall :=
  let safeCaption := safeStrOfString caption 950 in
  SendDocument (BOT_API ++ default (js "undefined") (BOT_TOKEN env) ++ js "/sendDocument")
               (default [] (CHAT_ID env)) safeCaption file
               (orElse (Some (fileName file)) (js "attachment")).

Definition getAllowedOrigins (env : Env) : list jsstring :=
  let raw :=
    trim (orElse (ALLOWED_ORIGINS env) (orElse (ALLOWED_ORIGIN env) (js "*"))) in
  if negb (nonEmpty raw) || bool_decide (raw = js "*") then [js "*"]
  else List.filter nonEmpty (map trim (split 0x2C raw)).

(** A parsed JSON body: an object with its properties, or any other JSON
    value, none of which has one of the six properties the handler reads. *)
Inductive jsonBody :=
| JsonObject (properties : gmap jsstring jsvalue)
| JsonOther.

(** [body?.name] *)
Definition property (b : jsonBody) (name : jsstring) : jsvalue :=
  match b with
  | JsonObject p => default Undefined (p !! name)
  | JsonOther => Undefined
  end.

(** An entry of a [FormData]: a string or a file. *)
Inductive formEntry :=
| EntryString (s : jsstring)
| EntryFile (f : File).

Definition entryValue (e : formEntry) : jsvalue :=
  match e with
  | EntryString s => Str s
  | EntryFile f => FileValue f
  end.

(** [fd.get(name)]: the first entry of that name, or [null]. *)
Fixpoint formGet (fd : list (jsstring * formEntry)) (name : jsstring)
  : option formEntry :=
  match fd with
  | [] => None
  | (n, e) :: r => if bool_decide (n = name) then Some e else formGet r name
  end.

Definition formValue (fd : list (jsstring * formEntry)) (name : jsstring)
  : jsvalue :=
  match formGet fd name with
  | Some e => entryValue e
  | None => Null
  end.

(** A request: its method, the two headers the handler reads, and what
    [request.formData()] and [request.json()] give when awaited. *)
Record Request := {
  method : jsstring;
  originHeader : option jsstring;
  contentTypeHeader : option jsstring;
  formData : result (list (jsstring * formEntry));
  jsonData : result jsonBody }.

(** The six fields, each through [safeStr(field || "", max)]. *)
Definition buildPayload (field : jsstring -> jsvalue) : result Payload :=
  t ← safeStr (or (field (js "type")) (Str [])) 50;
  l ← safeStr (or (field (js "lang")) (Str [])) 10;
  e ← safeStr (or (field (js "email")) (Str [])) 250;
  m ← safeStr (or (field (js "message")) (Str [])) 6000;
  ts ← safeStr (or (field (js "timestamp")) (Str [])) 80;
  ua ← safeStr (or (field (js "userAgent")) (Str [])) 400;
  Ok {| type := t; lang := l; email := e; message := m;
        timestamp := ts; userAgent := ua |}.

(** The attachment of a multipart body: an entry that is a file ([typeof]
    is "object" and it has [arrayBuffer]) and is not empty. *)
Definition attachmentOf (fd : list (jsstring * formEntry)) : option File :=
  match formGet fd (js "attachment") with
  | Some (EntryFile f) => if fileSize f =? 0 then None else Some f
  | _ => None
  end.

(** The [try] block up to the call of the bot API: the payload and the
    attachment. *)
Definition readSubmission (request : Request) : result (Payload * option File) :=
  let ct := orElse (contentTypeHeader request) [] in
  if strIncludes ct (js "multipart/form-data") then
    fd ← formData request;
    payload ← buildPayload (formValue fd);
    Ok (payload, attachmentOf fd)
  else
    body ← jsonData request;
    payload ← buildPayload (property body);
    Ok (payload, None).

(** The [try] block: its completion and the requests made to the bot API. *)
Definition handlerTry (fetch : telegramCall -> fetchOutcome) (env : Env)
    (request : Request) : result () * list telegramCall :=
  match readSubmission request with
  | Thrown e => (Thrown e, [])
  | Ok (payload, attachment) =>
      let text := formatMessage payload in
      match attachment with
      | Some file =>
          let call := tgSendDocument env file text in
          (afterFetch (js "sendDocument") (fetch call), [call])
      | None =>
          let call := tgSendMessage env text in
          (afterFetch (js "sendMessage") (fetch call), [call])
      end
  end.

(** [String(e && e.message ? e.message : e)] for a thrown [Error]. *)
Definition errorText (e : jsError) : jsstring :=
  if nonEmpty (errorMessage e) then errorMessage e else errorName e.

(** The handler: its response and the requests it made to the bot API. *)
Definition handler (fetch : telegramCall -> fetchOutcome) (env : Env)
    (request : Request) : Response * list telegramCall :=
  let origin := orElse (originHeader request) [] in
  let allowedOrigins := getAllowedOrigins env in
  let cors := corsHeaders origin allowedOrigins in
  if bool_decide (method request = js "GET") then
    (json (JsonHealth (nonEmpty (default [] (BOT_TOKEN env)))
                      (nonEmpty (default [] (CHAT_ID env))) allowedOrigins)
          cors 200, [])
  else if bool_decide (method request = js "OPTIONS") then
    ({| status := 204; headers := cors; body := NoBody |}, [])
  else if negb (bool_decide (method request = js "POST")) then
    (json (JsonError (js "Method not allowed")) cors 405, [])
  else if negb (nonEmpty (default [] (BOT_TOKEN env)))
          || negb (nonEmpty (default [] (CHAT_ID env))) then
    (json (JsonError (js "Server not configured (missing BOT_TOKEN/CHAT_ID)"))
          cors 500, [])
  else
    match handlerTry fetch env request with
    | (Ok _, calls) => (json JsonOk cors 200, calls)
    | (Thrown e, calls) => (json (JsonError (errorText e)) cors 500, calls)
    end.

(* ===================================================================== *)
(** * Words of the specification and sample inputs *)
(* ===================================================================== *)

(** A variable that is [undefined] or the empty string is falsy. *)
Definition missing (v : option jsstring) : Prop := v = None \/ v = Some [].

(** The request says it is multipart. *)
Definition isMultipart (request : Request) : Prop :=
  strIncludes (orElse (contentTypeHeader request) []) (js "multipart/form-data")
  = true.

(** The multipart body is readable and its [attachment] entry is the file
    [f], which is not empty. *)
Definition carriesAttachment (request : Request) (f : File) : Prop :=
  exists fd, formData request = Ok fd
             /\ formGet fd (js "attachment") = Some (EntryFile f)
             /\ fileSize f <> 0.

Definition isSendDocument (c : telegramCall) : bool :=
  match c with SendDocument _ _ _ _ _ => true | SendMessage _ _ _ => false end.

Definition sampleEnv : Env :=
  {| BOT_TOKEN := Some (js "123:abc"); CHAT_ID := Some (js "42");
     ALLOWED_ORIGIN := None; ALLOWED_ORIGINS := None |}.

Definition fetchOk (c : telegramCall) : fetchOutcome :=
  Responded true 200 (Ok (js "{}")).

Definition fetchForbidden (c : telegramCall) : fetchOutcome :=
  Responded false 403 (Ok (js "Forbidden")).

Definition malformedJson : jsError :=
  {| errorName := js "SyntaxError"; errorMessage := js "Unexpected end of JSON input" |}.

(** POST of the JSON body [{"lang": "12345678901"}]. *)
Definition longLangRequest : Request :=
  {| method := js "POST"; originHeader := None;
     contentTypeHeader := Some (js "application/json");
     formData := Thrown malformedJson;
     jsonData := Ok (JsonObject {[ js "lang" := Str (js "12345678901") ]}) |}.

Definition sampleFile : File := {| fileName := js "log.txt"; fileSize := 12 |}.

(** A multipart POST with a message and a file of twelve bytes. *)
Definition attachmentRequest : Request :=
  {| method := js "POST"; originHeader := Some (js "https://ifet.example");
     contentTypeHeader := Some (js "multipart/form-data; boundary=x");
     formData := Ok [(js "message", EntryString (js "hello"));
                     (js "attachment", EntryFile sampleFile)];
     jsonData := Thrown malformedJson |}.

(** A POST whose JSON body cannot be parsed. *)
Definition malformedJsonRequest : Request :=
  {| method := js "POST"; originHeader := None;
     contentTypeHeader := Some (js "application/json");
     formData := Thrown malformedJson; jsonData := Thrown malformedJson |}.

(** A DELETE request. *)
Definition deleteRequest : Request :=
  {| method := js "DELETE"; originHeader := None; contentTypeHeader := None;
     formData := Thrown malformedJson; jsonData := Thrown malformedJson |}.



(** The entry the page has written under a locale and a key, if any. *)
Definition ownEntry (translations : Translations) (lang key : jsstring)
  : option jsstring :=
  table ← translations !! lang; table !! key.

(** The text of a key among the entries the page has written: the entry
    of the locale, else the English entry, else the key, an empty entry
    counting as none. *)
Definition textOf (translations : Translations) (lang key : jsstring)
  : jsstring :=
  orElse (ownEntry translations lang key)
         (orElse (ownEntry translations (js "en") key) key).

(** A child of the root that [document.body] would give. *)
Definition isBodyNode (n : node) : bool :=
  match n with
  | ElementNode e => isBodyElement e
  | _ => false
  end.

(** No element on the way from [e] down the path, the last one left out,
    is overwritten: the element at the end of the path stays in the
    document. *)
Fixpoint staysBelow (platform : Platform) (translations : Translations)
    (lang : jsstring) (kind : documentKind) (e : element) (path : list nat)
  : bool :=
  match path with
  | [] => true
  | i :: p =>
      negb (overwritten platform translations lang kind e)
      && match childNodes e !! i with
         | Some (ElementNode e') =>
             staysBelow platform translations lang kind e' p
         | _ => false
         end
  end.

(** No element of the subtree carries [data-i18n]. *)
Fixpoint unmarked (e : element) : bool :=
  match e with
  | Element _ _ a _ c =>
      bool_decide (a !! js "data-i18n" = None)
      && forallb (fun n => match n with
                           | ElementNode e' => unmarked e'
                           | _ => true
                           end) c
  end.

Definition unmarkedNodes (c : list node) : bool :=
  forallb (fun n => match n with
                    | ElementNode e' => unmarked e'
                    | _ => true
                    end) c.

(** No exception comes from an element that the call has taken out of the
    document: where the callback assigns [textContent], it throws on no
    selected element that was below. *)
Fixpoint quietWhenDetached (platform : Platform) (translations : Translations)
    (lang : jsstring) (kind : documentKind) (e : element) : bool :=
  match e with
  | Element _ _ _ _ c =>
      if overwritten platform translations lang kind e then
        match firstThrowBelow
                (forEachCallback platform translations lang kind) c with
        | None => true
        | Some _ => false
        end
      else
        forallb (fun m => match m with
                          | ElementNode e' =>
                              quietWhenDetached platform translations lang kind e'
                          | _ => true
                          end) c
  end.

(** What the claim takes a marked element with nested markup to be:
    selected by [[data-i18n]], not input-like, with an element child. *)
Definition markedWithElementChild (kind : documentKind) (e : element) : Prop :=
  is_Some (attributes e !! js "data-i18n")
  /\ isInputLike kind e = false
  /\ children (childNodes e) <> [].

(** An [input] that takes a file name: its [value] cannot be set to a
    string that is not empty. *)
Definition isFileInput (e : element) : bool :=
  isHTML (js "input") e
  && match valueModeOf (typeState (attributes e)) with
     | ModeFilename => true
     | _ => false
     end.

(** No element of the subtree is a marked file input without a
    [placeholder] attribute. *)
Fixpoint noMarkedFileInput (e : element) : bool :=
  match e with
  | Element _ _ a _ c =>
      negb (bool_decide (is_Some (a !! js "data-i18n"))
            && isFileInput e
            && bool_decide (a !! js "placeholder" = None))
      && forallb (fun n => match n with
                           | ElementNode e' => noMarkedFileInput e'
                           | _ => true
                           end) c
  end.

Local Open Scope string_scope.

(** An HTML element without a value. *)
Definition elem (name : string) (attrs : list (string * string))
    (c : list node) : element :=
  Element (Some HTML_NAMESPACE) (js name)
          (list_to_map (map (fun kv => (js (fst kv), js (snd kv))) attrs)) [] c.

(** An HTML document of the given root. *)
Definition page (root : element) : Document :=
  {| kind := HTMLDocument; documentElement := root |}.

(** A platform for the examples: it writes the source of a native function
    as V8 does.  The examples read no property of a function and set the
    value of no input of a parsed type: there it answers [undefined] and
    keeps the text. *)
Definition examplePlatform : Platform :=
  {| functionSource name :=
       (js "function "
        ++ (if bool_decide (name = js "constructor") then js "Object" else name)
        ++ js "() { [native code] }")%list;
     functionProperty name key := Ok Undefined;
     sanitize type attrs text := text |}.

(** English and Russian texts; the Russian greeting is the empty string. *)
Definition sampleTranslations : Translations :=
  {[ js "en" := {[ js "greeting" := js "Hello"; js "more" := js "Read more" ]};
     js "ru" := {[ js "greeting" := []; js "more" := js "Dalee" ]} ]}.

(** [<span data-i18n="footer" data-i18n-link="more"><b>x</b></span>] *)
Definition linkSpan : element :=
  elem "span" [("data-i18n", "footer"); ("data-i18n-link", "more")]
       [ElementNode (elem "b" [] [TextNode (js "x")])].

(** [<p data-i18n="footer">See <a data-i18n="more">more</a></p>] *)
Definition footerParagraph : element :=
  elem "p" [("data-i18n", "footer")]
       [TextNode (js "See ");
        ElementNode (elem "a" [("data-i18n", "more")] [TextNode (js "more")])].

(** [<p data-i18n="footer">See <a href="/more">more</a></p>] *)
Definition plainFooter : element :=
  elem "p" [("data-i18n", "footer")]
       [TextNode (js "See ");
        ElementNode (elem "a" [("href", "/more")] [TextNode (js "more")])].

(** A page: a marked title in the head; a marked heading and the three
    elements above in the body. *)
Definition sampleRoot : element :=
  elem "html" [("lang", "en")]
       [ElementNode (elem "head" []
                       [ElementNode (elem "title" [("data-i18n", "greeting")]
                                       [TextNode (js "Title")])]);
        TextNode LF;
        ElementNode (elem "body" []
                       [ElementNode (elem "h1" [("data-i18n", "greeting")]
                                       [TextNode (js "Hi")]);
                        ElementNode linkSpan;
                        ElementNode footerParagraph;
                        ElementNode plainFooter])].

Definition samplePage : Document := page sampleRoot.

(** The head of a page with a marked title. *)
Definition sampleHead : node :=
  ElementNode (elem "head" []
                 [ElementNode (elem "title" [("data-i18n", "greeting")]
                                 [TextNode (js "Title")])]).

(** [<span data-i18n="footer" data-i18n-link="more"><input type="file"
    data-i18n="more"></span>] followed by [<p data-i18n="greeting">Hi</p>]. *)
Definition uploadRoot : element :=
  elem "html" []
       [ElementNode (elem "head" [] []);
        ElementNode
          (elem "body" []
             [ElementNode
                (elem "span" [("data-i18n", "footer"); ("data-i18n-link", "more")]
                   [ElementNode
                      (elem "input" [("type", "file"); ("data-i18n", "more")]
                            [])]);
              ElementNode
                (elem "p" [("data-i18n", "greeting")] [TextNode (js "Hi")])])].

Definition uploadPage : Document := page uploadRoot.

Local Close Scope string_scope.

(** The value of the [lang] parameter as the first step reads it,
    normalised: [(urlParams.get('lang') || '')], trimmed, in lower case,
    cut at the first hyphen. *)
Definition langOfQuery (location : Location) : jsstring :=
  normalize (orElse (get (URLSearchParams (search location)) (js "lang")) []).

(** A lower-case ASCII letter or the hyphen: what a locale with a regional
    suffix starts with. *)
Definition isPlain (c : N) : Prop := 0x61 <= c <= 0x7A \/ c = 0x2D.

(* --------------------------------------------------------------------- *)
(** ** More sample inputs *)
(* --------------------------------------------------------------------- *)

Local Open Scope string_scope.

(** [<input data-i18n="more" placeholder="...">] with the value "typed",
    [<textarea data-i18n="greeting">] with the value "draft" and
    [<input type="submit" data-i18n="more" value="Send">]. *)
Definition searchInput : element :=
  Element (Some HTML_NAMESPACE) (js "input")
          {[ js "data-i18n" := js "more"; js "placeholder" := js "..." ]}
          (js "typed") [].

Definition draftArea : element :=
  Element (Some HTML_NAMESPACE) (js "textarea")
          {[ js "data-i18n" := js "greeting" ]} (js "draft") [].

Definition submitInput : element :=
  elem "input" [("type", "submit"); ("data-i18n", "more"); ("value", "Send")] [].

Definition formRoot : element :=
  elem "html" []
       [ElementNode (elem "head" [] []);
        ElementNode
          (elem "body" []
             [ElementNode searchInput; ElementNode draftArea;
              ElementNode submitInput])].

Definition formPage : Document := page formRoot.

(** The document while a script of the head runs: there is no body yet. *)
Definition headOnlyPage : Document :=
  page (elem "html" [] [sampleHead]).

(** A page on which nothing is marked. *)
Definition plainRoot : element :=
  elem "html" [("lang", "en")]
       [ElementNode (elem "head" [] []);
        ElementNode (elem "body" [("class", "home")]
                       [ElementNode (elem "p" [] [TextNode (js "Hello")])])].

Definition plainPage : Document := page plainRoot.

(** An SVG page: [<svg><text>Hello</text></svg>]. *)
Definition svgPage : Document :=
  {| kind := XMLDocument;
     documentElement :=
       Element (Some (js "http://www.w3.org/2000/svg")) (js "svg") ∅ []
               [ElementNode
                  (Element (Some (js "http://www.w3.org/2000/svg")) (js "text")
                           ∅ [] [TextNode (js "Hello")])] |}.

(** A page whose paragraph is marked with the key "constructor". *)
Definition constructorPage : Document :=
  page (elem "html" []
          [ElementNode (elem "head" [] []);
           ElementNode (elem "body" []
                          [ElementNode (elem "p" [("data-i18n", "constructor")]
                                          [TextNode (js "x")])])]).

(** An XHTML page with an empty body. *)
Definition xhtmlPage : Document :=
  {| kind := XMLDocument;
     documentElement := elem "html" [] [sampleHead; ElementNode (elem "body" [] [])] |}.

Local Close Scope string_scope.

(** [v] is [l] with some of its letters in upper case. *)
Definition sameLetters (v l : jsstring) : Prop :=
  Forall2 (fun x y => x = y \/ x + 0x20 = y) v l.

(** What can follow a value in a URL: nothing, the next parameter or the
    fragment. *)
Definition endsValue (tail : jsstring) : Prop :=
  tail = [] \/ exists t, tail = 0x26 :: t \/ tail = 0x23 :: t.

(* ===================================================================== *)
(** * Properties of api/ifet/feedback.js *)
(* ===================================================================== *)

(** The value of the [allow] constant of [corsHeaders]. *)
Lemma corsHeaders_allow (requestOrigin : jsstring)
    (allowedOrigins : list jsstring) :
  corsHeaders requestOrigin allowedOrigins !! js "Access-Control-Allow-Origin"
  = Some (if (length allowedOrigins =? 0)%nat then js "*"
          else if includes allowedOrigins (js "*") then js "*"
          else if includes allowedOrigins requestOrigin then requestOrigin
          else hd [] allowedOrigins).
Proof. unfold corsHeaders. apply lookup_insert_eq. Qed.

(** C10: the Access-Control-Allow-Origin header of [corsHeaders] is "*" or
    one of the configured origins; with a configured list that has no "*"
    and does not hold the request origin, it is the first configured
    origin and not the request origin. *)
Theorem corsHeaders_never_echoes_unlisted_origin
    (requestOrigin : jsstring) (allowedOrigins : list jsstring) :
  exists allow,
    corsHeaders requestOrigin allowedOrigins !! js "Access-Control-Allow-Origin"
    = Some allow
    /\ (allow = js "*" \/ allow ∈ allowedOrigins)
    /\ (allowedOrigins <> [] -> js "*" ∉ allowedOrigins ->
        requestOrigin ∉ allowedOrigins ->
        allow = hd [] allowedOrigins /\ allow <> requestOrigin).
Proof.
  eexists. split; [apply corsHeaders_allow |].
  unfold includes.
  destruct allowedOrigins as [|o rest]; simpl.
  - split; [by left | congruence].
  - repeat case_bool_decide.
    + split; [by left | intros _ ? _; contradiction].
    + split; [by right | intros _ _ ?; contradiction].
    + split; [right; apply list_elem_of_here |].
      intros _ _ Hno. split; [done |].
      intros ->. apply Hno, list_elem_of_here.
Qed.

Lemma corsHeaders_never_echoes_unlisted_origin_witness :
  exists allow,
    corsHeaders (js "https://evil.example")
                [js "https://ifet.example"; js "https://www.ifet.example"]
      !! js "Access-Control-Allow-Origin" = Some allow
    /\ allow = js "https://ifet.example".
Proof.
  destruct (corsHeaders_never_echoes_unlisted_origin
              (js "https://evil.example")
              [js "https://ifet.example"; js "https://www.ifet.example"])
    as (allow & Hlook & _ & Hfirst).
  exists allow. split; [exact Hlook |].
  apply Hfirst.
  - discriminate.
  - apply (bool_decide_eq_false_1 _). vm_compute. reflexivity.
  - apply (bool_decide_eq_false_1 _). vm_compute. reflexivity.
Defined.

(* --------------------------------------------------------------------- *)
(** ** [safeStr] *)
(* --------------------------------------------------------------------- *)

Lemma safeStrOfString_short (s : jsstring) (max : nat) :
  (length (trim s) <= max)%nat -> safeStrOfString s max = trim s.
Proof.
  intros H. unfold safeStrOfString.
  destruct (Nat.ltb_spec max (length (trim s))); [lia | reflexivity].
Qed.

Lemma safeStrOfString_long (s : jsstring) (max : nat) :
  (max < length (trim s))%nat ->
  safeStrOfString s max = take max (trim s) ++ ELLIPSIS
  /\ length (safeStrOfString s max) = S max.
Proof.
  intros H. unfold safeStrOfString.
  destruct (Nat.ltb_spec max (length (trim s))); [| lia].
  split; [reflexivity |].
  rewrite length_app, length_take. simpl. lia.
Qed.

Lemma safeStrOfString_length (s : jsstring) (max : nat) :
  (length (safeStrOfString s max) <= max + 1)%nat.
Proof.
  destruct (Nat.le_gt_cases (length (trim s)) max) as [H|H].
  - rewrite safeStrOfString_short by exact H. lia.
  - apply safeStrOfString_long in H as [_ ->]. lia.
Qed.

Lemma safeStr_Ok_length (v : jsvalue) (max : nat) (s : jsstring) :
  safeStr v max = Ok s -> (length s <= max + 1)%nat.
Proof.
  unfold safeStr.
  destruct (match v with Undefined | Null => Ok [] | _ => toString v end)
    as [str|e]; simpl; [| discriminate].
  intros [= <-]. apply safeStrOfString_length.
Qed.

Ltac bind_Ok H :=
  match type of H with
  | (?r ≫= _) = Ok _ =>
      let Hr := fresh "Hfield" in
      destruct r eqn:Hr; simpl in H; [| discriminate H]
  end.

Lemma buildPayload_Ok (field : jsstring -> jsvalue) (p : Payload) :
  buildPayload field = Ok p ->
  safeStr (or (field (js "type")) (Str [])) 50 = Ok (type p)
  /\ safeStr (or (field (js "lang")) (Str [])) 10 = Ok (lang p)
  /\ safeStr (or (field (js "email")) (Str [])) 250 = Ok (email p)
  /\ safeStr (or (field (js "message")) (Str [])) 6000 = Ok (message p)
  /\ safeStr (or (field (js "timestamp")) (Str [])) 80 = Ok (timestamp p)
  /\ safeStr (or (field (js "userAgent")) (Str [])) 400 = Ok (userAgent p).
Proof.
  unfold buildPayload. intros H.
  do 6 bind_Ok H. injection H as <-. simpl. repeat split; assumption.
Qed.

(** C9, as the code has it: [safeStr(v, max)] is the trimmed string when
    that has at most [max] code units, and otherwise its first [max] code
    units followed by the one code unit of the ellipsis, so that it has
    [max + 1] code units; every field of the payload the handler builds
    has at most one code unit more than its limit. *)
Theorem safeStr_truncates_and_marks :
  (forall (v : jsvalue) (max : nat) (s : jsstring),
      safeStr v max = Ok s ->
      exists str,
        match v with Undefined | Null => Ok [] | _ => toString v end = Ok str
        /\ ((length (trim str) <= max)%nat /\ s = trim str
            \/ (max < length (trim str))%nat
               /\ s = take max (trim str) ++ ELLIPSIS
               /\ length s = S max))
  /\ (forall (field : jsstring -> jsvalue) (p : Payload),
        buildPayload field = Ok p ->
        (length (type p) <= 50 + 1)%nat /\ (length (lang p) <= 10 + 1)%nat
        /\ (length (email p) <= 250 + 1)%nat
        /\ (length (message p) <= 6000 + 1)%nat
        /\ (length (timestamp p) <= 80 + 1)%nat
        /\ (length (userAgent p) <= 400 + 1)%nat).
Proof.
  split.
  - intros v max s. unfold safeStr.
    destruct (match v with Undefined | Null => Ok [] | _ => toString v end)
      as [str|e]; simpl; [| discriminate].
    intros [= <-]. exists str. split; [reflexivity |].
    destruct (Nat.le_gt_cases (length (trim str)) max) as [H|H].
    + left. split; [exact H | by apply safeStrOfString_short].
    + right. split; [exact H | by apply safeStrOfString_long].
  - intros field p H.
    apply buildPayload_Ok in H as (Ht & Hl & He & Hm & Hs & Hu).
    repeat split; eapply safeStr_Ok_length; eassumption.
Qed.

Lemma safeStr_truncates_and_marks_witness :
  exists str,
    Ok (js "  abcdef ") = Ok str
    /\ ((length (trim str) <= 3)%nat /\ js "abc" ++ ELLIPSIS = trim str
        \/ (3 < length (trim str))%nat
           /\ js "abc" ++ ELLIPSIS = take 3 (trim str) ++ ELLIPSIS
           /\ length (js "abc" ++ ELLIPSIS) = 4%nat).
Proof.
  apply (proj1 safeStr_truncates_and_marks (Str (js "  abcdef ")) 3%nat
               (js "abc" ++ ELLIPSIS)).
  vm_compute. reflexivity.
Defined.

(** C9 as it is written fails: the field [lang] of the JSON body
    [{"lang": "12345678901"}], limit 10, is forwarded with eleven code
    units, the ten first ones and the ellipsis. *)
Lemma forwarded_field_longer_than_limit :
  exists p,
    buildPayload (property (JsonObject {[ js "lang" := Str (js "12345678901") ]}))
    = Ok p
    /\ lang p = js "1234567890" ++ ELLIPSIS
    /\ ~ (length (lang p) <= 10)%nat
    /\ snd (handler fetchOk sampleEnv longLangRequest)
       = [SendMessage (js "https://api.telegram.org/bot123:abc/sendMessage")
            (js "42")
            ([0xD83D; 0xDCDD] ++ js " IFET feedback: unknown" ++ LF
             ++ [0xD83C; 0xDF10] ++ js " lang: 1234567890" ++ ELLIPSIS)].
Proof.
  eexists. split; [vm_compute; reflexivity |].
  split; [vm_compute; reflexivity |].
  split; [vm_compute; lia |].
  vm_compute. reflexivity.
Qed.

(* --------------------------------------------------------------------- *)
(** ** [handler] *)
(* --------------------------------------------------------------------- *)

Lemma nonEmpty_default (v : option jsstring) :
  nonEmpty (default [] v) = false <-> missing v.
Proof.
  unfold missing. destruct v as [[|c r]|]; simpl; split; intros H;
    try reflexivity; try discriminate; auto.
  - destruct H as [H|H]; discriminate.
Qed.

Lemma nonEmpty_default_true (v : option jsstring) :
  ~ missing v -> nonEmpty (default [] v) = true.
Proof.
  intros H. destruct (nonEmpty (default [] v)) eqn:E; [reflexivity |].
  apply nonEmpty_default in E. contradiction.
Qed.

(** A configured POST runs the [try] block. *)
Lemma handler_post (fetch : telegramCall -> fetchOutcome) (env : Env)
    (request : Request) :
  method request = js "POST" ->
  ~ missing (BOT_TOKEN env) -> ~ missing (CHAT_ID env) ->
  handler fetch env request
  = let cors := corsHeaders (orElse (originHeader request) [])
                            (getAllowedOrigins env) in
    match handlerTry fetch env request with
    | (Ok _, calls) => (json JsonOk cors 200, calls)
    | (Thrown e, calls) => (json (JsonError (errorText e)) cors 500, calls)
    end.
Proof.
  intros Hm Hb Hc. unfold handler. rewrite Hm.
  rewrite (nonEmpty_default_true _ Hb), (nonEmpty_default_true _ Hc).
  reflexivity.
Qed.

(** The strings and files of a multipart body never make [String()]
    throw. *)
Lemma safeStr_formValue (fd : list (jsstring * formEntry)) (name : jsstring)
    (max : nat) :
  exists s, safeStr (or (formValue fd name) (Str [])) max = Ok s.
Proof.
  unfold formValue, or.
  destruct (formGet fd name) as [[s|f]|]; simpl.
  - destruct (nonEmpty s); eexists; reflexivity.
  - eexists; reflexivity.
  - eexists; reflexivity.
Qed.

Lemma buildPayload_formValue (fd : list (jsstring * formEntry)) :
  exists p, buildPayload (formValue fd) = Ok p.
Proof.
  unfold buildPayload.
  destruct (safeStr_formValue fd (js "type") 50) as [? ->].
  destruct (safeStr_formValue fd (js "lang") 10) as [? ->].
  destruct (safeStr_formValue fd (js "email") 250) as [? ->].
  destruct (safeStr_formValue fd (js "message") 6000) as [? ->].
  destruct (safeStr_formValue fd (js "timestamp") 80) as [? ->].
  destruct (safeStr_formValue fd (js "userAgent") 400) as [? ->].
  eexists. reflexivity.
Qed.

Lemma attachmentOf_Some (fd : list (jsstring * formEntry)) (f : File) :
  attachmentOf fd = Some f
  <-> formGet fd (js "attachment") = Some (EntryFile f) /\ fileSize f <> 0.
Proof.
  unfold attachmentOf.
  destruct (formGet fd (js "attachment")) as [[s|g]|];
    try (split; [discriminate | intros [[=] _]]).
  destruct (N.eqb_spec (fileSize g) 0) as [E|E]; split.
  - discriminate.
  - intros [[= ->] H]. contradiction.
  - intros [= ->]. split; [reflexivity | exact E].
  - intros [[= ->] _]. reflexivity.
Qed.

(** What [readSubmission] gives for an attachment, seen from the request. *)
Lemma readSubmission_attachment (request : Request) (payload : Payload)
    (attachment : option File) :
  readSubmission request = Ok (payload, attachment) ->
  forall f, attachment = Some f
            <-> isMultipart request /\ carriesAttachment request f.
Proof.
  unfold readSubmission, isMultipart, carriesAttachment.
  destruct (strIncludes _ _) eqn:Hct.
  - destruct (formData request) as [fd|e]; simpl; [| discriminate].
    destruct (buildPayload (formValue fd)) as [p|e]; simpl; [| discriminate].
    intros [= <- <-] f. rewrite attachmentOf_Some. split.
    + intros [H1 H2]. split; [reflexivity |]. exists fd. auto.
    + intros [_ (fd' & [= <-] & H1 & H2)]. auto.
  - destruct (jsonData request) as [b|e]; simpl; [| discriminate].
    destruct (buildPayload (property b)) as [p|e]; simpl; [| discriminate].
    intros [= <- <-] f. split; [discriminate | intros [[=] _]].
Qed.

Lemma readSubmission_carries (request : Request) (f : File) :
  isMultipart request -> carriesAttachment request f ->
  exists payload, readSubmission request = Ok (payload, Some f).
Proof.
  unfold readSubmission, isMultipart, carriesAttachment.
  intros -> (fd & -> & H1 & H2). simpl.
  destruct (buildPayload_formValue fd) as [p ->]. simpl.
  exists p. f_equal. f_equal. apply attachmentOf_Some. auto.
Qed.

(** The requests the [try] block makes. *)
Lemma handlerTry_calls (fetch : telegramCall -> fetchOutcome) (env : Env)
    (request : Request) :
  snd (handlerTry fetch env request)
  = match readSubmission request with
    | Thrown _ => []
    | Ok (payload, Some file) => [tgSendDocument env file (formatMessage payload)]
    | Ok (payload, None) => [tgSendMessage env (formatMessage payload)]
    end.
Proof.
  unfold handlerTry.
  destruct (readSubmission request) as [[p [f|]]|e]; reflexivity.
Qed.

Lemma handler_post_calls (fetch : telegramCall -> fetchOutcome) (env : Env)
    (request : Request) :
  method request = js "POST" ->
  ~ missing (BOT_TOKEN env) -> ~ missing (CHAT_ID env) ->
  snd (handler fetch env request) = snd (handlerTry fetch env request).
Proof.
  intros Hm Hb Hc. rewrite (handler_post _ _ _ Hm Hb Hc). simpl.
  destruct (handlerTry fetch env request) as [[?|?] calls]; reflexivity.
Qed.

(** C8: a configured POST calls sendDocument exactly when the request is
    multipart and carries an attachment that is not empty; a submission
    that could be read makes one call, sendDocument with that file in this
    case and sendMessage in every other one. *)
Theorem handler_sends_document_iff_attachment
    (fetch : telegramCall -> fetchOutcome) (env : Env) (request : Request) :
  method request = js "POST" ->
  ~ missing (BOT_TOKEN env) -> ~ missing (CHAT_ID env) ->
  let calls := snd (handler fetch env request) in
  (existsb isSendDocument calls = true
   <-> isMultipart request /\ exists f, carriesAttachment request f)
  /\ (forall payload attachment,
        readSubmission request = Ok (payload, attachment) ->
        (forall f, isMultipart request -> carriesAttachment request f ->
                   calls = [tgSendDocument env f (formatMessage payload)])
        /\ (~ (isMultipart request /\ exists f, carriesAttachment request f) ->
            calls = [tgSendMessage env (formatMessage payload)])).
Proof.
  intros Hm Hb Hc calls. subst calls.
  rewrite (handler_post_calls _ _ _ Hm Hb Hc), handlerTry_calls.
  split.
  - split.
    + destruct (readSubmission request) as [[p [f|]]|e] eqn:Hread;
        simpl; try discriminate.
      intros _.
      destruct (proj1 (readSubmission_attachment _ _ _ Hread f) eq_refl).
      split; [assumption | by exists f].
    + intros [Hmp [f Hf]].
      destruct (readSubmission_carries _ _ Hmp Hf) as [p ->]. reflexivity.
  - intros payload attachment Hread. rewrite Hread. split.
    + intros f Hmp Hf.
      rewrite (proj2 (readSubmission_attachment _ _ _ Hread f) (conj Hmp Hf)).
      reflexivity.
    + intros Hno. destruct attachment as [f|]; [| reflexivity].
      exfalso. apply Hno.
      destruct (proj1 (readSubmission_attachment _ _ _ Hread f) eq_refl).
      split; [assumption | by exists f].
Qed.

Lemma handler_sends_document_iff_attachment_witness :
  existsb isSendDocument (snd (handler fetchOk sampleEnv attachmentRequest)) = true
  /\ snd (handler fetchOk sampleEnv longLangRequest)
     = [tgSendMessage sampleEnv
          (formatMessage {| type := []; lang := js "1234567890" ++ ELLIPSIS;
                            email := []; message := []; timestamp := [];
                            userAgent := [] |})].
Proof.
  assert (Hconf : ~ missing (BOT_TOKEN sampleEnv) /\ ~ missing (CHAT_ID sampleEnv))
    by (split; intros [H|H]; discriminate H).
  destruct Hconf as [Hb Hc].
  split.
  - apply (handler_sends_document_iff_attachment fetchOk sampleEnv
             attachmentRequest eq_refl Hb Hc).
    split; [vm_compute; reflexivity |].
    exists sampleFile. eexists. split; [reflexivity |].
    split; [vm_compute; reflexivity | discriminate].
  - refine (proj2 (proj2 (handler_sends_document_iff_attachment fetchOk sampleEnv
                            longLangRequest eq_refl Hb Hc) _ None _) _).
    + vm_compute. reflexivity.
    + intros [H _]. vm_compute in H. discriminate H.
Defined.

Lemma handler_post_response (fetch : telegramCall -> fetchOutcome) (env : Env)
    (request : Request) :
  method request = js "POST" ->
  ~ missing (BOT_TOKEN env) -> ~ missing (CHAT_ID env) ->
  let response := fst (handler fetch env request) in
  match fst (handlerTry fetch env request) with
  | Ok _ => status response = 200 /\ body response = JsonOk
  | Thrown e => status response = 500 /\ body response = JsonError (errorText e)
  end.
Proof.
  intros Hm Hb Hc. rewrite (handler_post _ _ _ Hm Hb Hc). simpl.
  destruct (handlerTry fetch env request) as [[?|e] calls]; simpl; auto.
Qed.

(** C7: the status and the JSON body of the answer.  Another method than
    GET, OPTIONS and POST: 405 and an error.  A POST without BOT_TOKEN or
    CHAT_ID: 500 and an error.  A configured POST: 200 and [{ok: true}]
    when the submission is read and the bot API answers with [ok]; 500 and
    the message of the error when reading the body throws, when [fetch]
    rejects, or when the bot API answers without [ok]. *)
Theorem handler_status_and_body
    (fetch : telegramCall -> fetchOutcome) (env : Env) (request : Request) :
  let response := fst (handler fetch env request) in
  (method request ∉ [js "GET"; js "OPTIONS"; js "POST"] ->
   status response = 405
   /\ body response = JsonError (js "Method not allowed"))
  /\ (method request = js "POST" ->
      missing (BOT_TOKEN env) \/ missing (CHAT_ID env) ->
      status response = 500
      /\ body response
         = JsonError (js "Server not configured (missing BOT_TOKEN/CHAT_ID)"))
  /\ (method request = js "POST" ->
      ~ missing (BOT_TOKEN env) -> ~ missing (CHAT_ID env) ->
      (forall e, isMultipart request /\ formData request = Thrown e
                 \/ ~ isMultipart request /\ jsonData request = Thrown e ->
                 status response = 500
                 /\ body response = JsonError (errorText e))
      /\ match readSubmission request with
         | Thrown e =>
             status response = 500 /\ body response = JsonError (errorText e)
         | Ok (payload, attachment) =>
             let text := formatMessage payload in
             let call := match attachment with
                         | Some file => tgSendDocument env file text
                         | None => tgSendMessage env text
                         end in
             let what := match attachment with
                         | Some _ => js "sendDocument"
                         | None => js "sendMessage"
                         end in
             match fetch call with
             | Responded true _ _ =>
                 status response = 200 /\ body response = JsonOk
             | Rejected e | Responded false _ (Thrown e) =>
                 status response = 500
                 /\ body response = JsonError (errorText e)
             | Responded false st (Ok t) =>
                 status response = 500
                 /\ body response
                    = JsonError (js "Telegram " ++ what ++ js " failed: "
                                 ++ numberToString st ++ js " " ++ t)
             end
         end).
Proof.
  intros response. split; [| split].
  - intros Hm. subst response. unfold handler.
    rewrite !bool_decide_eq_false_2; [simpl; auto | | |];
      intros E; apply Hm; rewrite E; set_solver.
  - intros Hm Hmiss. subst response. unfold handler. rewrite Hm.
    assert (negb (nonEmpty (default [] (BOT_TOKEN env)))
            || negb (nonEmpty (default [] (CHAT_ID env))) = true) as ->.
    { destruct Hmiss as [H|H]; apply nonEmpty_default in H; rewrite H;
        [reflexivity | apply orb_true_r]. }
    simpl. auto.
  - intros Hm Hb Hc.
    pose proof (handler_post_response fetch env request Hm Hb Hc) as H.
    fold response in H. cbv zeta in H.
    assert (Hread :
      match readSubmission request with
      | Thrown e =>
          status response = 500 /\ body response = JsonError (errorText e)
      | Ok (payload, attachment) =>
          match fetch (match attachment with
                       | Some file => tgSendDocument env file (formatMessage payload)
                       | None => tgSendMessage env (formatMessage payload)
                       end) with
          | Responded true _ _ =>
              status response = 200 /\ body response = JsonOk
          | Rejected e | Responded false _ (Thrown e) =>
              status response = 500 /\ body response = JsonError (errorText e)
          | Responded false st (Ok t) =>
              status response = 500
              /\ body response
                 = JsonError (js "Telegram "
                              ++ match attachment with
                                 | Some _ => js "sendDocument"
                                 | None => js "sendMessage"
                                 end
                              ++ js " failed: " ++ numberToString st ++ js " " ++ t)
          end
      end).
    { unfold handlerTry in H.
      destruct (readSubmission request) as [[p [f|]]|e]; simpl in H;
        [| | exact H].
      - destruct (fetch _) as [e|[|] st [t|e]]; simpl in H; exact H.
      - destruct (fetch _) as [e|[|] st [t|e]]; simpl in H; exact H. }
    split; [| exact Hread].
    intros e [[Hmp He]|[Hmp He]]; unfold readSubmission, isMultipart in *.
    + rewrite Hmp, He in Hread. exact Hread.
    + destruct (strIncludes _ _); [congruence |].
      rewrite He in Hread. exact Hread.
Qed.

Lemma handler_status_and_body_witness :
  (status (fst (handler fetchOk sampleEnv deleteRequest)) = 405
   /\ body (fst (handler fetchOk sampleEnv deleteRequest))
      = JsonError (js "Method not allowed"))
  /\ (status (fst (handler fetchOk
                     {| BOT_TOKEN := None; CHAT_ID := Some (js "42");
                        ALLOWED_ORIGIN := None; ALLOWED_ORIGINS := None |}
                     attachmentRequest)) = 500
      /\ body (fst (handler fetchOk
                      {| BOT_TOKEN := None; CHAT_ID := Some (js "42");
                         ALLOWED_ORIGIN := None; ALLOWED_ORIGINS := None |}
                      attachmentRequest))
         = JsonError (js "Server not configured (missing BOT_TOKEN/CHAT_ID)"))
  /\ (status (fst (handler fetchOk sampleEnv
                     malformedJsonRequest)) = 500
      /\ body (fst (handler fetchOk sampleEnv malformedJsonRequest))
         = JsonError (js "Unexpected end of JSON input")).
Proof.
  assert (Hconf : ~ missing (BOT_TOKEN sampleEnv) /\ ~ missing (CHAT_ID sampleEnv))
    by (split; intros [H|H]; discriminate H).
  destruct Hconf as [Hb Hc].
  split; [| split].
  - apply (proj1 (handler_status_and_body fetchOk sampleEnv deleteRequest)).
    apply (bool_decide_eq_false_1 _). vm_compute. reflexivity.
  - apply (proj1 (proj2 (handler_status_and_body fetchOk _ attachmentRequest))).
    + reflexivity.
    + left. left. reflexivity.
  - refine (proj1 (proj2 (proj2 (handler_status_and_body fetchOk sampleEnv
                                   malformedJsonRequest))
                     eq_refl Hb Hc) malformedJson _).
    right. split; [| reflexivity].
    unfold isMultipart. vm_compute. discriminate.
Defined.

(** The bot API answers 403 to sendDocument: 500, with the status and the
    text of that answer in the error. *)
Example handler_upstream_failure :
  status (fst (handler fetchForbidden sampleEnv attachmentRequest)) = 500
  /\ body (fst (handler fetchForbidden sampleEnv attachmentRequest))
     = JsonError (js "Telegram sendDocument failed: 403 Forbidden")
  /\ headers (fst (handler fetchForbidden sampleEnv attachmentRequest))
       !! js "Access-Control-Allow-Origin" = Some (js "*").
Proof. repeat split; vm_compute; reflexivity. Qed.

(* ===================================================================== *)
(** * Properties of ifet/lang.js: page translation *)
(* ===================================================================== *)

(* --------------------------------------------------------------------- *)
(** ** The text of a key *)
(* --------------------------------------------------------------------- *)

Lemma inherited_plain (platform : Platform) (name : jsstring) :
  name ∉ objectPrototypeNames -> inherited platform name = Undefined.
Proof.
  unfold objectPrototypeNames, inherited, includes. intros H.
  apply not_elem_of_cons in H as [H1 H2].
  by rewrite (bool_decide_eq_false_2 _ H1), (bool_decide_eq_false_2 _ H2).
Qed.


Lemma en_plain : js "en" ∉ objectPrototypeNames.
Proof. apply (bool_decide_eq_false_1 _). vm_compute. reflexivity. Qed.

(** No supported locale is the name of a property of
    [Object.prototype]. *)
Lemma supported_plain (L : jsstring) :
  L ∈ SUPPORTED_LOCALES -> L ∉ objectPrototypeNames.
Proof.
  intros HL.
  assert (Hall : Forall (fun L => L ∉ objectPrototypeNames) SUPPORTED_LOCALES).
  { repeat constructor;
      apply (bool_decide_eq_false_1 _); vm_compute; reflexivity. }
  rewrite Forall_forall in Hall. by apply Hall.
Qed.

(** With names that are not those of properties of [Object.prototype],
    only the entries the page has written are found. *)
Lemma entry_plain (platform : Platform) (translations : Translations)
    (lang key : jsstring) :
  key ∉ objectPrototypeNames -> lang ∉ objectPrototypeNames ->
  entry platform translations lang key
  = Ok match ownEntry translations lang key with
       | Some text => Str text
       | None => Undefined
       end.
Proof.
  intros Hkey Hlang. unfold entry, ownEntry, includes.
  destruct (translations !! lang) as [table|]; cbn [mbind option_bind].
  - destruct (table !! key); [reflexivity |]. by rewrite inherited_plain.
  - by rewrite (bool_decide_eq_false_2 _ Hlang).
Qed.

Lemma translate_plain (platform : Platform) (translations : Translations)
    (lang key : jsstring) :
  key ∉ objectPrototypeNames -> lang ∉ objectPrototypeNames ->
  translate platform translations lang key
  = Ok (Str (textOf translations lang key)).
Proof.
  intros Hkey Hlang. unfold translate, textOf.
  rewrite (entry_plain _ _ lang key Hkey Hlang).
  rewrite (entry_plain _ _ (js "en") key Hkey en_plain).
  cbn [mbind result_bind].
  destruct (ownEntry translations lang key) as [[|c r]|]; try reflexivity;
    by destruct (ownEntry translations (js "en") key) as [[|c' r']|].
Qed.

(** The text of a key is a string or an object, never [null] or
    [undefined]: every property of a DOM object takes it as [String()]
    makes it. *)
Lemma toDOMString_translate (platform : Platform) (translations : Translations)
    (lang key : jsstring) (text : jsvalue) :
  translate platform translations lang key = Ok text ->
  forall type, toDOMString type text = toString text.
Proof.
  unfold translate.
  destruct (entry platform translations lang key) as [a|err]; [| discriminate].
  cbn [mbind result_bind].
  destruct (toBoolean a) eqn:Ha.
  - intros [= <-] type. by destruct a, type.
  - destruct (entry platform translations (js "en") key) as [b|err];
      [| discriminate].
    cbn [mbind result_bind]. intros [= <-] type. unfold or.
    destruct (toBoolean b) eqn:Hb; [by destruct b, type | by destruct type].
Qed.



Lemma orElse_blank (a : option jsstring) (b : jsstring) :
  a = None \/ a = Some [] -> orElse a b = b.
Proof. intros [-> | ->]; reflexivity. Qed.






(* --------------------------------------------------------------------- *)
(** ** The walk over the marked elements *)
(* --------------------------------------------------------------------- *)

(** Induction on the document tree: the property holds for an element when
    it holds for the elements among its child nodes. *)
Lemma element_tree_ind (P : element -> Prop) :
  (forall ns n a v c,
      Forall (fun m => match m with ElementNode e => P e | _ => True end) c ->
      P (Element ns n a v c)) ->
  forall e, P e.
Proof.
  intros step. fix IH 1. intros [ns n a v c]. apply step.
  induction c as [|m c IHc]; constructor.
  - destruct m as [d|d|e]; [exact I | exact I | apply IH].
  - exact IHc.
Qed.

Lemma placeholder_not_key : js "placeholder" <> js "data-i18n".
Proof. intros H. vm_compute in H. discriminate H. Qed.

Lemma value_not_key : js "value" <> js "data-i18n".
Proof. intros H. vm_compute in H. discriminate H. Qed.

Lemma lang_not_key : js "lang" <> js "data-i18n".
Proof. intros H. vm_compute in H. discriminate H. Qed.

Lemma children_textContentNodes (text : jsstring) :
  children (textContentNodes text) = [].
Proof. destruct text; reflexivity. Qed.

(** Reduces an assignment that has been chosen. *)
Ltac assigned :=
  cbn [mbind result_bind setInputValue attributes value childNodes
       namespaceURI localName].

(** What an assignment keeps of the element. *)
Lemma assign_keeps (platform : Platform) (e e1 : element) (a : assignment) :
  assign platform e a = Ok e1 ->
  namespaceURI e1 = namespaceURI e
  /\ localName e1 = localName e
  /\ (forall name, name <> js "placeholder" -> name <> js "value" ->
                   attributes e1 !! name = attributes e !! name)
  /\ match a with
     | SetTextContent text =>
         exists s, toDOMString NullableDOMString text = Ok s
                   /\ childNodes e1 = textContentNodes s
                   /\ attributes e1 = attributes e /\ value e1 = value e
     | _ => childNodes e1 = childNodes e
     end.
Proof.
  destruct e as [ns n attrs v c]. unfold assign.
  destruct a as [text|text|text|].
  - destruct (isHTML (js "input") _ || isHTML (js "textarea") _).
    + destruct (toDOMString _ text) as [s|err]; [| discriminate].
      intros [= <-]. assigned. repeat split; try done.
      intros name H1 _. by rewrite lookup_insert_ne.
    + intros [= <-]. done.
  - destruct (isHTML (js "input") _).
    + destruct (toDOMString _ text) as [s|err]; [| discriminate]. assigned.
      destruct (valueModeOf (typeState attrs)).
      * intros [= <-]. done.
      * intros [= <-]. assigned. repeat split; try done.
        intros name _ H2. by rewrite lookup_insert_ne.
      * intros [= <-]. assigned. repeat split; try done.
        intros name _ H2. by rewrite lookup_insert_ne.
      * destruct s; [| discriminate]. intros [= <-]. done.
    + destruct (isHTML (js "textarea") _).
      * destruct (toDOMString _ text) as [s|err]; [| discriminate].
        intros [= <-]. done.
      * intros [= <-]. done.
  - destruct (toDOMString _ text) as [s|err]; [| discriminate].
    intros [= <-]. assigned. repeat split; try done. by exists s.
  - intros [= <-]. done.
Qed.

(** Names of attributes that differ. *)
Ltac distinct_names :=
  let H := fresh in intros H; vm_compute in H; discriminate H.

Lemma typeState_insert (a : gmap jsstring jsstring) (name x : jsstring) :
  name <> js "type" -> typeState (<[name := x]> a) = typeState a.
Proof. intros H. unfold typeState. by rewrite lookup_insert_ne. Qed.

(** The sanitization reads the type and the attributes listed for it. *)
Lemma sanitized_insert (platform : Platform) (a : gmap jsstring jsstring)
    (name x text : jsstring) :
  name ∉ js "type" :: js "multiple" :: sanitizationAttributes ->
  sanitized platform (<[name := x]> a) text = sanitized platform a text.
Proof.
  intros H. unfold sanitized.
  rewrite typeState_insert by (intros ->; apply H; left).
  rewrite (lookup_insert_ne a name (js "multiple"))
    by (intros ->; apply H; right; left).
  replace (map (fun name0 => <[name := x]> a !! name0) sanitizationAttributes)
    with (map (fun name0 => a !! name0) sanitizationAttributes);
    [reflexivity |].
  apply map_ext_in. intros name0 Hin. rewrite lookup_insert_ne; [reflexivity |].
  intros ->. apply H. right. right. by apply list_elem_of_In.
Qed.

Lemma lang_not_read :
  js "lang" ∉ js "type" :: js "multiple" :: sanitizationAttributes.
Proof. apply (bool_decide_eq_false_1 _). vm_compute. reflexivity. Qed.

Lemma isInputLike_same (kind : documentKind) (e e' : element) :
  namespaceURI e' = namespaceURI e -> localName e' = localName e ->
  isInputLike kind e' = isInputLike kind e.
Proof.
  intros Hns Hn. unfold isInputLike, tagName, isHTMLElement.
  by rewrite Hns, Hn.
Qed.

Lemma isHTML_same (name : jsstring) (e e' : element) :
  namespaceURI e' = namespaceURI e -> localName e' = localName e ->
  isHTML name e' = isHTML name e.
Proof. intros Hns Hn. unfold isHTML, isHTMLElement. by rewrite Hns, Hn. Qed.

(** The assignment the callback chooses depends on the element through
    its names, the presence of a [placeholder], its link key and the
    number of its element children. *)
Lemma translateElement_ext (platform : Platform) (translations : Translations)
    (lang : jsstring) (kind : documentKind) (key : jsstring) (e e' : element) :
  isInputLike kind e' = isInputLike kind e ->
  (attributes e' !! js "placeholder" = None
   <-> attributes e !! js "placeholder" = None) ->
  attributes e' !! js "data-i18n-link" = attributes e !! js "data-i18n-link" ->
  length (children (childNodes e')) = length (children (childNodes e)) ->
  translateElement platform translations lang kind key e'
  = translateElement platform translations lang kind key e.
Proof.
  intros Hin Hph Hlink Hlen. unfold translateElement.
  rewrite Hin, Hlink, Hlen.
  destruct (translate platform translations lang key) as [text|err];
    [| reflexivity].
  cbn [mbind result_bind].
  destruct (isInputLike kind e).
  - destruct (attributes e' !! js "placeholder") as [x|] eqn:H1,
             (attributes e !! js "placeholder") as [y|] eqn:H2;
      try reflexivity.
    + by pose proof (proj2 Hph eq_refl).
    + by pose proof (proj1 Hph eq_refl).
  - destruct (attributes e !! js "data-i18n-link"); [reflexivity |].
    destruct (length (children (childNodes e)) =? 0)%nat; [reflexivity |].
    by rewrite !andb_false_r.
Qed.

(** The callback assigns a placeholder only where there is one, and a
    value only where there is none. *)
Lemma translateElement_placeholder (platform : Platform)
    (translations : Translations) (lang : jsstring) (kind : documentKind)
    (key : jsstring) (e : element) (a : assignment) :
  translateElement platform translations lang kind key e = Ok a ->
  match a with
  | SetPlaceholder _ => is_Some (attributes e !! js "placeholder")
  | SetValue _ => attributes e !! js "placeholder" = None
  | _ => True
  end.
Proof.
  unfold translateElement.
  destruct (translate platform translations lang key) as [text|err];
    [| discriminate].
  cbn [mbind result_bind].
  destruct (isInputLike kind e).
  - destruct (attributes e !! js "placeholder") eqn:Hph; intros [= <-]; done.
  - destruct (attributes e !! js "data-i18n-link") as [linkKey|].
    + destruct (translate platform translations lang linkKey);
        [| discriminate].
      by intros [= <-].
    + destruct (length (children (childNodes e)) =? 0)%nat;
        [by intros [= <-] |].
      rewrite andb_false_r. by intros [= <-].
Qed.

(** What an assignment does to the [placeholder]. *)
Lemma assign_placeholder (platform : Platform) (e e1 : element)
    (a : assignment) :
  assign platform e a = Ok e1 ->
  match a with
  | SetPlaceholder _ =>
      is_Some (attributes e !! js "placeholder") ->
      is_Some (attributes e1 !! js "placeholder")
  | _ => attributes e1 !! js "placeholder" = attributes e !! js "placeholder"
  end.
Proof.
  destruct e as [ns n attrs v c]. unfold assign.
  destruct a as [text|text|text|].
  - destruct (isHTML (js "input") _ || isHTML (js "textarea") _).
    + destruct (toDOMString _ text) as [s|err]; [| discriminate].
      intros [= <-] _. assigned. rewrite lookup_insert_eq. by eexists.
    + by intros [= <-].
  - destruct (isHTML (js "input") _).
    + destruct (toDOMString _ text) as [s|err]; [| discriminate]. assigned.
      destruct (valueModeOf (typeState attrs)).
      * by intros [= <-].
      * intros [= <-]. assigned. rewrite lookup_insert_ne; [done | distinct_names].
      * intros [= <-]. assigned. rewrite lookup_insert_ne; [done | distinct_names].
      * destruct s; [| discriminate]. by intros [= <-].
    + destruct (isHTML (js "textarea") _).
      * destruct (toDOMString _ text) as [s|err]; [| discriminate].
        by intros [= <-].
      * by intros [= <-].
  - destruct (toDOMString _ text) as [s|err]; [| discriminate]. by intros [= <-].
  - by intros [= <-].
Qed.

(** An assignment that does not replace the child nodes, made again,
    changes nothing, whatever the child nodes have become. *)
Lemma assign_again (platform : Platform) (e e1 : element) (a : assignment)
    (c' : list node) :
  assign platform e a = Ok e1 ->
  match a with SetTextContent _ => False | _ => True end ->
  assign platform
         (Element (namespaceURI e1) (localName e1) (attributes e1) (value e1) c')
         a
  = Ok (Element (namespaceURI e1) (localName e1) (attributes e1) (value e1) c').
Proof.
  destruct e as [ns n attrs v c]. unfold assign.
  destruct a as [text|text|text|]; [| | done |].
  - destruct (isHTML (js "input") _ || isHTML (js "textarea") _) eqn:Hin.
    + destruct (toDOMString _ text) as [s|err] eqn:Hs; [| discriminate].
      intros [= <-] _. cbn [namespaceURI localName attributes value].
      unfold isHTML, isHTMLElement in *. cbn [namespaceURI localName] in *.
      rewrite Hin, ?Hs. assigned. by rewrite insert_insert_eq.
    + intros [= <-] _. cbn [namespaceURI localName attributes value].
      unfold isHTML, isHTMLElement in *. cbn [namespaceURI localName] in *.
      by rewrite Hin.
  - destruct (isHTML (js "input") _) eqn:Hin.
    + destruct (toDOMString _ text) as [s|err] eqn:Hs; [| discriminate]. assigned.
      destruct (valueModeOf (typeState attrs)) eqn:Hmode.
      * intros [= <-] _. cbn [namespaceURI localName attributes value].
        unfold isHTML, isHTMLElement in *. cbn [namespaceURI localName] in *.
        rewrite Hin, ?Hs. assigned. by rewrite Hmode.
      * intros [= <-] _. cbn [namespaceURI localName attributes value].
        unfold isHTML, isHTMLElement in *. cbn [namespaceURI localName] in *.
        rewrite Hin, ?Hs. assigned.
        rewrite typeState_insert by distinct_names.
        by rewrite Hmode, insert_insert_eq.
      * intros [= <-] _. cbn [namespaceURI localName attributes value].
        unfold isHTML, isHTMLElement in *. cbn [namespaceURI localName] in *.
        rewrite Hin, ?Hs. assigned.
        rewrite typeState_insert by distinct_names.
        by rewrite Hmode, insert_insert_eq.
      * destruct s; [| discriminate].
        intros [= <-] _. cbn [namespaceURI localName attributes value].
        unfold isHTML, isHTMLElement in *. cbn [namespaceURI localName] in *.
        rewrite Hin, ?Hs. assigned. by rewrite Hmode.
    + destruct (isHTML (js "textarea") _) eqn:Hta.
      * destruct (toDOMString _ text) as [s|err] eqn:Hs; [| discriminate].
        intros [= <-] _. cbn [namespaceURI localName attributes value].
        unfold isHTML, isHTMLElement in *. cbn [namespaceURI localName] in *.
        by rewrite Hin, Hta, ?Hs.
      * intros [= <-] _. cbn [namespaceURI localName attributes value].
        unfold isHTML, isHTMLElement in *. cbn [namespaceURI localName] in *.
        by rewrite Hin, Hta.
  - by intros [= <-] _.
Qed.

Section Walk.

Variables (platform : Platform) (translations : Translations)
          (lang : jsstring) (kind : documentKind).

Local Abbreviation callback := (forEachCallback platform translations lang kind).
Local Abbreviation walk := (forEachMarked platform translations lang kind).
Local Abbreviation walkBelow := (forEachMarkedBelow platform translations lang kind).

Lemma forEachMarked_unfold (ns : option jsstring) (n : jsstring)
    (a : gmap jsstring jsstring) (v : jsstring) (c : list node) :
  walk (Element ns n a v c)
  = match a !! js "data-i18n" with
    | None => let '(c', thrown) := walkBelow c in (Element ns n a v c', thrown)
    | Some key =>
        match translateElement platform translations lang kind key
                               (Element ns n a v c) with
        | Thrown err => (Element ns n a v c, Some err)
        | Ok asg =>
            match assign platform (Element ns n a v c) asg with
            | Thrown err => (Element ns n a v c, Some err)
            | Ok (Element ns' n' a' v' c1) =>
                match asg with
                | SetTextContent _ =>
                    (Element ns' n' a' v' c1, firstThrowBelow callback c)
                | _ =>
                    let '(c', thrown) := walkBelow c in
                    (Element ns' n' a' v' c', thrown)
                end
            end
        end
    end.
Proof. reflexivity. Qed.

Lemma firstThrow_unfold (f : element -> result element)
    (ns : option jsstring) (n : jsstring)
    (a : gmap jsstring jsstring) (v : jsstring) (c : list node) :
  firstThrow f (Element ns n a v c)
  = match f (Element ns n a v c) with
    | Thrown err => Some err
    | Ok _ => firstThrowBelow f c
    end.
Proof. reflexivity. Qed.

Lemma querySelectorAll_unfold (ns : option jsstring) (n : jsstring)
    (a : gmap jsstring jsstring) (v : jsstring) (c : list node) :
  querySelectorAll (Element ns n a v c)
  = match a !! js "data-i18n" with
    | Some _ => [[]]
    | None => []
    end ++ selectedBelow 0 c.
Proof. reflexivity. Qed.

(** The walk in terms of the callback: the element the callback leaves,
    with its child nodes walked unless the callback has replaced them. *)
Lemma forEachMarked_callback (ns : option jsstring) (n : jsstring)
    (a : gmap jsstring jsstring) (v : jsstring) (c : list node) :
  match callback (Element ns n a v c) with
  | Thrown err => walk (Element ns n a v c) = (Element ns n a v c, Some err)
  | Ok e1 =>
      if overwritten platform translations lang kind (Element ns n a v c)
      then walk (Element ns n a v c) = (e1, firstThrowBelow callback c)
           /\ children (childNodes e1) = []
      else childNodes e1 = c
           /\ walk (Element ns n a v c)
              = (Element (namespaceURI e1) (localName e1) (attributes e1)
                         (value e1) (walkBelow c).1,
                 (walkBelow c).2)
  end.
Proof.
  rewrite forEachMarked_unfold. unfold forEachCallback, overwritten.
  cbn [attributes].
  destruct (a !! js "data-i18n") as [key|].
  2: { split; [reflexivity |]. cbn. by destruct (walkBelow c). }
  destruct (translateElement platform translations lang kind key
                             (Element ns n a v c)) as [asg|err];
    [| reflexivity].
  cbn [mbind result_bind].
  destruct (assign platform (Element ns n a v c) asg) as [e1|err] eqn:He1.
  2: { reflexivity. }
  pose proof (assign_keeps _ _ _ _ He1) as (_ & _ & _ & Hc).
  destruct e1 as [ns' n' a' v' c1]. cbn [childNodes] in Hc.
  destruct asg as [text|text|text|].
  - split; [exact Hc |]. cbn. by destruct (walkBelow c).
  - split; [exact Hc |]. cbn. by destruct (walkBelow c).
  - destruct Hc as (s & -> & -> & _).
    split; [reflexivity | apply children_textContentNodes].
  - split; [exact Hc |]. cbn. by destruct (walkBelow c).
Qed.

(* --------------------------------------------------------------------- *)
(** *** The list of selected elements and the walk *)
(* --------------------------------------------------------------------- *)

Local Abbreviation step := (forEachStep callback).
Local Abbreviation thrownBy original :=
  (fun (t : option jsError) place =>
     match t with Some _ => t | None => thrownAt callback original place end).

Lemma fold_left_thrown (original d : element) (err : jsError)
    (places : list (list nat)) :
  fold_left (step original) places (d, Some err) = (d, Some err).
Proof. induction places as [|p places IH]; [reflexivity | exact IH]. Qed.

Lemma thrownBy_thrown (original : element) (err : jsError)
    (places : list (list nat)) :
  fold_left (thrownBy original) places (Some err) = Some err.
Proof. induction places as [|p places IH]; [reflexivity | exact IH]. Qed.

Lemma subtree_middle (ns : option jsstring) (n : jsstring)
    (a : gmap jsstring jsstring) (v : jsstring) (pre post : list node)
    (x : element) (p : list nat) :
  subtree (Element ns n a v (pre ++ ElementNode x :: post)) (length pre :: p)
  = subtree x p.
Proof.
  cbn [subtree childNodes].
  by rewrite (list_lookup_middle pre post _ _ eq_refl).
Qed.

Lemma updateAt_middle (f : element -> element) (ns : option jsstring)
    (n : jsstring) (a : gmap jsstring jsstring) (v : jsstring)
    (pre post : list node) (x : element) (p : list nat) :
  updateAt (length pre :: p) f (Element ns n a v (pre ++ ElementNode x :: post))
  = Element ns n a v (pre ++ ElementNode (updateAt p f x) :: post).
Proof.
  cbn [updateAt]. rewrite (list_lookup_middle pre post _ _ eq_refl).
  f_equal. replace (length pre) with (length pre + 0)%nat by lia.
  by rewrite insert_app_r.
Qed.

(** A turn on an element below a child is a turn in that child. *)
Lemma forEachStep_child (ns ns0 : option jsstring) (n n0 : jsstring)
    (a a0 : gmap jsstring jsstring) (v v0 : jsstring)
    (pre post pre0 post0 : list node) (x x0 : element)
    (t : option jsError) (p : list nat) :
  length pre0 = length pre ->
  step (Element ns0 n0 a0 v0 (pre0 ++ ElementNode x0 :: post0))
       (Element ns n a v (pre ++ ElementNode x :: post), t) (length pre :: p)
  = (Element ns n a v (pre ++ ElementNode (step x0 (x, t) p).1 :: post),
     (step x0 (x, t) p).2).
Proof.
  intros Hlen. unfold forEachStep. destruct t as [err|]; [reflexivity |].
  rewrite subtree_middle.
  destruct (subtree x p) as [y|].
  - destruct (callback y) as [y'|err]; [| reflexivity].
    by rewrite updateAt_middle.
  - unfold thrownAt. by rewrite <- Hlen, subtree_middle.
Qed.

(** The callbacks on the selected elements of one child change that child
    only. *)
Lemma fold_left_child (ns ns0 : option jsstring) (n n0 : jsstring)
    (a a0 : gmap jsstring jsstring) (v v0 : jsstring)
    (pre post pre0 post0 : list node) (x0 : element)
    (places : list (list nat)) (x : element) (t : option jsError) :
  length pre0 = length pre ->
  fold_left (step (Element ns0 n0 a0 v0 (pre0 ++ ElementNode x0 :: post0)))
            (map (cons (length pre)) places)
            (Element ns n a v (pre ++ ElementNode x :: post), t)
  = (Element ns n a v
       (pre ++ ElementNode (fold_left (step x0) places (x, t)).1 :: post),
     (fold_left (step x0) places (x, t)).2).
Proof.
  intros Hlen. revert x t.
  induction places as [|p places IH]; intros x t; [reflexivity |].
  cbn [map fold_left]. rewrite (forEachStep_child _ _ _ _ _ _ _ _ _ _ _ _ _ _ _ _ Hlen).
  rewrite IH. by destruct (step x0 (x, t) p).
Qed.

(** Below an element without element children there is nothing to
    change: only the exceptions are seen. *)
Lemma fold_left_detached (original d : element) (places : list (list nat))
    (t : option jsError) :
  children (childNodes d) = [] ->
  Forall (fun place => place <> []) places ->
  fold_left (step original) places (d, t)
  = (d, fold_left (thrownBy original) places t).
Proof.
  intros Hc Hplaces. revert t.
  induction Hplaces as [|[|i p] places Hp _ IH]; intros t;
    [reflexivity | done |].
  cbn [fold_left]. rewrite <- IH. f_equal.
  destruct t as [err|]; [reflexivity |].
  unfold forEachStep. cbn [subtree].
  destruct (childNodes d !! i) as [[data|data|e]|] eqn:Hi; try reflexivity.
  exfalso. apply list_elem_of_lookup_2 in Hi.
  assert (Hin : ElementNode e ∈ children (childNodes d)).
  { unfold children. apply list_elem_of_In, filter_In.
    split; [by apply list_elem_of_In | reflexivity]. }
  rewrite Hc in Hin. by apply elem_of_nil in Hin.
Qed.

Lemma selectedBelow_not_root (i : nat) (c : list node) :
  Forall (fun place => place <> []) (selectedBelow i c).
Proof.
  revert i. induction c as [|m c IH]; intros i; [constructor |].
  cbn [selectedBelow]. apply Forall_app. split; [| apply IH].
  destruct m as [d|d|e]; [constructor | constructor |].
  apply Forall_forall. intros place Hin.
  apply list_elem_of_In, in_map_iff in Hin as (p & <- & _). discriminate.
Qed.

Lemma thrownBy_child (ns0 : option jsstring) (n0 : jsstring)
    (a0 : gmap jsstring jsstring) (v0 : jsstring)
    (pre0 post0 : list node) (x0 : element)
    (places : list (list nat)) (t : option jsError) :
  fold_left (thrownBy (Element ns0 n0 a0 v0 (pre0 ++ ElementNode x0 :: post0)))
            (map (cons (length pre0)) places) t
  = fold_left (thrownBy x0) places t.
Proof.
  revert t. induction places as [|p places IH]; intros t; [reflexivity |].
  cbn [map fold_left]. rewrite IH. f_equal.
  destruct t as [err|]; [reflexivity |].
  unfold thrownAt. by rewrite subtree_middle.
Qed.

Lemma firstThrowBelow_cons (f : element -> result element) (m : node)
    (c : list node) :
  firstThrowBelow f (m :: c)
  = match m with
    | ElementNode e =>
        match firstThrow f e with
        | Some err => Some err
        | None => firstThrowBelow f c
        end
    | _ => firstThrowBelow f c
    end.
Proof. by destruct m. Qed.

Lemma thrownBy_below (ns0 : option jsstring) (n0 : jsstring)
    (a0 : gmap jsstring jsstring) (v0 : jsstring) (c pre0 : list node)
    (t : option jsError) :
  Forall (fun m => match m with
                   | ElementNode e =>
                       fold_left (thrownBy e) (querySelectorAll e) None
                       = firstThrow callback e
                   | _ => True
                   end) c ->
  fold_left (thrownBy (Element ns0 n0 a0 v0 (pre0 ++ c)))
            (selectedBelow (length pre0) c) t
  = match t with Some _ => t | None => firstThrowBelow callback c end.
Proof.
  intros IH. revert pre0 t.
  induction IH as [|m c Hm _ IHc]; intros pre0 t.
  { by destruct t. }
  cbn [selectedBelow]. rewrite fold_left_app.
  set (t' := fold_left _ match m with
                         | ElementNode e' =>
                             map (cons (length pre0)) (querySelectorAll e')
                         | _ => []
                         end t).
  replace (Element ns0 n0 a0 v0 (pre0 ++ m :: c))
    with (Element ns0 n0 a0 v0 ((pre0 ++ [m]) ++ c))
    by (by rewrite <- app_assoc).
  replace (S (length pre0)) with (length (pre0 ++ [m]))
    by (rewrite length_app; simpl; lia).
  rewrite IHc. subst t'.
  rewrite firstThrowBelow_cons.
  destruct m as [d|d|e]; cbn [fold_left]; try reflexivity.
  rewrite thrownBy_child.
  destruct t as [err|]; [by rewrite thrownBy_thrown |].
  rewrite Hm. by destruct (firstThrow callback e).
Qed.

(** The exceptions of the callbacks over the list of the selected elements
    are those of the tree, in order. *)
Lemma thrownBy_tree (e : element) :
  fold_left (thrownBy e) (querySelectorAll e) None = firstThrow callback e.
Proof.
  induction e as [ns n a v c IH] using element_tree_ind.
  rewrite querySelectorAll_unfold, firstThrow_unfold.
  pose proof (thrownBy_below ns n a v c [] None IH) as Hbelow.
  cbn [app length] in Hbelow.
  unfold forEachCallback at 2. cbn [attributes].
  destruct (a !! js "data-i18n") as [key|] eqn:Hkey; [| exact Hbelow].
  cbn [app fold_left]. unfold thrownAt at 2. cbn [subtree fmap option_fmap option_map].
  unfold forEachCallback at 2. cbn [attributes]. rewrite Hkey.
  destruct (translateElement platform translations lang kind key
                             (Element ns n a v c) ≫= assign platform (Element ns n a v c))
    as [e1|err].
  - exact Hbelow.
  - apply thrownBy_thrown.
Qed.

(** The callbacks on what is selected below the child nodes walk each
    child, up to the first exception. *)
Lemma fold_left_below (ns ns0 : option jsstring) (n n0 : jsstring)
    (a a0 : gmap jsstring jsstring) (v v0 : jsstring) (c pre pre0 : list node)
    (t : option jsError) :
  Forall (fun m => match m with
                   | ElementNode e =>
                       fold_left (step e) (querySelectorAll e) (e, None) = walk e
                   | _ => True
                   end) c ->
  length pre0 = length pre ->
  fold_left (step (Element ns0 n0 a0 v0 (pre0 ++ c)))
            (selectedBelow (length pre) c) (Element ns n a v (pre ++ c), t)
  = (Element ns n a v
       (pre ++ (forEachMarkedNodes platform translations lang kind t c).1),
     (forEachMarkedNodes platform translations lang kind t c).2).
Proof.
  intros IH. revert pre pre0 t.
  induction IH as [|m c Hm _ IHc]; intros pre pre0 t Hlen.
  { by destruct t. }
  cbn [selectedBelow]. rewrite fold_left_app.
  destruct t as [err|].
  { by rewrite !fold_left_thrown. }
  assert (Hnext : length (pre0 ++ [m]) = length (pre ++ [m]))
    by (rewrite !length_app; simpl; lia).
  destruct m as [d|d|e]; cbn [fold_left].
  - replace (pre0 ++ TextNode d :: c) with ((pre0 ++ [TextNode d]) ++ c)
      by (by rewrite <- app_assoc).
    replace (pre ++ TextNode d :: c) with ((pre ++ [TextNode d]) ++ c)
      by (by rewrite <- app_assoc).
    replace (S (length pre)) with (length (pre ++ [TextNode d]))
      by (rewrite length_app; simpl; lia).
    rewrite (IHc _ _ None Hnext). cbn [forEachMarkedNodes forEachMarkedBelow].
    rewrite <- app_assoc. cbn [app].
    by destruct (forEachMarkedBelow platform translations lang kind c).
  - replace (pre0 ++ CommentNode d :: c) with ((pre0 ++ [CommentNode d]) ++ c)
      by (by rewrite <- app_assoc).
    replace (pre ++ CommentNode d :: c) with ((pre ++ [CommentNode d]) ++ c)
      by (by rewrite <- app_assoc).
    replace (S (length pre)) with (length (pre ++ [CommentNode d]))
      by (rewrite length_app; simpl; lia).
    rewrite (IHc _ _ None Hnext). cbn [forEachMarkedNodes forEachMarkedBelow].
    rewrite <- app_assoc. cbn [app].
    by destruct (forEachMarkedBelow platform translations lang kind c).
  - rewrite (fold_left_child _ _ _ _ _ _ _ _ _ _ _ _ _ _ _ _ Hlen), Hm.
    cbn [forEachMarkedNodes forEachMarkedBelow].
    destruct (walk e) as [e' [err|]]; cbn [fst snd].
    + by rewrite fold_left_thrown.
    + replace (pre0 ++ ElementNode e :: c) with ((pre0 ++ [ElementNode e]) ++ c)
        by (by rewrite <- app_assoc).
      replace (pre ++ ElementNode e' :: c) with ((pre ++ [ElementNode e']) ++ c)
        by (by rewrite <- app_assoc).
      replace (S (length pre)) with (length (pre ++ [ElementNode e']))
        by (rewrite length_app; simpl; lia).
      rewrite (IHc (pre ++ [ElementNode e']) (pre0 ++ [ElementNode e]) None)
        by (rewrite !length_app; simpl; lia).
      cbn [forEachMarkedNodes]. rewrite <- app_assoc. cbn [app].
      by destruct (forEachMarkedBelow platform translations lang kind c).
Qed.

(** [forEach] over the list of the selected elements is the walk. *)
Lemma forEachSelected_walk (e : element) :
  forEachSelected platform translations lang kind e = walk e.
Proof.
  induction e as [ns n a v c IH] using element_tree_ind.
  unfold forEachSelected. rewrite querySelectorAll_unfold.
  pose proof (forEachMarked_callback ns n a v c) as Hwalk.
  unfold forEachCallback in Hwalk at 1. unfold overwritten in Hwalk.
  cbn [attributes] in Hwalk.
  destruct (a !! js "data-i18n") as [key|] eqn:Hkey.
  2: { destruct Hwalk as [_ ->].
       exact (fold_left_below ns ns n n a a v v c [] [] None IH eq_refl). }
  cbn [app fold_left]. unfold forEachStep at 2. cbn [subtree updateAt].
  unfold forEachCallback at 2. cbn [attributes]. rewrite Hkey.
  destruct (translateElement platform translations lang kind key
                             (Element ns n a v c)) as [asg|err];
    cbn [mbind result_bind] in *.
  2: { rewrite Hwalk. apply fold_left_thrown. }
  destruct (assign platform (Element ns n a v c) asg) as [e1|err].
  2: { rewrite Hwalk. apply fold_left_thrown. }
  assert (Hcases :
    (walk (Element ns n a v c) = (e1, firstThrowBelow callback c)
     /\ children (childNodes e1) = [])
    \/ (childNodes e1 = c
        /\ walk (Element ns n a v c)
           = (Element (namespaceURI e1) (localName e1) (attributes e1)
                      (value e1) (walkBelow c).1, (walkBelow c).2))).
  { destruct asg as [text|text|text|]; try (by right).
    destruct (toDOMString _ text); [by left | by right]. }
  destruct Hcases as [[-> Hnone] | [Hc ->]].
  - rewrite fold_left_detached by (exact Hnone || apply selectedBelow_not_root).
    f_equal. apply (thrownBy_below ns n a v c [] None).
    apply Forall_forall. intros [d|d|x] _; [exact I | exact I |].
    apply thrownBy_tree.
  - destruct e1 as [ns1 n1 a1 v1 c1]. cbn [childNodes] in Hc. subst c1.
    exact (fold_left_below ns1 ns n1 n a1 a v1 v c [] [] None IH eq_refl).
Qed.


(* --------------------------------------------------------------------- *)
(** *** The callback on what it has left *)
(* --------------------------------------------------------------------- *)

Lemma callback_key (e e1 : element) :
  callback e = Ok e1 ->
  attributes e1 !! js "data-i18n" = attributes e !! js "data-i18n".
Proof.
  unfold forEachCallback.
  destruct (attributes e !! js "data-i18n") as [key|] eqn:Hkey.
  - destruct (translateElement platform translations lang kind key e)
      as [asg|err]; [| discriminate].
    cbn [mbind result_bind]. intros Hassign.
    destruct (assign_keeps _ _ _ _ Hassign) as (_ & _ & Hattr & _).
    rewrite Hattr; [exact Hkey | distinct_names | distinct_names].
  - by intros [= <-].
Qed.

Lemma callback_names (e e1 : element) :
  callback e = Ok e1 ->
  namespaceURI e1 = namespaceURI e /\ localName e1 = localName e.
Proof.
  unfold forEachCallback.
  destruct (attributes e !! js "data-i18n") as [key|].
  - destruct (translateElement platform translations lang kind key e)
      as [asg|err]; [| discriminate].
    cbn [mbind result_bind]. intros Hassign.
    by destruct (assign_keeps _ _ _ _ Hassign) as (? & ? & _).
  - by intros [= <-].
Qed.

(** Where the callback has not replaced the child nodes, the callback on
    what it has left, whatever its child nodes have become, changes
    nothing. *)
Lemma callback_again (e e1 : element) (c' : list node) :
  callback e = Ok e1 ->
  overwritten platform translations lang kind e = false ->
  length (children c') = length (children (childNodes e)) ->
  callback (Element (namespaceURI e1) (localName e1) (attributes e1)
                    (value e1) c')
  = Ok (Element (namespaceURI e1) (localName e1) (attributes e1) (value e1) c')
  /\ overwritten platform translations lang kind
                 (Element (namespaceURI e1) (localName e1) (attributes e1)
                          (value e1) c') = false.
Proof.
  intros Hcb Hover Hlen.
  pose proof (callback_key _ _ Hcb) as Hkey.
  unfold forEachCallback, overwritten in *. cbn [attributes]. rewrite Hkey.
  destruct (attributes e !! js "data-i18n") as [key|]; [| done].
  destruct (translateElement platform translations lang kind key e)
    as [asg|err] eqn:Hte; [| discriminate].
  cbn [mbind result_bind] in Hcb.
  pose proof (assign_keeps _ _ _ _ Hcb) as (Hns & Hn & Hattr & Hc).
  pose proof (translateElement_placeholder _ _ _ _ _ _ _ Hte) as Hph.
  pose proof (assign_placeholder _ _ _ _ Hcb) as Hph1.
  assert (Hnot : match asg with SetTextContent _ => False | _ => True end).
  { destruct asg as [text|text|text|]; try done.
    destruct Hc as (s & Hs & _). rewrite Hs in Hover. discriminate. }
  rewrite (translateElement_ext _ _ _ _ key e).
  - rewrite Hte. cbn [mbind result_bind].
    rewrite (assign_again _ _ _ _ _ Hcb Hnot).
    split; [reflexivity |]. by destruct asg.
  - by apply isInputLike_same.
  - cbn [attributes].
    destruct asg as [text|text|text|]; try (by rewrite Hph1).
    destruct Hph as [x Hx], (Hph1 (ex_intro _ x Hx)) as [y Hy].
    rewrite Hx, Hy. split; discriminate.
  - cbn [attributes]. apply Hattr; distinct_names.
  - exact Hlen.
Qed.

(** Where the callback assigns [textContent], it does so whatever the
    child nodes are. *)
Lemma translateElement_text (key : jsstring) (e e' : element) (text : jsvalue) :
  translateElement platform translations lang kind key e
  = Ok (SetTextContent text) ->
  isInputLike kind e' = isInputLike kind e ->
  attributes e' !! js "data-i18n-link" = attributes e !! js "data-i18n-link" ->
  children (childNodes e') = [] ->
  translateElement platform translations lang kind key e'
  = Ok (SetTextContent text).
Proof.
  unfold translateElement. intros H Hin Hlink Hc. rewrite Hin, Hlink, Hc.
  destruct (translate platform translations lang key) as [t|err];
    [| discriminate].
  cbn [mbind result_bind] in *.
  destruct (isInputLike kind e).
  { by destruct (attributes e !! js "placeholder"). }
  destruct (attributes e !! js "data-i18n-link") as [linkKey|]; [exact H |].
  destruct (length (children (childNodes e)) =? 0)%nat; [exact H |].
  rewrite andb_false_r in H. discriminate H.
Qed.

Lemma callback_again_text (e e1 : element) :
  callback e = Ok e1 ->
  overwritten platform translations lang kind e = true ->
  callback e1 = Ok e1
  /\ overwritten platform translations lang kind e1 = true.
Proof.
  intros Hcb Hover.
  pose proof (callback_key _ _ Hcb) as Hkey.
  unfold forEachCallback, overwritten in *. rewrite Hkey.
  destruct (attributes e !! js "data-i18n") as [key|]; [| discriminate].
  destruct (translateElement platform translations lang kind key e)
    as [asg|err] eqn:Hte; [| discriminate].
  destruct asg as [text|text|text|]; try discriminate.
  cbn [mbind result_bind] in Hcb.
  pose proof (assign_keeps _ _ _ _ Hcb) as (Hns & Hn & Hattr & s & Hs & Hc & Ha & Hv).
  rewrite (translateElement_text key e e1 text Hte).
  - cbn [mbind result_bind]. rewrite Hs. split; [| reflexivity].
    destruct e1 as [ns1 n1 a1 v1 c1]. cbn [childNodes] in Hc. subst c1.
    unfold assign. by rewrite Hs.
  - by apply isInputLike_same.
  - by rewrite Ha.
  - rewrite Hc. apply children_textContentNodes.
Qed.

(* --------------------------------------------------------------------- *)
(** *** Walking twice *)
(* --------------------------------------------------------------------- *)

Lemma forEachMarkedBelow_cons (m : node) (c : list node) :
  walkBelow (m :: c)
  = match m with
    | ElementNode x =>
        match walk x with
        | (x', Some err) => (ElementNode x' :: c, Some err)
        | (x', None) =>
            let '(r', thrown) := walkBelow c in (ElementNode x' :: r', thrown)
        end
    | _ => let '(r', thrown) := walkBelow c in (m :: r', thrown)
    end.
Proof. by destruct m. Qed.

Lemma children_walk (c : list node) :
  length (children (walkBelow c).1) = length (children c).
Proof.
  induction c as [|m c IH]; [reflexivity |].
  rewrite forEachMarkedBelow_cons. unfold children in *.
  destruct m as [d|d|x].
  - destruct (walkBelow c). exact IH.
  - destruct (walkBelow c). exact IH.
  - destruct (walk x) as [x' [err|]]; [reflexivity |].
    destruct (walkBelow c). cbn [fst List.filter isElementNode length] in *.
    by rewrite IH.
Qed.

Lemma firstThrowBelow_no_children (f : element -> result element)
    (c : list node) :
  children c = [] -> firstThrowBelow f c = None.
Proof.
  unfold children. induction c as [|m c IH]; [reflexivity |].
  rewrite firstThrowBelow_cons. destruct m as [d|d|x]; cbn; try exact IH.
  discriminate.
Qed.

Lemma walkBelow_idempotent (c : list node) :
  Forall (fun m => match m with
                   | ElementNode e =>
                       quietWhenDetached platform translations lang kind e = true ->
                       walk (walk e).1 = walk e
                   | _ => True
                   end) c ->
  forallb (fun m => match m with
                    | ElementNode e' =>
                        quietWhenDetached platform translations lang kind e'
                    | _ => true
                    end) c = true ->
  walkBelow (walkBelow c).1 = walkBelow c.
Proof.
  induction 1 as [|m c Hm _ IH]; [reflexivity |].
  cbn [forallb]. intros Hq. apply andb_prop in Hq as [Hqm Hq].
  specialize (IH Hq). rewrite (forEachMarkedBelow_cons m c).
  destruct m as [d|d|x].
  - destruct (walkBelow c) as [r' t] eqn:Hr. cbn [fst] in *.
    rewrite forEachMarkedBelow_cons. by rewrite IH.
  - destruct (walkBelow c) as [r' t] eqn:Hr. cbn [fst] in *.
    rewrite forEachMarkedBelow_cons. by rewrite IH.
  - specialize (Hm Hqm).
    destruct (walk x) as [x' [err|]] eqn:Hx; cbn [fst] in *.
    + rewrite forEachMarkedBelow_cons. by rewrite Hm.
    + destruct (walkBelow c) as [r' t] eqn:Hr. cbn [fst] in *.
      rewrite forEachMarkedBelow_cons. by rewrite Hm, IH.
Qed.

(** Walking a second time changes nothing, when no exception has come
    from an element taken out of the document. *)
Lemma forEachMarked_idempotent (e : element) :
  quietWhenDetached platform translations lang kind e = true ->
  walk (walk e).1 = walk e.
Proof.
  induction e as [ns n a v c IH] using element_tree_ind.
  cbn [quietWhenDetached]. intros Hquiet.
  pose proof (forEachMarked_callback ns n a v c) as Hwalk.
  destruct (callback (Element ns n a v c)) as [e1|err] eqn:Hcb.
  2: { rewrite Hwalk. cbn [fst]. exact Hwalk. }
  destruct (overwritten platform translations lang kind (Element ns n a v c))
    eqn:Hover.
  - destruct Hwalk as [Hwalk Hnone]. rewrite Hwalk. cbn [fst].
    destruct (firstThrowBelow callback c); [discriminate |].
    destruct (callback_again_text _ _ Hcb Hover) as [Hcb1 Hover1].
    destruct e1 as [ns1 n1 a1 v1 c1].
    pose proof (forEachMarked_callback ns1 n1 a1 v1 c1) as Hwalk1.
    rewrite Hcb1, Hover1 in Hwalk1. destruct Hwalk1 as [-> _].
    by rewrite (firstThrowBelow_no_children _ _ Hnone).
  - destruct Hwalk as [Hc Hwalk]. rewrite Hwalk. cbn [fst].
    destruct (callback_again _ _ (walkBelow c).1 Hcb Hover (children_walk c))
      as [Hcb1 Hover1].
    pose proof (forEachMarked_callback (namespaceURI e1) (localName e1)
                  (attributes e1) (value e1) (walkBelow c).1) as Hwalk1.
    rewrite Hcb1, Hover1 in Hwalk1. destruct Hwalk1 as [_ ->].
    cbn [namespaceURI localName attributes value].
    by rewrite (walkBelow_idempotent c IH Hquiet).
Qed.


(** A walk without exception has taken no exception from what it took out
    of the document. *)
Lemma quietWhenDetached_normal (e : element) :
  (walk e).2 = None ->
  quietWhenDetached platform translations lang kind e = true.
Proof.
  induction e as [ns n a v c IH] using element_tree_ind.
  cbn [quietWhenDetached].
  pose proof (forEachMarked_callback ns n a v c) as Hwalk.
  destruct (callback (Element ns n a v c)) as [e1|err];
    [| by rewrite Hwalk].
  destruct (overwritten platform translations lang kind (Element ns n a v c)).
  { destruct Hwalk as [-> _]. cbn [snd]. by intros ->. }
  destruct Hwalk as [_ ->]. cbn [snd]. clear e1.
  induction IH as [|m c Hm _ IHc]; [reflexivity |].
  rewrite forEachMarkedBelow_cons. cbn [forallb].
  destruct m as [d|d|x].
  - destruct (walkBelow c). exact IHc.
  - destruct (walkBelow c). exact IHc.
  - destruct (walk x) as [x' [err|]]; [discriminate |].
    destruct (walkBelow c). cbn [snd] in *. intros Ht.
    by rewrite (Hm eq_refl), (IHc Ht).
Qed.

(* --------------------------------------------------------------------- *)
(** *** The [lang] attribute of the root *)
(* --------------------------------------------------------------------- *)

Lemma setLang_html (ns : option jsstring) (n : jsstring)
    (a : gmap jsstring jsstring) (v : jsstring) (c : list node) (l : jsstring) :
  isHTMLElement (Element ns n a v c) = true ->
  setLang (Element ns n a v c) l = Element ns n (<[js "lang" := l]> a) v c.
Proof. unfold setLang. by intros ->. Qed.

Lemma setLang_other (e : element) (l : jsstring) :
  isHTMLElement e = false -> setLang e l = e.
Proof. destruct e. unfold setLang. by intros ->. Qed.

(** The assignments do not read the [lang] attribute. *)
Lemma assign_setLang (ns : option jsstring) (n : jsstring)
    (a : gmap jsstring jsstring) (v : jsstring) (c : list node)
    (l : jsstring) (asg : assignment) :
  isHTMLElement (Element ns n a v c) = true ->
  assign platform (Element ns n (<[js "lang" := l]> a) v c) asg
  = match assign platform (Element ns n a v c) asg with
    | Ok e1 => Ok (setLang e1 l)
    | Thrown err => Thrown err
    end.
Proof.
  intros Hhtml.
  assert (Hset : forall a' v' c', setLang (Element ns n a' v' c') l
                                  = Element ns n (<[js "lang" := l]> a') v' c').
  { intros a' v' c'. by apply setLang_html. }
  unfold assign, isHTML, isHTMLElement in *. cbn [namespaceURI localName] in *.
  destruct asg as [text|text|text|].
  - destruct (_ || _).
    + destruct (toDOMString _ text) as [s|err]; [| reflexivity].
      cbn [mbind result_bind]. rewrite Hset. do 2 f_equal.
      apply insert_insert_ne. distinct_names.
    + by rewrite Hset.
  - destruct (_ && bool_decide (n = js "input")).
    + destruct (toDOMString _ text) as [s|err]; [| reflexivity].
      cbn [mbind result_bind setInputValue].
      rewrite typeState_insert by distinct_names.
      destruct (valueModeOf (typeState a)).
      * rewrite Hset. by rewrite (sanitized_insert _ _ _ _ _ lang_not_read).
      * rewrite Hset. do 2 f_equal. apply insert_insert_ne. distinct_names.
      * rewrite Hset. do 2 f_equal. apply insert_insert_ne. distinct_names.
      * destruct s; [by rewrite Hset | reflexivity].
    + destruct (_ && bool_decide (n = js "textarea")).
      * destruct (toDOMString _ text) as [s|err]; [| reflexivity].
        cbn [mbind result_bind]. by rewrite Hset.
      * by rewrite Hset.
  - destruct (toDOMString _ text) as [s|err]; [| reflexivity].
    cbn [mbind result_bind]. by rewrite Hset.
  - by rewrite Hset.
Qed.

Lemma translateElement_setLang (ns : option jsstring) (n : jsstring)
    (a : gmap jsstring jsstring) (v : jsstring) (c : list node)
    (l key : jsstring) :
  translateElement platform translations lang kind key
                   (Element ns n (<[js "lang" := l]> a) v c)
  = translateElement platform translations lang kind key (Element ns n a v c).
Proof.
  apply translateElement_ext; try reflexivity; cbn [attributes].
  - rewrite lookup_insert_ne; [reflexivity | distinct_names].
  - rewrite lookup_insert_ne; [reflexivity | distinct_names].
Qed.

(** The [lang] attribute of the root is not read by the walk. *)
Lemma forEachMarked_setLang (e : element) (l : jsstring) :
  walk (setLang e l) = (setLang (walk e).1 l, (walk e).2).
Proof.
  destruct e as [ns n a v c].
  destruct (isHTMLElement (Element ns n a v c)) eqn:Hhtml.
  2: { rewrite (setLang_other _ _ Hhtml).
       destruct (walk (Element ns n a v c)) as [e' t] eqn:Hwalk. cbn [fst snd].
       rewrite setLang_other; [reflexivity |].
       pose proof (forEachMarked_callback ns n a v c) as H.
       rewrite Hwalk in H. unfold isHTMLElement in *.
       destruct (callback (Element ns n a v c)) as [e1|err] eqn:Hcb.
       - destruct (callback_names _ _ Hcb) as [Hns _].
         destruct (overwritten platform translations lang kind _).
         + destruct H as [[= -> _] _]. by rewrite Hns.
         + destruct H as [_ [= -> _]]. cbn [namespaceURI]. by rewrite Hns.
       - injection H as -> _. exact Hhtml. }
  assert (Hset : forall a' v' c', setLang (Element ns n a' v' c') l
                                  = Element ns n (<[js "lang" := l]> a') v' c').
  { intros a' v' c'. by apply setLang_html. }
  rewrite Hset, !forEachMarked_unfold.
  rewrite (lookup_insert_ne a _ _ _ lang_not_key).
  destruct (a !! js "data-i18n") as [key|].
  2: { destruct (walkBelow c). cbn [fst snd]. by rewrite Hset. }
  rewrite translateElement_setLang.
  destruct (translateElement platform translations lang kind key
                             (Element ns n a v c)) as [asg|err].
  2: { cbn [fst snd]. by rewrite Hset. }
  rewrite (assign_setLang _ _ _ _ _ _ _ Hhtml).
  destruct (assign platform (Element ns n a v c) asg) as [e1|err] eqn:He1.
  2: { cbn [fst snd]. by rewrite Hset. }
  destruct (assign_keeps _ _ _ _ He1) as (Hns & Hn & _).
  destruct e1 as [ns1 n1 a1 v1 c1]. cbn [namespaceURI localName] in Hns, Hn.
  subst ns1 n1. rewrite Hset.
  destruct asg as [text|text|text|]; cbn [fst snd];
    try (destruct (walkBelow c); cbn [fst snd]); by rewrite Hset.
Qed.

Lemma setLang_setLang (e : element) (l : jsstring) :
  setLang (setLang e l) l = setLang e l.
Proof.
  destruct e as [ns n a v c].
  destruct (isHTMLElement (Element ns n a v c)) eqn:Hhtml.
  - rewrite (setLang_html _ _ _ _ _ _ Hhtml), setLang_html by exact Hhtml.
    by rewrite insert_insert_eq.
  - by rewrite !(setLang_other _ _ Hhtml).
Qed.

Lemma quietWhenDetached_setLang (e : element) (l : jsstring) :
  quietWhenDetached platform translations lang kind (setLang e l)
  = quietWhenDetached platform translations lang kind e.
Proof.
  destruct e as [ns n a v c].
  destruct (isHTMLElement (Element ns n a v c)) eqn:Hhtml.
  2: { by rewrite (setLang_other _ _ Hhtml). }
  rewrite (setLang_html _ _ _ _ _ _ Hhtml). cbn [quietWhenDetached].
  replace (overwritten platform translations lang kind
                       (Element ns n (<[js "lang" := l]> a) v c))
    with (overwritten platform translations lang kind (Element ns n a v c));
    [reflexivity |].
  unfold overwritten. cbn [attributes].
  rewrite (lookup_insert_ne a _ _ _ lang_not_key).
  destruct (a !! js "data-i18n"); [| reflexivity].
  by rewrite translateElement_setLang.
Qed.


(* --------------------------------------------------------------------- *)
(** *** An element that stays in the document *)
(* --------------------------------------------------------------------- *)

Local Abbreviation walkFrom := (forEachMarkedFrom platform translations lang kind).

(** A child node after the walk of the child nodes: an element is walked,
    or is as it was when an exception came before its turn. *)
Lemma forEachMarkedBelow_lookup (c : list node) (i : nat) (y : element) :
  c !! i = Some (ElementNode y) ->
  exists thrown,
    (walkBelow c).1 !! i = Some (ElementNode (walkFrom thrown y).1)
    /\ ((walkBelow c).2 = None -> thrown = None /\ (walk y).2 = None).
Proof.
  revert i. induction c as [|m c IH]; intros i; [done |].
  rewrite forEachMarkedBelow_cons. destruct i as [|i]; cbn [lookup list_lookup].
  - intros [= ->]. exists None. cbn [forEachMarkedFrom].
    destruct (walk y) as [y' [err|]]; [done |].
    by destruct (walkBelow c).
  - intros Hi. destruct (IH i Hi) as (thrown & Hlook & Hnone).
    destruct m as [d|d|x].
    + destruct (walkBelow c). by exists thrown.
    + destruct (walkBelow c). by exists thrown.
    + destruct (walk x) as [x' [err|]].
      * exists (Some err). by split.
      * destruct (walkBelow c). by exists thrown.
Qed.

(** An element that stays in the document is found after the walk where
    it was: walked, or as it was when an exception came before its
    turn. *)
Lemma subtree_forEachMarked (path : list nat) (e x : element)
    (thrown : option jsError) :
  subtree e path = Some x ->
  staysBelow platform translations lang kind e path = true ->
  exists thrown',
    subtree (walkFrom thrown e).1 path = Some (walkFrom thrown' x).1
    /\ ((walkFrom thrown e).2 = None ->
        thrown' = None /\ (walk x).2 = None).
Proof.
  revert e thrown. induction path as [|i path IH]; intros e thrown.
  - cbn [subtree]. intros [= ->] _. exists thrown. split; [reflexivity |].
    destruct thrown; [done |]. by cbn [forEachMarkedFrom].
  - cbn [subtree staysBelow]. intros Hsub Hstay.
    apply andb_prop in Hstay as [Hover Hstay]. apply negb_true_iff in Hover.
    destruct (childNodes e !! i) as [[d|d|y]|] eqn:Hi; try discriminate.
    destruct thrown as [err|].
    { exists (Some err). cbn [forEachMarkedFrom fst snd subtree].
      rewrite Hi. by split. }
    cbn [forEachMarkedFrom]. destruct e as [ns n a v c].
    cbn [childNodes] in Hi.
    pose proof (forEachMarked_callback ns n a v c) as Hwalk.
    rewrite Hover in Hwalk.
    destruct (callback (Element ns n a v c)) as [e1|err].
    2: { exists (Some err). rewrite Hwalk. cbn [forEachMarkedFrom fst snd subtree childNodes].
         rewrite Hi. by split. }
    destruct Hwalk as [_ ->]. cbn [fst snd subtree childNodes].
    destruct (forEachMarkedBelow_lookup c i y Hi) as (ti & -> & Hnone).
    destruct (IH y ti Hsub Hstay) as (thrown' & Hpath & Hnone').
    exists thrown'. split; [exact Hpath |].
    intros Hbelow. destruct (Hnone Hbelow) as [-> Hy].
    apply Hnone'. exact Hy.
Qed.

(* --------------------------------------------------------------------- *)
(** *** What is not marked *)
(* --------------------------------------------------------------------- *)

(** A subtree without marks is left as it is. *)
Lemma forEachMarked_unmarked (e : element) :
  unmarked e = true -> walk e = (e, None).
Proof.
  induction e as [ns n a v c IH] using element_tree_ind.
  rewrite forEachMarked_unfold. cbn [unmarked].
  intros H. apply andb_prop in H as [Hkey Hc].
  apply bool_decide_eq_true_1 in Hkey. rewrite Hkey.
  enough (walkBelow c = (c, None)) as -> by reflexivity.
  induction IH as [|m c Hm _ IHc]; [reflexivity |].
  cbn [forallb] in Hc. apply andb_prop in Hc as [Hm' Hc].
  rewrite forEachMarkedBelow_cons, (IHc Hc).
  destruct m as [d|d|e]; [reflexivity | reflexivity |].
  by rewrite (Hm Hm').
Qed.

Lemma forEachMarkedNodes_unmarked (c : list node) (thrown : option jsError) :
  unmarkedNodes c = true ->
  forEachMarkedNodes platform translations lang kind thrown c = (c, thrown).
Proof.
  destruct thrown as [err|]; [reflexivity |]. cbn [forEachMarkedNodes].
  unfold unmarkedNodes. induction c as [|m c IH]; [reflexivity |].
  cbn [forallb]. intros H. apply andb_prop in H as [Hm Hc].
  rewrite forEachMarkedBelow_cons, (IH Hc).
  destruct m as [d|d|e]; [reflexivity | reflexivity |].
  by rewrite (forEachMarked_unmarked e Hm).
Qed.

(* --------------------------------------------------------------------- *)
(** *** The marks after the walk *)
(* --------------------------------------------------------------------- *)

Lemma selectedBelow_walk (c : list node) :
  Forall (fun m => match m with
                   | ElementNode e =>
                       forall place,
                         place ∈ querySelectorAll (walk e).1 ->
                         place ∈ querySelectorAll e
                   | _ => True
                   end) c ->
  forall i place,
    place ∈ selectedBelow i (walkBelow c).1 -> place ∈ selectedBelow i c.
Proof.
  induction 1 as [|m c Hm _ IH]; intros i place; [done |].
  rewrite forEachMarkedBelow_cons. cbn [selectedBelow].
  destruct m as [d|d|e].
  - destruct (walkBelow c) eqn:Hc. cbn [fst selectedBelow app] in *. apply IH.
  - destruct (walkBelow c) eqn:Hc. cbn [fst selectedBelow app] in *. apply IH.
  - destruct (walk e) as [e' [err|]] eqn:He; cbn [fst] in Hm.
    + cbn [fst selectedBelow]. rewrite !elem_of_app.
      intros [H|H]; [left | by right].
      apply list_elem_of_fmap in H as (p & -> & Hp).
      apply list_elem_of_fmap. exists p. split; [reflexivity | by apply Hm].
    + destruct (walkBelow c) eqn:Hc. cbn [fst selectedBelow] in *.
      rewrite !elem_of_app.
      intros [H|H]; [left | right; by apply IH].
      apply list_elem_of_fmap in H as (p & -> & Hp).
      apply list_elem_of_fmap. exists p. split; [reflexivity | by apply Hm].
Qed.

Lemma selectedBelow_no_children (i : nat) (c : list node) :
  children c = [] -> selectedBelow i c = [].
Proof.
  unfold children. revert i. induction c as [|m c IH]; intros i; [reflexivity |].
  destruct m as [d|d|e]; cbn [List.filter isElementNode selectedBelow app];
    [apply IH | apply IH | discriminate].
Qed.

(** The walk marks nothing: what is selected after it was selected
    before. *)
Lemma querySelectorAll_walk (e : element) (place : list nat) :
  place ∈ querySelectorAll (walk e).1 -> place ∈ querySelectorAll e.
Proof.
  revert place.
  induction e as [ns n a v c IH] using element_tree_ind. intros place.
  pose proof (selectedBelow_walk c IH 0%nat place) as Hbelow.
  pose proof (forEachMarked_callback ns n a v c) as Hwalk.
  destruct (callback (Element ns n a v c)) as [e1|err] eqn:Hcb;
    [| by rewrite Hwalk].
  pose proof (callback_key _ _ Hcb) as Hkey. cbn [attributes] in Hkey.
  rewrite (querySelectorAll_unfold ns n a v c).
  destruct (overwritten platform translations lang kind (Element ns n a v c)).
  - destruct Hwalk as [-> Hnone]. cbn [fst].
    destruct e1 as [ns1 n1 a1 v1 c1]. cbn [attributes childNodes] in *.
    rewrite querySelectorAll_unfold, Hkey.
    rewrite (selectedBelow_no_children _ _ Hnone), !elem_of_app.
    intros [H|H]; [by left | by apply elem_of_nil in H].
  - destruct Hwalk as [_ ->]. cbn [fst].
    rewrite querySelectorAll_unfold, Hkey, !elem_of_app.
    intros [H|H]; [by left | right; by apply Hbelow].
Qed.

Lemma querySelectorAll_setLang (e : element) (l : jsstring) :
  querySelectorAll (setLang e l) = querySelectorAll e.
Proof.
  destruct e as [ns n a v c].
  destruct (isHTMLElement (Element ns n a v c)) eqn:Hhtml.
  - rewrite (setLang_html _ _ _ _ _ _ Hhtml), !querySelectorAll_unfold.
    by rewrite (lookup_insert_ne a _ _ _ lang_not_key).
  - by rewrite (setLang_other _ _ Hhtml).
Qed.

End Walk.

(* --------------------------------------------------------------------- *)
(** ** The gate *)
(* --------------------------------------------------------------------- *)

Lemma comingSoonGate_true (translations : Translations) (lang : jsstring) :
  translations !! lang = None -> lang ∉ objectPrototypeNames ->
  lang <> js "en" -> lang <> js "ru" ->
  comingSoonGate translations lang = true.
Proof.
  intros Hno Hplain Hen Hru. unfold comingSoonGate, includes. rewrite Hno.
  by rewrite !bool_decide_eq_false_2.
Qed.

Lemma setBody_first (pre post old : list node) (new : jsstring -> list node)
    (ns : option jsstring) (name : jsstring) (a : gmap jsstring jsstring)
    (v : jsstring) :
  forallb (fun n => negb (isBodyNode n)) pre = true ->
  isBodyElement (Element ns name a v old) = true ->
  setBody (pre ++ ElementNode (Element ns name a v old) :: post) new
  = Some (pre ++ ElementNode (Element ns name a v (new name)) :: post).
Proof.
  intros Hpre Hbody. induction pre as [|m pre IH]; cbn [app setBody].
  - by rewrite Hbody.
  - cbn [forallb] in Hpre. apply andb_prop in Hpre as [Hm Hpre].
    rewrite (IH Hpre).
    destruct m as [d|d|[ns' n' a' v' c']]; try reflexivity.
    cbn [isBodyNode] in Hm. apply negb_true_iff in Hm. by rewrite Hm.
Qed.

Lemma setBody_no_body (c : list node) (new : jsstring -> list node) :
  forallb (fun n => negb (isBodyNode n)) c = true -> setBody c new = None.
Proof.
  induction c as [|m c IH]; [reflexivity |].
  cbn [forallb]. intros H. apply andb_prop in H as [Hm Hc].
  cbn [setBody]. rewrite (IH Hc).
  destruct m as [d|d|[ns n a v old]]; try reflexivity.
  cbn [isBodyNode] in Hm. apply negb_true_iff in Hm. by rewrite Hm.
Qed.

(** C1: with no entry for the locale, which is neither "en" nor "ru" (and,
    as every supported locale, is no name of a property of
    [Object.prototype]), [translatePage] replaces what is in the body of
    the document by the Coming Soon panel, a [div] of class [container]
    around a [div] of class [panel] with the heading and the sentence of
    the source, and returns: every node outside the body and every
    attribute of the root element, [lang] among them, is as before,
    whatever their [data-i18n] marks and whatever the English entries. *)
Theorem translatePage_gate_replaces_body
    (platform : Platform) (translations : Translations) (lang : jsstring)
    (documentKind : documentKind)
    (rootAttrs : gmap jsstring jsstring) (rootValue : jsstring)
    (before after content : list node)
    (bodyAttrs : gmap jsstring jsstring) (bodyValue : jsstring) :
  translations !! lang = None -> lang <> js "en" -> lang <> js "ru" ->
  lang ∉ objectPrototypeNames ->
  forallb (fun n => negb (isBodyNode n)) before = true ->
  let html c :=
    {| kind := documentKind;
       documentElement :=
         Element (Some HTML_NAMESPACE) (js "html") rootAttrs rootValue c |} in
  let body c :=
    ElementNode (Element (Some HTML_NAMESPACE) (js "body") bodyAttrs bodyValue c)
  in
  let tag name class c :=
    ElementNode (Element (Some HTML_NAMESPACE) (js name)
                         {[ js "class" := js class ]} [] c) in
  translatePage platform translations lang (html (before ++ body content :: after))
  = (html
       (before
        ++ body
             [ TextNode (0xA :: js "      ");
               tag "div"%string "container"%string
                 [ TextNode (0xA :: js "        ");
                   tag "div"%string "panel"%string
                     [ TextNode (0xA :: js "          ");
                       tag "h1"%string "page-title"%string
                         [TextNode (js "Coming Soon")];
                       TextNode (0xA :: js "          ");
                       tag "p"%string "page-subtitle"%string
                         [TextNode
                            (js "This page is not yet available in your language.")];
                       TextNode (0xA :: js "        ") ];
                   TextNode (0xA :: js "      ") ];
               TextNode (0xA :: js "    ") ]
        :: after),
     Return ()).
Proof.
  intros Hno Hen Hru Hplain Hbefore html body tag.
  unfold translatePage, html. cbn [kind documentElement].
  rewrite (comingSoonGate_true _ _ Hno Hplain Hen Hru).
  unfold setBodyInnerHTML.
  replace (isHTML (js "html")
             (Element (Some HTML_NAMESPACE) (js "html") rootAttrs rootValue
                (before ++ body content :: after))) with true
    by (vm_compute; reflexivity).
  unfold body.
  rewrite (setBody_first before after content (comingSoonIn documentKind)
             (Some HTML_NAMESPACE) (js "body") bodyAttrs bodyValue Hbefore)
    by (vm_compute; reflexivity).
  cbn [fmap option_fmap option_map].
  replace (comingSoonIn documentKind (js "body")) with comingSoon
    by (by destruct documentKind).
  reflexivity.
Qed.

Lemma translatePage_gate_replaces_body_witness :
  exists panel,
    translatePage examplePlatform sampleTranslations (js "fr")
      (page (Element (Some HTML_NAMESPACE) (js "html") ∅ []
               ([sampleHead]
                ++ ElementNode (Element (Some HTML_NAMESPACE) (js "body") ∅ []
                                        [ElementNode footerParagraph])
                :: [])))
    = (page (Element (Some HTML_NAMESPACE) (js "html") ∅ []
               ([sampleHead]
                ++ ElementNode (Element (Some HTML_NAMESPACE) (js "body") ∅ []
                                        panel)
                :: [])),
       Return ())
    /\ length panel = 3%nat.
Proof.
  eexists. split.
  - apply (translatePage_gate_replaces_body examplePlatform sampleTranslations
             (js "fr") HTMLDocument ∅ [] [sampleHead] [] [ElementNode footerParagraph]
             ∅ []).
    + vm_compute. reflexivity.
    + intros H. vm_compute in H. discriminate H.
    + intros H. vm_compute in H. discriminate H.
    + apply (bool_decide_eq_false_1 _). vm_compute. reflexivity.
    + vm_compute. reflexivity.
  - reflexivity.
Defined.

(** Where [document.body] is [null] the assignment throws and the document
    is as before. *)
Lemma translatePage_gate_without_body
    (platform : Platform) (translations : Translations) (lang : jsstring)
    (document : Document) :
  comingSoonGate translations lang = true ->
  setBodyInnerHTML (documentElement document) (comingSoonIn (kind document))
  = None ->
  translatePage platform translations lang document
  = (document, Throw bodyIsNull).
Proof. intros Hgate Hbody. unfold translatePage. by rewrite Hgate, Hbody. Qed.

(** The same panel in the body of an XHTML page; in a [frameset] of an
    HTML document, the white space of the markup alone. *)
Example translatePage_gate_other_bodies :
  (childNodes
     <$> subtree (documentElement
                    (fst (translatePage examplePlatform sampleTranslations
                                        (js "fr") xhtmlPage))) [1]%nat)
  = Some comingSoon
  /\ (childNodes
        <$> subtree (documentElement
                       (fst (translatePage examplePlatform sampleTranslations
                               (js "fr")
                               (page (elem "html" []
                                        [sampleHead;
                                         ElementNode (elem "frameset" [] [])])))))
                    [1]%nat)
     = Some comingSoonInFrameset.
Proof. split; vm_compute; reflexivity. Qed.

(* --------------------------------------------------------------------- *)
(** ** Calling [translatePage] twice *)
(* --------------------------------------------------------------------- *)

Lemma setBody_setBody (c c' : list node) (new : jsstring -> list node) :
  setBody c new = Some c' -> setBody c' new = Some c'.
Proof.
  revert c'. induction c as [|m c IH]; intros c'; cbn [setBody];
    [discriminate |].
  destruct m as [d|d|[ns n a v old]].
  - destruct (setBody c new) as [r|]; cbn [fmap option_fmap option_map]; [| discriminate].
    intros [= <-]. cbn [setBody]. by rewrite (IH r eq_refl).
  - destruct (setBody c new) as [r|]; cbn [fmap option_fmap option_map]; [| discriminate].
    intros [= <-]. cbn [setBody]. by rewrite (IH r eq_refl).
  - destruct (isBodyElement (Element ns n a v old)) eqn:Hbody.
    + intros [= <-]. cbn [setBody].
      change (isBodyElement (Element ns n a v (new n)))
        with (isBodyElement (Element ns n a v old)).
      by rewrite Hbody.
    + destruct (setBody c new) as [r|]; cbn [fmap option_fmap option_map]; [| discriminate].
      intros [= <-]. cbn [setBody]. by rewrite Hbody, (IH r eq_refl).
Qed.

Lemma setBodyInnerHTML_again (root root' : element)
    (new : jsstring -> list node) :
  setBodyInnerHTML root new = Some root' ->
  setBodyInnerHTML root' new = Some root'.
Proof.
  destruct root as [ns n a v c]. unfold setBodyInnerHTML.
  destruct (isHTML (js "html") (Element ns n a v c)) eqn:Hhtml;
    [| discriminate].
  destruct (setBody c new) as [c'|] eqn:Hc; cbn [fmap option_fmap option_map]; [| discriminate].
  intros [= <-].
  change (isHTML (js "html") (Element ns n a v c'))
    with (isHTML (js "html") (Element ns n a v c)).
  by rewrite Hhtml, (setBody_setBody _ _ _ Hc).
Qed.

(** C5, as the code has it: a second call of [translatePage] with the
    same translations leaves the document the first call left and ends as
    the first call did, on the path of the gate always, and on the path
    of the substitution when the first call has ended without exception
    or, more generally, when no exception has come from an element that
    the first call took out of the document. *)
Theorem translatePage_idempotent
    (platform : Platform) (translations : Translations) (lang : jsstring)
    (document : Document) :
  comingSoonGate translations lang = true
  \/ snd (translatePage platform translations lang document) = Normal
  \/ quietWhenDetached platform translations lang (kind document)
                       (documentElement document) = true ->
  translatePage platform translations lang
    (fst (translatePage platform translations lang document))
  = translatePage platform translations lang document.
Proof.
  unfold translatePage.
  destruct (comingSoonGate translations lang).
  { intros _.
    destruct (setBodyInnerHTML (documentElement document)
                               (comingSoonIn (kind document)))
      as [root'|] eqn:Hbody; cbn [fst kind documentElement].
    - by rewrite (setBodyInnerHTML_again _ _ _ Hbody).
    - by rewrite Hbody. }
  rewrite forEachSelected_walk. intros Hquiet.
  assert (Hq : quietWhenDetached platform translations lang (kind document)
                                 (documentElement document) = true).
  { destruct Hquiet as [H | [H | H]]; [discriminate | | exact H].
    apply quietWhenDetached_normal.
    destruct (forEachMarked platform translations lang (kind document)
                            (documentElement document)) as [root' [err|]];
      [discriminate | reflexivity]. }
  pose proof (forEachMarked_idempotent _ _ _ _ _ Hq) as Hagain.
  destruct (forEachMarked platform translations lang (kind document)
                          (documentElement document)) as [root' [err|]];
    cbn [fst snd kind documentElement] in *.
  - rewrite forEachSelected_walk. by rewrite Hagain.
  - rewrite forEachSelected_walk, forEachMarked_setLang, Hagain.
    cbn [fst snd]. by rewrite setLang_setLang.
Qed.

Lemma translatePage_idempotent_witness :
  translatePage examplePlatform sampleTranslations (js "ru")
    (fst (translatePage examplePlatform sampleTranslations (js "ru") samplePage))
  = translatePage examplePlatform sampleTranslations (js "ru") samplePage.
Proof.
  apply translatePage_idempotent. right. left. vm_compute. reflexivity.
Defined.

(** C5 as it is written fails.  On the upload page the [span] with a link
    key holds a marked file input.  The first call assigns the text of the
    link key to the [span], which takes the input out of the document,
    then runs the callback on the input, which is still in the list:
    assigning a value to a file input throws, the paragraph that follows
    is not reached and the [lang] of the root is not set.  The second call
    finds no input, translates the paragraph and sets [lang]. *)
Lemma second_call_goes_further :
  let first :=
    translatePage examplePlatform sampleTranslations (js "en") uploadPage in
  let second :=
    translatePage examplePlatform sampleTranslations (js "en") (fst first) in
  (exists e, snd first = Throw e /\ errorName e = js "InvalidStateError")
  /\ (childNodes <$> subtree (documentElement (fst first)) [1; 1]%nat)
     = Some [TextNode (js "Hi")]
  /\ attributes (documentElement (fst first)) !! js "lang" = None
  /\ snd second = Normal
  /\ (childNodes <$> subtree (documentElement (fst second)) [1; 1]%nat)
     = Some [TextNode (js "Hello")]
  /\ attributes (documentElement (fst second)) !! js "lang" = Some (js "en")
  /\ fst second <> fst first.
Proof.
  cbv zeta. split; [exists InvalidStateError; split; vm_compute; reflexivity |].
  repeat split; try (vm_compute; reflexivity).
  intros H.
  assert (Hlang :
    attributes (documentElement
                  (fst (translatePage examplePlatform sampleTranslations (js "en")
                          (fst (translatePage examplePlatform sampleTranslations
                                  (js "en") uploadPage))))) !! js "lang"
    = attributes (documentElement
                    (fst (translatePage examplePlatform sampleTranslations
                            (js "en") uploadPage))) !! js "lang")
    by (by rewrite H).
  vm_compute in Hlang. discriminate Hlang.
Qed.

(* --------------------------------------------------------------------- *)
(** ** Elements with nested markup *)
(* --------------------------------------------------------------------- *)

(** The callback on a marked element that is not input-like, has no link
    key and has an element child. *)
Lemma nested_markup_not_overwritten (platform : Platform)
    (translations : Translations) (lang : jsstring) (kind : documentKind)
    (e : element) :
  markedWithElementChild kind e ->
  attributes e !! js "data-i18n-link" = None ->
  overwritten platform translations lang kind e = false.
Proof.
  intros ([key Hkey] & Hin & Hc) Hlink.
  unfold overwritten, translateElement. rewrite Hkey, Hin, Hlink.
  destruct (translate platform translations lang key) as [text|err];
    [| reflexivity].
  cbn [mbind result_bind].
  destruct (children (childNodes e)); [congruence |].
  cbn [length Nat.eqb]. by rewrite andb_false_r.
Qed.

Lemma subtree_setLang (root x : element) (l : jsstring) (path : list nat) :
  subtree root path = Some x ->
  subtree (setLang root l) path
  = Some (match path with [] => setLang x l | _ :: _ => x end).
Proof.
  destruct root as [ns n a v c]. unfold setLang.
  destruct (isHTMLElement (Element ns n a v c)) eqn:Hhtml.
  - destruct path as [|i path]; cbn [subtree childNodes].
    + intros [= <-]. by rewrite Hhtml.
    + by intros ->.
  - destruct path as [|i path]; cbn [subtree childNodes].
    + intros [= <-]. by rewrite Hhtml.
    + by intros ->.
Qed.

Lemma childNodes_setLang (e : element) (l : jsstring) :
  childNodes (setLang e l) = childNodes e.
Proof.
  destruct e as [ns n a v c]. unfold setLang.
  by destruct (isHTMLElement (Element ns n a v c)).
Qed.

(** What [translatePage] leaves, on the path of the substitution, at the
    place of an element that stays in the document: the element walked,
    or as it was when an exception came before its turn; the root has its
    [lang] set when the call ends without exception. *)
Lemma translatePage_at (platform : Platform) (translations : Translations)
    (lang : jsstring) (document : Document) (e : element) (path : list nat) :
  comingSoonGate translations lang = false ->
  subtree (documentElement document) path = Some e ->
  staysBelow platform translations lang (kind document)
             (documentElement document) path = true ->
  exists thrown e',
    subtree (documentElement
               (fst (translatePage platform translations lang document))) path
    = Some e'
    /\ (e' = (forEachMarkedFrom platform translations lang (kind document)
                                thrown e).1
        \/ path = []
           /\ e' = setLang (forEachMarkedFrom platform translations lang
                              (kind document) thrown e).1 lang)
    /\ (snd (translatePage platform translations lang document) = Normal ->
        thrown = None
        /\ (forEachMarked platform translations lang (kind document) e).2 = None
        /\ e' = match path with
                | [] => setLang (forEachMarked platform translations lang
                                   (kind document) e).1 lang
                | _ :: _ => (forEachMarked platform translations lang
                               (kind document) e).1
                end).
Proof.
  intros Hgate Hsub Hstay. unfold translatePage. rewrite Hgate.
  rewrite forEachSelected_walk.
  destruct (subtree_forEachMarked platform translations lang (kind document)
              path _ e None Hsub Hstay) as (thrown & Hpath & Hnone).
  cbn [forEachMarkedFrom] in Hpath, Hnone.
  destruct (forEachMarked platform translations lang (kind document)
                          (documentElement document)) as [root' [err|]];
    cbn [fst snd documentElement] in *.
  - exists thrown. eexists. split; [exact Hpath |]. split; [by left |].
    discriminate.
  - destruct (Hnone eq_refl) as [-> Hx]. cbn [forEachMarkedFrom] in Hpath.
    exists None. eexists.
    split; [exact (subtree_setLang _ _ lang _ Hpath) |].
    cbn [forEachMarkedFrom].
    split; [destruct path; [by right | by left] |].
    by intros _.
Qed.

(** C6, as the code has it: on the path of the substitution, a marked
    element that is not input-like, has no link key, has an element child
    and stays in the document (no element above it is overwritten) keeps
    its child nodes, each in its place; the elements among them are walked
    in their turn, up to the first exception if there is one, so that its
    content is unchanged when nothing below it is marked. *)
Theorem translatePage_keeps_nested_markup
    (platform : Platform) (translations : Translations) (lang : jsstring)
    (document : Document) (e : element) (path : list nat) :
  comingSoonGate translations lang = false ->
  subtree (documentElement document) path = Some e ->
  staysBelow platform translations lang (kind document)
             (documentElement document) path = true ->
  markedWithElementChild (kind document) e ->
  attributes e !! js "data-i18n-link" = None ->
  exists e',
    subtree (documentElement
               (fst (translatePage platform translations lang document))) path
    = Some e'
    /\ (exists thrown,
           childNodes e'
           = (forEachMarkedNodes platform translations lang (kind document)
                                 thrown (childNodes e)).1)
    /\ (snd (translatePage platform translations lang document) = Normal ->
        childNodes e'
        = (forEachMarkedNodes platform translations lang (kind document)
                              None (childNodes e)).1)
    /\ (unmarkedNodes (childNodes e) = true -> childNodes e' = childNodes e).
Proof.
  intros Hgate Hsub Hstay Hmarked Hlink.
  pose proof (nested_markup_not_overwritten platform translations lang _ _
                Hmarked Hlink) as Hover.
  destruct (translatePage_at platform translations lang document e path
              Hgate Hsub Hstay) as (thrown & e' & He' & Hcases & Hnormal).
  exists e'. split; [exact He' |].
  assert (Hwalked :
    childNodes (forEachMarked platform translations lang (kind document) e).1
    = (forEachMarkedNodes platform translations lang (kind document)
         (match forEachCallback platform translations lang (kind document) e with
          | Ok _ => None
          | Thrown err => Some err
          end) (childNodes e)).1).
  { destruct e as [ns n a v c].
    pose proof (forEachMarked_callback platform translations lang
                  (kind document) ns n a v c) as Hwalk.
    rewrite Hover in Hwalk.
    destruct (forEachCallback platform translations lang (kind document)
                              (Element ns n a v c)) as [e1|err].
    - by destruct Hwalk as [_ ->].
    - by rewrite Hwalk. }
  assert (Hchildren : exists thrown',
    childNodes e'
    = (forEachMarkedNodes platform translations lang (kind document)
                          thrown' (childNodes e)).1).
  { assert (Hfrom : exists thrown',
      childNodes (forEachMarkedFrom platform translations lang (kind document)
                                    thrown e).1
      = (forEachMarkedNodes platform translations lang (kind document)
                            thrown' (childNodes e)).1).
    { destruct thrown as [err|]; [by exists (Some err) |].
      cbn [forEachMarkedFrom]. eexists. exact Hwalked. }
    destruct Hcases as [-> | [_ ->]]; [exact Hfrom |].
    by rewrite childNodes_setLang. }
  split; [exact Hchildren |]. split.
  - intros Hend. destruct (Hnormal Hend) as (_ & Hquiet & ->).
    assert (Hcb : forEachCallback platform translations lang (kind document) e
                  = Ok (match forEachCallback platform translations lang
                                (kind document) e with
                        | Ok e1 => e1
                        | Thrown _ => e
                        end)).
    { destruct e as [ns n a v c].
      pose proof (forEachMarked_callback platform translations lang
                    (kind document) ns n a v c) as Hwalk.
      destruct (forEachCallback platform translations lang (kind document)
                                (Element ns n a v c)) as [e1|err];
        [reflexivity |].
      rewrite Hwalk in Hquiet. discriminate Hquiet. }
    rewrite Hcb in Hwalked.
    destruct path; [by rewrite childNodes_setLang |]; exact Hwalked.
  - intros Hplain. destruct Hchildren as [thrown' ->].
    by rewrite forEachMarkedNodes_unmarked.
Qed.

Lemma translatePage_keeps_nested_markup_witness :
  exists e',
    subtree (documentElement
               (fst (translatePage examplePlatform sampleTranslations (js "ru")
                                   samplePage)))
            [2; 3]%nat = Some e'
    /\ childNodes e' = childNodes plainFooter.
Proof.
  destruct (translatePage_keeps_nested_markup examplePlatform sampleTranslations
              (js "ru") samplePage plainFooter [2; 3]%nat)
    as (e' & He' & _ & _ & Hsame).
  - vm_compute. reflexivity.
  - vm_compute. reflexivity.
  - vm_compute. reflexivity.
  - split; [eexists; vm_compute; reflexivity |].
    split; [vm_compute; reflexivity |].
    vm_compute. discriminate.
  - vm_compute. reflexivity.
  - exists e'. split; [exact He' |]. apply Hsame. vm_compute. reflexivity.
Defined.

(** C6 as it is written fails twice on the sample page, in English: the
    [span] with a link key and a [b] child is left with the text of its
    link key alone, and the paragraph whose [a] child is marked itself has
    the text of that child changed. *)
Lemma nested_markup_is_changed :
  (subtree sampleRoot [2; 1]%nat = Some linkSpan
   /\ markedWithElementChild HTMLDocument linkSpan
   /\ (childNodes
         <$> subtree (documentElement
                        (fst (translatePage examplePlatform sampleTranslations
                                            (js "en") samplePage)))
                     [2; 1]%nat)
      = Some [TextNode (js "Read more")]
   /\ [TextNode (js "Read more")] <> childNodes linkSpan)
  /\ (subtree sampleRoot [2; 2]%nat = Some footerParagraph
      /\ markedWithElementChild HTMLDocument footerParagraph
      /\ attributes footerParagraph !! js "data-i18n-link" = None
      /\ (childNodes
            <$> subtree (documentElement
                           (fst (translatePage examplePlatform
                                   sampleTranslations (js "en") samplePage)))
                        [2; 2]%nat)
         = Some [TextNode (js "See ");
                 ElementNode (elem "a" [("data-i18n", "more")%string]
                                [TextNode (js "Read more")])]
      /\ [TextNode (js "See ");
          ElementNode (elem "a" [("data-i18n", "more")%string]
                         [TextNode (js "Read more")])]
         <> childNodes footerParagraph).
Proof.
  assert (Hmarked : forall e,
             (attributes e !! js "data-i18n" = Some (js "footer")
              /\ isInputLike HTMLDocument e = false
              /\ nonEmpty (map (fun _ => 0) (children (childNodes e))) = true) ->
             markedWithElementChild HTMLDocument e).
  { intros e (Hk & Hi & Hc). split; [by eexists |].
    split; [exact Hi |].
    intros E. rewrite E in Hc. discriminate Hc. }
  split.
  - split; [vm_compute; reflexivity |].
    split; [apply Hmarked; vm_compute; auto |].
    split; [vm_compute; reflexivity |].
    vm_compute. discriminate.
  - split; [vm_compute; reflexivity |].
    split; [apply Hmarked; vm_compute; auto |].
    split; [vm_compute; reflexivity |].
    split; [vm_compute; reflexivity |].
    intros H. vm_compute in H. discriminate H.
Qed.

(* ===================================================================== *)
(** * Properties of ifet/lang.js: language detection *)
(* ===================================================================== *)

(** Comparisons of code units decided by arithmetic. *)
Ltac decide_units :=
  repeat match goal with
    | |- context [(?a <=? ?b)] => destruct (N.leb_spec a b); try lia
    | |- context [(?a <? ?b)] => destruct (N.ltb_spec a b); try lia
    | |- context [(?a =? ?b)] => destruct (N.eqb_spec a b); try lia
    end.

Lemma isPlain_not_space (c : N) : isPlain c -> isWhiteSpace c = false.
Proof.
  intros H. unfold isWhiteSpace.
  rewrite bool_decide_eq_false_2.
  - simpl. destruct H; decide_units; reflexivity.
  - rewrite !elem_of_cons, elem_of_nil. destruct H; lia.
Qed.

Lemma isPlain_lower (c : N) : isPlain c -> lowerUnit c = [c].
Proof. intros H. unfold lowerUnit. destruct H; decide_units; reflexivity. Qed.

(* --------------------------------------------------------------------- *)
(** ** [split], [trim], [toLowerCase] on a plain prefix *)
(* --------------------------------------------------------------------- *)

Lemma split_not_nil (sep : N) (s : jsstring) : split sep s <> [].
Proof.
  destruct s as [|c r]; simpl; [discriminate |].
  destruct (c =? sep); [discriminate |].
  destruct (split sep r); discriminate.
Qed.

Lemma split_cons_other (sep c : N) (s : jsstring) :
  c <> sep ->
  split sep (c :: s) = (c :: hd [] (split sep s)) :: tl (split sep s).
Proof.
  intros H. simpl. destruct (N.eqb_spec c sep); [contradiction |].
  pose proof (split_not_nil sep s).
  destruct (split sep s); [contradiction | reflexivity].
Qed.

Lemma split_cons_sep (sep : N) (s : jsstring) :
  split sep (sep :: s) = [] :: split sep s.
Proof. simpl. by rewrite N.eqb_refl. Qed.

Lemma trimStart_snoc (l : jsstring) (c : N) :
  isWhiteSpace c = false -> trimStart (l ++ [c]) = trimStart l ++ [c].
Proof.
  intros H. induction l as [|x l IH]; simpl.
  - by rewrite H.
  - destruct (isWhiteSpace x); [exact IH | reflexivity].
Qed.

Lemma trimEnd_cons (c : N) (s : jsstring) :
  isWhiteSpace c = false -> trimEnd (c :: s) = c :: trimEnd s.
Proof.
  intros H. unfold trimEnd. simpl.
  by rewrite (trimStart_snoc _ _ H), rev_unit.
Qed.

Lemma trim_cons (c : N) (s : jsstring) :
  isWhiteSpace c = false -> trim (c :: s) = c :: trimEnd s.
Proof.
  intros H. unfold trim. simpl. rewrite H. by apply trimEnd_cons.
Qed.

Lemma toLowerCase_cons_plain (c : N) (s : jsstring) :
  isPlain c -> toLowerCase (c :: s) = c :: toLowerCase s.
Proof.
  intros H. unfold toLowerCase. simpl. by rewrite (isPlain_lower _ H).
Qed.

(** Normalising a value that starts with two lower-case letters and a
    hyphen gives the two letters. *)
Lemma normalize_regional (c1 c2 : N) (rest : jsstring) :
  0x61 <= c1 <= 0x7A -> 0x61 <= c2 <= 0x7A ->
  normalize (c1 :: c2 :: 0x2D :: rest) = [c1; c2].
Proof.
  intros H1 H2. unfold normalize.
  assert (P1 : isPlain c1) by (by left).
  assert (P2 : isPlain c2) by (by left).
  assert (P3 : isPlain 0x2D) by (by right).
  rewrite (trim_cons _ _ (isPlain_not_space _ P1)).
  rewrite (trimEnd_cons _ _ (isPlain_not_space _ P2)).
  rewrite (trimEnd_cons _ _ (isPlain_not_space _ P3)).
  rewrite (toLowerCase_cons_plain _ _ P1), (toLowerCase_cons_plain _ _ P2).
  rewrite (toLowerCase_cons_plain _ _ P3).
  rewrite (split_cons_other 0x2D c1) by lia.
  rewrite (split_cons_other 0x2D c2) by lia.
  by rewrite split_cons_sep.
Qed.

(* --------------------------------------------------------------------- *)
(** ** The query parser on a plain prefix *)
(* --------------------------------------------------------------------- *)

Lemma utf8Encode_cons_ascii (c : N) (s : jsstring) :
  c < 0x80 -> utf8Encode (c :: s) = c :: utf8Encode s.
Proof.
  intros H. unfold utf8Encode. simpl.
  unfold isLeadSurrogate, isTrailSurrogate.
  destruct (N.leb_spec 0xD800 c); [lia |].
  destruct (N.leb_spec 0xDC00 c); [lia |].
  simpl. unfold utf8EncodeOne.
  destruct (N.ltb_spec c 0x80); [reflexivity | lia].
Qed.

Lemma urlDecode_cons_plain (c : N) (bytes : list N) :
  isPlain c -> urlDecode (c :: bytes) = c :: urlDecode bytes.
Proof.
  intros H. unfold urlDecode, plusToSpace. simpl.
  destruct (N.eqb_spec c 0x2B); [destruct H; lia |].
  destruct (N.eqb_spec c 0x25); [destruct H; lia |].
  simpl. unfold utf8Start.
  destruct (N.leb_spec c 0x7F); [| destruct H; lia].
  simpl. unfold codeUnitsOf.
  destruct (N.ltb_spec c 0x10000); [reflexivity | lia].
Qed.

(** The first pair of a query that starts with [lang=]. *)
Lemma parseUrlencoded_lang (bytes : list N) :
  exists tail more,
    split 0x26 bytes = tail :: more
    /\ parseUrlencoded ([0x6C; 0x61; 0x6E; 0x67; 0x3D] ++ bytes)
       = (js "lang", urlDecode tail)
           :: flat_map
                (fun piece =>
                   match piece with
                   | [] => []
                   | _ :: _ =>
                       let '(n, v) := splitNameValue piece in
                       [(urlDecode n, urlDecode v)]
                   end) more.
Proof.
  pose proof (split_not_nil 0x26 bytes) as Hne.
  destruct (split 0x26 bytes) as [|tail more] eqn:Hsplit; [contradiction |].
  exists tail, more. split; [reflexivity |].
  unfold parseUrlencoded. simpl app.
  rewrite 5 split_cons_other by lia. rewrite Hsplit. reflexivity.
Qed.

(** C3 at the level of the query: the [lang] value of
    [?lang=] followed by two lower-case letters, a hyphen and any suffix
    starts with the two letters and the hyphen. *)
Lemma get_lang_regional (c1 c2 : N) (R : jsstring) :
  0x61 <= c1 <= 0x7A -> 0x61 <= c2 <= 0x7A ->
  exists rest,
    get (URLSearchParams (js "?lang=" ++ [c1; c2] ++ js "-" ++ R)) (js "lang")
    = Some (c1 :: c2 :: 0x2D :: rest).
Proof.
  intros H1 H2.
  change (js "?lang=" ++ [c1; c2] ++ js "-" ++ R)
    with (0x3F :: 0x6C :: 0x61 :: 0x6E :: 0x67 :: 0x3D :: c1 :: c2 :: 0x2D :: R).
  unfold URLSearchParams. rewrite N.eqb_refl.
  rewrite 8 utf8Encode_cons_ascii by lia.
  destruct (parseUrlencoded_lang (c1 :: c2 :: 0x2D :: utf8Encode R))
    as (tail & more & Hsplit & Hparse).
  change (0x6C :: 0x61 :: 0x6E :: 0x67 :: 0x3D :: c1 :: c2 :: 0x2D :: utf8Encode R)
    with ([0x6C; 0x61; 0x6E; 0x67; 0x3D] ++ c1 :: c2 :: 0x2D :: utf8Encode R).
  rewrite Hparse. simpl get.
  rewrite (split_cons_other 0x26 c1) in Hsplit by lia.
  rewrite (split_cons_other 0x26 c2) in Hsplit by lia.
  rewrite (split_cons_other 0x26 0x2D) in Hsplit by lia.
  simpl in Hsplit. injection Hsplit as <- _.
  rewrite 3 urlDecode_cons_plain by (by (left + right)).
  eexists. reflexivity.
Qed.

Lemma supported_two_letters (L : jsstring) :
  L ∈ SUPPORTED_LOCALES ->
  exists c1 c2, L = [c1; c2] /\ 0x61 <= c1 <= 0x7A /\ 0x61 <= c2 <= 0x7A.
Proof.
  unfold SUPPORTED_LOCALES. rewrite !elem_of_cons, elem_of_nil.
  intros H.
  repeat (destruct H as [-> | H];
          [eexists _, _; split; [vm_compute; reflexivity | lia] |]).
  contradiction.
Qed.

(** A [lang] value that starts with a supported locale and a hyphen gives
    that locale. *)
Lemma detectLanguage_of_value (location : Location) (L rest : jsstring) :
  L ∈ SUPPORTED_LOCALES ->
  get (URLSearchParams (search location)) (js "lang") = Some (L ++ 0x2D :: rest) ->
  detectLanguage location = L.
Proof.
  intros HL Hget.
  destruct (supported_two_letters L HL) as (c1 & c2 & -> & H1 & H2).
  unfold detectLanguage, detectLanguage_try. rewrite Hget.
  cbn [app orElse].
  change (hd [] (split 0x2D (toLowerCase (trim (c1 :: c2 :: 0x2D :: rest)))))
    with (normalize (c1 :: c2 :: 0x2D :: rest)).
  rewrite (normalize_regional c1 c2 rest H1 H2).
  unfold includes. by rewrite bool_decide_eq_true_2.
Qed.

(* --------------------------------------------------------------------- *)
(** ** Parameters before [lang] *)
(* --------------------------------------------------------------------- *)

Lemma toCodePoints_cons_ascii (c : N) (s : jsstring) :
  c < 0x80 -> toCodePoints (c :: s) = c :: toCodePoints s.
Proof.
  intros H. cbn [toCodePoints]. unfold isLeadSurrogate, isTrailSurrogate.
  destruct (N.leb_spec 0xD800 c); [lia |].
  destruct (N.leb_spec 0xDC00 c); [lia | reflexivity].
Qed.

Lemma toCodePoints_cons (y : N) (r : jsstring) :
  toCodePoints (y :: r)
  = if isLeadSurrogate y then
      match r with
      | d :: r' =>
          if isTrailSurrogate d
          then (0x10000 + (y - 0xD800) * 0x400 + (d - 0xDC00)) :: toCodePoints r'
          else 0xFFFD :: toCodePoints r
      | [] => [0xFFFD]
      end
    else if isTrailSurrogate y then 0xFFFD :: toCodePoints r
    else y :: toCodePoints r.
Proof. reflexivity. Qed.

Lemma toCodePoints_app_ascii (c : N) (Q P : jsstring) :
  c < 0x80 ->
  toCodePoints (P ++ c :: Q) = toCodePoints P ++ c :: toCodePoints Q.
Proof.
  intros Hc.
  assert (Hnot : isTrailSurrogate c = false).
  { unfold isTrailSurrogate. destruct (N.leb_spec 0xDC00 c); [lia | reflexivity]. }
  pose proof (toCodePoints_cons_ascii c Q Hc) as Hstep.
  enough (H : (toCodePoints (P ++ c :: Q) = toCodePoints P ++ c :: toCodePoints Q)
              /\ forall y, toCodePoints (y :: P ++ c :: Q)
                           = toCodePoints (y :: P) ++ c :: toCodePoints Q)
    by apply H.
  induction P as [|x P [IH1 IH2]].
  - split; [exact Hstep |].
    intros y. cbn [app]. rewrite (toCodePoints_cons y (c :: Q)), Hnot, Hstep.
    rewrite (toCodePoints_cons y []).
    destruct (isLeadSurrogate y); [reflexivity |].
    destruct (isTrailSurrogate y); reflexivity.
  - split; [apply IH2 |].
    intros y. specialize (IH2 x). cbn [app] in IH1, IH2 |- *.
    rewrite (toCodePoints_cons y (x :: P ++ c :: Q)).
    rewrite (toCodePoints_cons y (x :: P)).
    destruct (isLeadSurrogate y).
    + destruct (isTrailSurrogate x).
      * by rewrite IH1.
      * by rewrite IH2.
    + destruct (isTrailSurrogate y); by rewrite IH2.
Qed.

Lemma utf8Encode_app_ascii (c : N) (P Q : jsstring) :
  c < 0x80 -> utf8Encode (P ++ c :: Q) = utf8Encode P ++ c :: utf8Encode Q.
Proof.
  intros Hc. unfold utf8Encode.
  rewrite (toCodePoints_app_ascii c Q P Hc), flat_map_app. cbn [flat_map].
  unfold utf8EncodeOne at 2.
  destruct (N.ltb_spec c 0x80); [reflexivity | lia].
Qed.

Lemma split_app_sep (sep : N) (A B : jsstring) :
  split sep (A ++ sep :: B) = split sep A ++ split sep B.
Proof.
  induction A as [|x A IH]; cbn [app].
  - by rewrite split_cons_sep.
  - cbn [split]. rewrite IH.
    destruct (x =? sep); [reflexivity |].
    pose proof (split_not_nil sep A).
    destruct (split sep A); [contradiction | reflexivity].
Qed.

Lemma parseUrlencoded_app (A B : list N) :
  parseUrlencoded (A ++ 0x26 :: B) = parseUrlencoded A ++ parseUrlencoded B.
Proof. unfold parseUrlencoded. by rewrite split_app_sep, flat_map_app. Qed.

Lemma get_app_None (l1 l2 : list (jsstring * jsstring)) (name : jsstring) :
  get l1 name = None -> get (l1 ++ l2) name = get l2 name.
Proof.
  induction l1 as [|[n v] l1 IH]; [reflexivity |].
  cbn [app get]. case_bool_decide; [discriminate | exact IH].
Qed.

(** The query [?lang=L-R]. *)
Lemma detectLanguage_lang_first (L R url : jsstring) :
  L ∈ SUPPORTED_LOCALES ->
  detectLanguage {| search := js "?lang=" ++ L ++ js "-" ++ R; href := url |} = L.
Proof.
  intros HL.
  destruct (supported_two_letters L HL) as (c1 & c2 & EL & H1 & H2).
  destruct (get_lang_regional c1 c2 R H1 H2) as [rest Hget].
  rewrite <- EL in Hget.
  apply (detectLanguage_of_value _ L rest HL).
  cbn [search]. rewrite Hget, EL. reflexivity.
Qed.

(** An ASCII letter that is the lower-case letter [c] or its upper case. *)
Lemma letter_not_space (d c : N) :
  d = c \/ d + 0x20 = c -> 0x61 <= c <= 0x7A -> isWhiteSpace d = false.
Proof.
  intros Hd Hc. unfold isWhiteSpace.
  rewrite bool_decide_eq_false_2.
  - simpl. destruct Hd; decide_units; reflexivity.
  - rewrite !elem_of_cons, elem_of_nil. destruct Hd; lia.
Qed.

Lemma letter_lower (d c : N) :
  d = c \/ d + 0x20 = c -> 0x61 <= c <= 0x7A -> lowerUnit d = [c].
Proof.
  intros Hd Hc. unfold lowerUnit.
  destruct Hd as [-> | <-]; decide_units; reflexivity.
Qed.

Lemma urlDecode_cons_ascii (c : N) (bytes : list N) :
  c < 0x80 -> c <> 0x25 -> c <> 0x2B ->
  urlDecode (c :: bytes) = c :: urlDecode bytes.
Proof.
  intros H1 H2 H3. unfold urlDecode, plusToSpace. simpl.
  destruct (N.eqb_spec c 0x2B); [contradiction |].
  destruct (N.eqb_spec c 0x25); [contradiction |].
  simpl. unfold utf8Start.
  destruct (N.leb_spec c 0x7F); [| lia].
  simpl. unfold codeUnitsOf.
  destruct (N.ltb_spec c 0x10000); [reflexivity | lia].
Qed.


(** White space before a value is trimmed away, and white space after
    it. *)
Lemma trimStart_padding (pad s : jsstring) :
  Forall (fun c => isWhiteSpace c = true) pad ->
  trimStart (pad ++ s) = trimStart s.
Proof.
  induction 1 as [|c pad Hc _ IH]; [reflexivity |].
  cbn [app trimStart]. by rewrite Hc.
Qed.

Lemma trimEnd_padding (pad : jsstring) :
  Forall (fun c => isWhiteSpace c = true) pad -> trimEnd pad = [].
Proof.
  intros H. unfold trimEnd.
  assert (Hrev : Forall (fun c => isWhiteSpace c = true) (rev pad)).
  { apply Forall_forall. intros c Hc. rewrite Forall_forall in H.
    apply H. by apply list_elem_of_In, in_rev, list_elem_of_In. }
  rewrite <- (app_nil_r (rev pad)), (trimStart_padding _ _ Hrev).
  reflexivity.
Qed.

(** A value made of white space, two letters in either case, a hyphen and
    any suffix normalises to the two letters in lower case. *)
Lemma normalize_padded_regional (pad rest : jsstring) (d1 d2 c1 c2 : N) :
  Forall (fun c => isWhiteSpace c = true) pad ->
  d1 = c1 \/ d1 + 0x20 = c1 -> d2 = c2 \/ d2 + 0x20 = c2 ->
  0x61 <= c1 <= 0x7A -> 0x61 <= c2 <= 0x7A ->
  normalize (pad ++ d1 :: d2 :: 0x2D :: rest) = [c1; c2].
Proof.
  intros Hpad Hd1 Hd2 H1 H2. unfold normalize, trim.
  rewrite (trimStart_padding _ _ Hpad).
  cbn [trimStart]. rewrite (letter_not_space _ _ Hd1 H1).
  rewrite (trimEnd_cons _ _ (letter_not_space _ _ Hd1 H1)).
  rewrite (trimEnd_cons _ _ (letter_not_space _ _ Hd2 H2)).
  rewrite (trimEnd_cons 0x2D) by (apply isPlain_not_space; by right).
  unfold toLowerCase. cbn [flat_map].
  rewrite (letter_lower _ _ Hd1 H1), (letter_lower _ _ Hd2 H2).
  change (lowerUnit 0x2D) with [0x2D]. cbn [app].
  rewrite (split_cons_other 0x2D c1) by lia.
  rewrite (split_cons_other 0x2D c2) by lia.
  by rewrite split_cons_sep.
Qed.

(** The same without a suffix, with white space after the letters. *)
Lemma normalize_padded (pad pad' : jsstring) (d1 d2 c1 c2 : N) :
  Forall (fun c => isWhiteSpace c = true) pad ->
  Forall (fun c => isWhiteSpace c = true) pad' ->
  d1 = c1 \/ d1 + 0x20 = c1 -> d2 = c2 \/ d2 + 0x20 = c2 ->
  0x61 <= c1 <= 0x7A -> 0x61 <= c2 <= 0x7A ->
  normalize (pad ++ d1 :: d2 :: pad') = [c1; c2].
Proof.
  intros Hpad Hpad' Hd1 Hd2 H1 H2. unfold normalize, trim.
  rewrite (trimStart_padding _ _ Hpad).
  cbn [trimStart]. rewrite (letter_not_space _ _ Hd1 H1).
  rewrite (trimEnd_cons _ _ (letter_not_space _ _ Hd1 H1)).
  rewrite (trimEnd_cons _ _ (letter_not_space _ _ Hd2 H2)).
  rewrite (trimEnd_padding _ Hpad').
  unfold toLowerCase. cbn [flat_map].
  rewrite (letter_lower _ _ Hd1 H1), (letter_lower _ _ Hd2 H2). cbn [app].
  rewrite (split_cons_other 0x2D c1) by lia.
  by rewrite (split_cons_other 0x2D c2) by lia.
Qed.

(** The [lang] value of [?lang=] followed by two letters in either case,
    a hyphen and any suffix starts with the two letters and the hyphen. *)
Lemma get_lang_letters_regional (d1 d2 : N) (R : jsstring) :
  0x41 <= d1 <= 0x7A -> 0x41 <= d2 <= 0x7A ->
  exists rest,
    get (URLSearchParams (js "?lang=" ++ [d1; d2] ++ js "-" ++ R)) (js "lang")
    = Some (d1 :: d2 :: 0x2D :: rest).
Proof.
  intros H1 H2.
  change (js "?lang=" ++ [d1; d2] ++ js "-" ++ R)
    with (0x3F :: 0x6C :: 0x61 :: 0x6E :: 0x67 :: 0x3D :: d1 :: d2 :: 0x2D :: R).
  unfold URLSearchParams. rewrite N.eqb_refl.
  rewrite 8 utf8Encode_cons_ascii by lia.
  destruct (parseUrlencoded_lang (d1 :: d2 :: 0x2D :: utf8Encode R))
    as (tail & more & Hsplit & Hparse).
  change (0x6C :: 0x61 :: 0x6E :: 0x67 :: 0x3D :: d1 :: d2 :: 0x2D :: utf8Encode R)
    with ([0x6C; 0x61; 0x6E; 0x67; 0x3D] ++ d1 :: d2 :: 0x2D :: utf8Encode R).
  rewrite Hparse. simpl get.
  rewrite (split_cons_other 0x26 d1) in Hsplit by lia.
  rewrite (split_cons_other 0x26 d2) in Hsplit by lia.
  rewrite (split_cons_other 0x26 0x2D) in Hsplit by lia.
  simpl in Hsplit. injection Hsplit as <- _.
  rewrite 3 urlDecode_cons_ascii by lia.
  eexists. reflexivity.
Qed.

(** The letters of a supported locale written in either case. *)
Lemma sameLetters_supported (V L : jsstring) :
  L ∈ SUPPORTED_LOCALES -> sameLetters V L ->
  exists d1 d2 c1 c2,
    V = [d1; d2] /\ L = [c1; c2]
    /\ (d1 = c1 \/ d1 + 0x20 = c1) /\ (d2 = c2 \/ d2 + 0x20 = c2)
    /\ 0x61 <= c1 <= 0x7A /\ 0x61 <= c2 <= 0x7A.
Proof.
  intros HL HV.
  destruct (supported_two_letters L HL) as (c1 & c2 & -> & H1 & H2).
  unfold sameLetters in HV.
  apply Forall2_cons_inv_r in HV as (d1 & V1 & Hd1 & HV & ->).
  apply Forall2_cons_inv_r in HV as (d2 & V2 & Hd2 & HV & ->).
  apply Forall2_nil_inv_r in HV as ->.
  by exists d1, d2, c1, c2.
Qed.

(** A [lang] value that normalises to a supported locale gives that
    locale. *)
Lemma detectLanguage_of_normalized (location : Location) (v L : jsstring) :
  L ∈ SUPPORTED_LOCALES -> v <> [] ->
  get (URLSearchParams (search location)) (js "lang") = Some v ->
  normalize v = L ->
  detectLanguage location = L.
Proof.
  intros HL Hv Hget Hnorm.
  unfold detectLanguage, detectLanguage_try. rewrite Hget.
  replace (orElse (Some v) []) with v by (by destruct v).
  change (hd [] (split 0x2D (toLowerCase (trim v)))) with (normalize v).
  rewrite Hnorm. unfold includes. by rewrite bool_decide_eq_true_2.
Qed.

(** C3: for every supported locale L, written V with its letters in
    either case, and every suffix R, [detectLanguage] with the query
    [?lang=V-R] returns L, whatever the rest of the URL; so it does when
    other parameters, none of them named [lang], stand before [lang=V-R]
    in the query, and whenever the [lang] value of the query is V, a
    hyphen and a suffix, with any white space before it; and also
    whenever the value is V alone with any white space around it: the
    value is trimmed, put in lower case and cut at the first hyphen. *)
Theorem detectLanguage_regional_variant (L V R url : jsstring) :
  L ∈ SUPPORTED_LOCALES ->
  sameLetters V L ->
  detectLanguage {| search := js "?lang=" ++ V ++ js "-" ++ R; href := url |} = L
  /\ (forall before : jsstring,
        get (URLSearchParams (js "?" ++ before)) (js "lang") = None ->
        detectLanguage {| search := js "?" ++ before ++ js "&lang=" ++ V
                                    ++ js "-" ++ R;
                          href := url |} = L)
  /\ (forall query pad : jsstring,
        Forall (fun c => isWhiteSpace c = true) pad ->
        get (URLSearchParams query) (js "lang")
        = Some (pad ++ V ++ js "-" ++ R) ->
        detectLanguage {| search := query; href := url |} = L)
  /\ (forall query pad pad' : jsstring,
        Forall (fun c => isWhiteSpace c = true) pad ->
        Forall (fun c => isWhiteSpace c = true) pad' ->
        get (URLSearchParams query) (js "lang") = Some (pad ++ V ++ pad') ->
        detectLanguage {| search := query; href := url |} = L).
Proof.
  intros HL HV.
  destruct (sameLetters_supported V L HL HV)
    as (d1 & d2 & c1 & c2 & -> & EL & Hd1 & Hd2 & H1 & H2).
  assert (R1 : 0x41 <= d1 <= 0x7A) by (destruct Hd1; lia).
  assert (R2 : 0x41 <= d2 <= 0x7A) by (destruct Hd2; lia).
  destruct (get_lang_letters_regional d1 d2 R R1 R2) as [rest Hget].
  assert (Hnorm : forall pad rest,
             Forall (fun c => isWhiteSpace c = true) pad ->
             normalize (pad ++ d1 :: d2 :: 0x2D :: rest) = L).
  { intros pad rest' Hpad. rewrite EL.
    by apply normalize_padded_regional. }
  split; [| split; [| split]].
  - apply (detectLanguage_of_normalized _ (d1 :: d2 :: 0x2D :: rest) L HL);
      [discriminate | exact Hget |].
    exact (Hnorm [] rest (List.Forall_nil _)).
  - intros before Hnone.
    apply (detectLanguage_of_normalized _ (d1 :: d2 :: 0x2D :: rest) L HL);
      [discriminate | | exact (Hnorm [] rest (List.Forall_nil _))].
    cbn [search].
    change (js "?" ++ before ++ js "&lang=" ++ [d1; d2] ++ js "-" ++ R)
      with (0x3F :: (before ++ 0x26 :: js "lang=" ++ [d1; d2] ++ js "-" ++ R)).
    change (js "?" ++ before) with (0x3F :: before) in Hnone.
    change (js "?lang=" ++ [d1; d2] ++ js "-" ++ R)
      with (0x3F :: js "lang=" ++ [d1; d2] ++ js "-" ++ R) in Hget.
    unfold URLSearchParams in *. rewrite N.eqb_refl in *.
    rewrite utf8Encode_app_ascii by lia.
    by rewrite parseUrlencoded_app, (get_app_None _ _ _ Hnone), Hget.
  - intros query pad Hpad Hq.
    apply (detectLanguage_of_normalized _ (pad ++ d1 :: d2 :: 0x2D :: R) L HL);
      [by destruct pad | exact Hq |].
    exact (Hnorm pad R Hpad).
  - intros query pad pad' Hpad Hpad' Hq.
    apply (detectLanguage_of_normalized _ (pad ++ d1 :: d2 :: pad') L HL);
      [by destruct pad | exact Hq |].
    rewrite EL. by apply normalize_padded.
Qed.

Lemma detectLanguage_regional_variant_witness :
  detectLanguage {| search := js "?lang=" ++ js "RU" ++ js "-" ++ js "ru";
                    href := js "https://ifet.example/?lang=RU-ru" |} = js "ru"
  /\ detectLanguage {| search := js "?" ++ js "page=2" ++ js "&lang=" ++ js "Pt"
                                 ++ js "-" ++ js "BR%20";
                       href := js "https://ifet.example/?page=2&lang=Pt-BR%20" |}
     = js "pt"
  /\ detectLanguage {| search := js "?lang=%20%0AZH-Hant";
                       href := js "https://ifet.example/?lang=%20%0AZH-Hant" |}
     = js "zh"
  /\ detectLanguage {| search := js "?lang=%09De%20";
                       href := js "https://ifet.example/?lang=%09De%20" |}
     = js "de".
Proof.
  assert (Hin : forall L, bool_decide (L ∈ SUPPORTED_LOCALES) = true ->
                          L ∈ SUPPORTED_LOCALES)
    by (intros L; apply (bool_decide_eq_true_1 _)).
  assert (Hru : js "ru" ∈ SUPPORTED_LOCALES)
    by (apply Hin; vm_compute; reflexivity).
  assert (Hpt : js "pt" ∈ SUPPORTED_LOCALES)
    by (apply Hin; vm_compute; reflexivity).
  assert (Hzh : js "zh" ∈ SUPPORTED_LOCALES)
    by (apply Hin; vm_compute; reflexivity).
  assert (Hde : js "de" ∈ SUPPORTED_LOCALES)
    by (apply Hin; vm_compute; reflexivity).
  assert (Hupper : forall a b c d : N,
             a + 0x20 = c -> (b = d \/ b + 0x20 = d) -> sameLetters [a; b] [c; d]).
  { intros a b c d Ha Hb. unfold sameLetters.
    constructor; [by right |]. constructor; [exact Hb | constructor]. }
  split; [| split; [| split]].
  - apply (proj1 (detectLanguage_regional_variant (js "ru") (js "RU") (js "ru")
                    (js "https://ifet.example/?lang=RU-ru") Hru
                    (Hupper _ _ _ _ eq_refl (or_intror eq_refl)))).
  - apply (proj1 (proj2 (detectLanguage_regional_variant (js "pt") (js "Pt")
                           (js "BR%20")
                           (js "https://ifet.example/?page=2&lang=Pt-BR%20") Hpt
                           (Hupper _ _ _ _ eq_refl (or_introl eq_refl))))).
    vm_compute. reflexivity.
  - apply (proj1 (proj2 (proj2 (detectLanguage_regional_variant (js "zh")
                                  (js "ZH") (js "Hant")
                                  (js "https://ifet.example/?lang=%20%0AZH-Hant")
                                  Hzh
                                  (Hupper _ _ _ _ eq_refl (or_intror eq_refl)))))
             _ [0x20; 0xA]).
    + repeat constructor.
    + vm_compute. reflexivity.
  - apply (proj2 (proj2 (proj2 (detectLanguage_regional_variant (js "de")
                                  (js "De") []
                                  (js "https://ifet.example/?lang=%09De%20")
                                  Hde
                                  (Hupper _ _ _ _ eq_refl (or_introl eq_refl)))))
             _ [0x9] [0x20]).
    + repeat constructor.
    + repeat constructor.
    + vm_compute. reflexivity.
Defined.

(** The same on the URL itself: [base] is what stands before the query. *)
Lemma beforeHash_app (A B : jsstring) :
  0x23 ∉ A -> beforeHash (A ++ B) = A ++ beforeHash B.
Proof.
  induction A as [|x A IH]; intros HA; [reflexivity |].
  cbn [app beforeHash]. apply not_elem_of_cons in HA as [Hx HA].
  destruct (N.eqb_spec x 0x23); [congruence |]. by rewrite IH.
Qed.

Lemma fromQuestionMark_app (A B : jsstring) :
  0x3F ∉ A -> fromQuestionMark (A ++ 0x3F :: B) = 0x3F :: B.
Proof.
  induction A as [|x A IH]; intros HA; [reflexivity |].
  cbn [app fromQuestionMark]. apply not_elem_of_cons in HA as [Hx HA].
  destruct (N.eqb_spec x 0x3F); [congruence |]. by apply IH.
Qed.

Lemma detectLanguage_regional_variant_url (base L R : jsstring) :
  0x3F ∉ base -> 0x23 ∉ base -> L ∈ SUPPORTED_LOCALES ->
  detectLanguage (locationOf (base ++ js "?lang=" ++ L ++ js "-" ++ R)) = L.
Proof.
  intros Hq Hh HL.
  destruct (supported_two_letters L HL) as (c1 & c2 & EL & H1 & H2).
  assert (Hsearch :
    search (locationOf (base ++ js "?lang=" ++ L ++ js "-" ++ R))
    = js "?lang=" ++ L ++ js "-" ++ beforeHash R).
  { unfold locationOf. cbn [search]. rewrite (beforeHash_app _ _ Hh), EL.
    change (js "?lang=" ++ [c1; c2] ++ js "-" ++ R)
      with ([0x3F; 0x6C; 0x61; 0x6E; 0x67; 0x3D; c1; c2; 0x2D] ++ R).
    rewrite (beforeHash_app _ R).
    - change (base ++ [0x3F; 0x6C; 0x61; 0x6E; 0x67; 0x3D; c1; c2; 0x2D]
                   ++ beforeHash R)
        with (base ++ 0x3F :: [0x6C; 0x61; 0x6E; 0x67; 0x3D; c1; c2; 0x2D]
                   ++ beforeHash R).
      by rewrite (fromQuestionMark_app _ _ Hq).
    - rewrite !elem_of_cons, elem_of_nil. lia. }
  destruct (locationOf (base ++ js "?lang=" ++ L ++ js "-" ++ R))
    as [query url]. cbn [search] in Hsearch. subst query.
  by apply detectLanguage_lang_first.
Qed.

(* --------------------------------------------------------------------- *)
(** ** The default locale *)
(* --------------------------------------------------------------------- *)

Lemma default_supported : DEFAULT_LOCALE ∈ SUPPORTED_LOCALES.
Proof. apply (bool_decide_eq_true_1 _). vm_compute. reflexivity. Qed.

(** The three ways the [try] block ends. *)
Lemma detectLanguage_try_cases (location : Location) :
  detectLanguage_try location
  = if includes SUPPORTED_LOCALES (langOfQuery location)
    then Return (langOfQuery location)
    else match matchLang (href location) with
         | None => Normal
         | Some m1 =>
             match decodeURIComponent m1 with
             | None => Throw {| errorName := js "URIError";
                                errorMessage := js "URI malformed" |}
             | Some decoded =>
                 if includes SUPPORTED_LOCALES (normalize decoded)
                 then Return (normalize decoded)
                 else Normal
             end
         end.
Proof. reflexivity. Qed.

(** C4, as the code has it: [detectLanguage] returns for every location,
    and what it returns is a supported locale; a thrown URIError is
    caught and gives "en"; and when the [lang] value of the query does not
    normalise to a supported locale, the result is "en" unless the first
    [lang=] value found in the whole URL, decoded and normalised, is a
    supported locale, which is then the result. *)
Theorem detectLanguage_defaults (location : Location) :
  detectLanguage location ∈ SUPPORTED_LOCALES
  /\ (forall e, detectLanguage_try location = Throw e ->
                detectLanguage location = js "en")
  /\ (get (URLSearchParams (search location)) (js "lang") = None
      \/ get (URLSearchParams (search location)) (js "lang") = Some [] ->
      langOfQuery location ∉ SUPPORTED_LOCALES)
  /\ (langOfQuery location ∉ SUPPORTED_LOCALES ->
      match matchLang (href location) with
      | None => detectLanguage location = js "en"
      | Some m1 =>
          match decodeURIComponent m1 with
          | None => detectLanguage location = js "en"
          | Some decoded =>
              (normalize decoded ∉ SUPPORTED_LOCALES ->
               detectLanguage location = js "en")
              /\ (normalize decoded ∈ SUPPORTED_LOCALES ->
                  detectLanguage location = normalize decoded)
          end
      end).
Proof.
  unfold detectLanguage. rewrite detectLanguage_try_cases. unfold includes.
  split; [| split; [| split]].
  - case_bool_decide as Hq; [exact Hq |].
    destruct (matchLang (href location)) as [m1|]; [| apply default_supported].
    destruct (decodeURIComponent m1) as [decoded|]; [| apply default_supported].
    case_bool_decide as Hh; [exact Hh | apply default_supported].
  - intros e. case_bool_decide; [discriminate |].
    destruct (matchLang (href location)) as [m1|]; [| discriminate].
    destruct (decodeURIComponent m1) as [decoded|]; [| reflexivity].
    case_bool_decide; discriminate.
  - intros Hget.
    assert (langOfQuery location = []) as ->
      by (unfold langOfQuery; destruct Hget as [-> | ->]; reflexivity).
    apply (bool_decide_eq_false_1 _). vm_compute. reflexivity.
  - intros Hq. rewrite bool_decide_eq_false_2 by exact Hq.
    destruct (matchLang (href location)) as [m1|]; [| reflexivity].
    destruct (decodeURIComponent m1) as [decoded|]; [| reflexivity].
    split; intros Hh.
    + by rewrite bool_decide_eq_false_2.
    + by rewrite bool_decide_eq_true_2.
Qed.

Lemma detectLanguage_defaults_witness :
  detectLanguage (locationOf (js "https://ifet.example/?lang=xx")) = js "en"
  /\ detectLanguage (locationOf (js "https://ifet.example/?lang=%")) = js "en"
  /\ detectLanguage (locationOf (js "https://ifet.example/")) = js "en".
Proof.
  assert (Hno : forall s : jsstring,
             bool_decide (s ∈ SUPPORTED_LOCALES) = false ->
             s ∉ SUPPORTED_LOCALES)
    by (intros s; apply (bool_decide_eq_false_1 _)).
  split; [| split].
  - refine (proj1 (proj2 (proj2 (proj2 (detectLanguage_defaults
               (locationOf (js "https://ifet.example/?lang=xx")))))
               (Hno _ _)) (Hno _ _)); vm_compute; reflexivity.
  - apply (proj1 (proj2 (detectLanguage_defaults
               (locationOf (js "https://ifet.example/?lang=%"))))
             {| errorName := js "URIError"; errorMessage := js "URI malformed" |}).
    vm_compute. reflexivity.
  - pose proof (detectLanguage_defaults
                  (locationOf (js "https://ifet.example/")))
      as (_ & _ & Habsent & Hdefault).
    apply Hdefault, Habsent. left. vm_compute. reflexivity.
Defined.

(** C4 as it is written fails: without a query, with a parameter named
    [LANG] only, and with an empty [lang] parameter followed by a second
    one, the [lang] parameter of the query is absent or empty, and the
    result is "ru", found in the whole URL. *)
Lemma absent_or_empty_lang_is_not_default :
  (search (locationOf (js "https://ifet.example/page#tab=1&lang=ru")) = []
   /\ get (URLSearchParams []) (js "lang") = None
   /\ detectLanguage (locationOf (js "https://ifet.example/page#tab=1&lang=ru"))
      = js "ru")
  /\ (search (locationOf (js "https://ifet.example/?LANG=ru")) = js "?LANG=ru"
      /\ get (URLSearchParams (js "?LANG=ru")) (js "lang") = None
      /\ detectLanguage (locationOf (js "https://ifet.example/?LANG=ru"))
         = js "ru")
  /\ (search (locationOf (js "https://ifet.example/?lang=&lang=ru"))
      = js "?lang=&lang=ru"
      /\ get (URLSearchParams (js "?lang=&lang=ru")) (js "lang") = Some []
      /\ detectLanguage (locationOf (js "https://ifet.example/?lang=&lang=ru"))
         = js "ru")
  /\ js "ru" <> js "en".
Proof.
  repeat split; try (vm_compute; reflexivity).
  intros H. vm_compute in H. discriminate H.
Qed.

(** What the claims say of other URLs holds on these: a regional variant,
    upper case and white space, an unknown code, bytes that are not UTF-8,
    and an escape that makes [decodeURIComponent] throw. *)
Example detectLanguage_samples :
  detectLanguage (locationOf (js "https://ifet.example/?lang=ru-RU")) = js "ru"
  /\ detectLanguage (locationOf (js "https://ifet.example/?a=1&lang=+PT-br+"))
     = js "pt"
  /\ detectLanguage (locationOf (js "https://ifet.example/?lang=tlh")) = js "en"
  /\ detectLanguage (locationOf (js "https://ifet.example/?lang=%FF%FE"))
     = js "en"
  /\ detectLanguage_try (locationOf (js "https://ifet.example/?LANG=ru-%FF"))
     = Throw {| errorName := js "URIError"; errorMessage := js "URI malformed" |}
  /\ detectLanguage (locationOf (js "https://ifet.example/?LANG=ru-%FF"))
     = js "en".
Proof. repeat split; vm_compute; reflexivity. Qed.

(** The lower case of U+212A KELVIN SIGN is the letter k: the value
    [%E2%84%AAo], which is not ASCII, is read as "ko". *)
Example detectLanguage_kelvin_sign :
  detectLanguage (locationOf (js "https://ifet.example/?lang=%E2%84%AAo"))
  = js "ko".
Proof. vm_compute. reflexivity. Qed.

(* ===================================================================== *)
(** * Further properties of api/ifet/feedback.js *)
(* ===================================================================== *)

(* --------------------------------------------------------------------- *)
(** ** [trim] *)
(* --------------------------------------------------------------------- *)

Lemma trimStart_head (s r : jsstring) (c : N) :
  trimStart s = c :: r -> isWhiteSpace c = false.
Proof.
  induction s as [|x s IH]; simpl; [discriminate |].
  destruct (isWhiteSpace x) eqn:Hx; [exact IH |].
  by intros [= <- _].
Qed.

Lemma trimStart_fixed (c : N) (r : jsstring) :
  isWhiteSpace c = false -> trimStart (c :: r) = c :: r.
Proof. intros H. simpl. by rewrite H. Qed.

Lemma trimStart_idempotent (s : jsstring) :
  trimStart (trimStart s) = trimStart s.
Proof.
  destruct (trimStart s) as [|c r] eqn:E; [reflexivity |].
  apply trimStart_fixed. by apply (trimStart_head s r).
Qed.

Lemma trimStart_snoc_cases (l : jsstring) (c : N) :
  trimStart (l ++ [c])
  = match trimStart l with
    | [] => if isWhiteSpace c then [] else [c]
    | x :: l' => (x :: l') ++ [c]
    end.
Proof.
  induction l as [|x l IH]; simpl; [by destruct (isWhiteSpace c) |].
  destruct (isWhiteSpace x); [exact IH | reflexivity].
Qed.

(** [trimEnd] from the left: a character is dropped when it is white
    space and nothing is left of what follows it. *)
Lemma trimEnd_cons_cases (c : N) (r : jsstring) :
  trimEnd (c :: r)
  = match trimEnd r with
    | [] => if isWhiteSpace c then [] else [c]
    | x :: r' => c :: x :: r'
    end.
Proof.
  unfold trimEnd. cbn [rev]. rewrite trimStart_snoc_cases.
  destruct (trimStart (rev r)) as [|x l'] eqn:E.
  - by destruct (isWhiteSpace c).
  - rewrite rev_unit.
    destruct (rev (x :: l')) as [|y r'] eqn:E'; [| reflexivity].
    apply (f_equal (@length N)) in E'. rewrite length_rev in E'.
    discriminate E'.
Qed.

Lemma trimEnd_idempotent (s : jsstring) : trimEnd (trimEnd s) = trimEnd s.
Proof.
  unfold trimEnd. by rewrite rev_involutive, trimStart_idempotent.
Qed.

Lemma trimEnd_snoc (l : jsstring) (c : N) :
  isWhiteSpace c = false -> trimEnd (l ++ [c]) = l ++ [c].
Proof.
  intros H. unfold trimEnd. rewrite rev_unit, (trimStart_fixed _ _ H).
  simpl. by rewrite rev_involutive.
Qed.

Lemma trim_head (s r : jsstring) (c : N) :
  trim s = c :: r -> isWhiteSpace c = false.
Proof.
  unfold trim. destruct (trimStart s) as [|x y] eqn:E; [discriminate |].
  pose proof (trimStart_head s y x E) as Hx.
  rewrite trimEnd_cons_cases, Hx.
  destruct (trimEnd y); by intros [= <- _].
Qed.

(** A second [trim] changes nothing. *)
Lemma trim_idempotent (s : jsstring) : trim (trim s) = trim s.
Proof.
  destruct (trim s) as [|c r] eqn:E; [reflexivity |].
  pose proof (trim_head s r c E) as Hc.
  unfold trim. rewrite (trimStart_fixed _ _ Hc), <- E.
  unfold trim. apply trimEnd_idempotent.
Qed.

Lemma trim_marked (m : nat) (s : jsstring) :
  (m < length (trim s))%nat ->
  trim (take m (trim s) ++ ELLIPSIS) = take m (trim s) ++ ELLIPSIS.
Proof.
  intros Hm. unfold trim at 1.
  assert (Hstart : trimStart (take m (trim s) ++ ELLIPSIS)
                   = take m (trim s) ++ ELLIPSIS).
  { destruct (trim s) as [|c r] eqn:E; [simpl in Hm; lia |].
    destruct m; [reflexivity |].
    simpl. by rewrite (trim_head s r c E). }
  rewrite Hstart. by apply trimEnd_snoc.
Qed.

(* --------------------------------------------------------------------- *)
(** ** [safeStr] twice *)
(* --------------------------------------------------------------------- *)

Lemma safeStrOfString_trimmed (t : jsstring) (m : nat) :
  trim t = t ->
  safeStrOfString t m = if (m <? length t)%nat then take m t ++ ELLIPSIS else t.
Proof. intros H. unfold safeStrOfString. by rewrite H. Qed.

(** X15: [safeStr] after [safeStr] is [safeStr] with the smaller of the
    two limits; with the same limit a second [safeStr] changes nothing.
    The handler cuts every field once and [formatMessage] cuts it again. *)
Theorem safeStr_twice_is_smaller_limit (s : jsstring) (m1 m2 : nat) :
  safeStrOfString (safeStrOfString s m1) m2 = safeStrOfString s (Nat.min m1 m2).
Proof.
  destruct (Nat.le_gt_cases (length (trim s)) m1) as [Hshort|Hlong].
  - rewrite (safeStrOfString_short s m1 Hshort).
    rewrite (safeStrOfString_trimmed _ m2 (trim_idempotent s)).
    destruct (Nat.ltb_spec m2 (length (trim s))) as [H2|H2].
    + rewrite Nat.min_r by lia.
      by destruct (safeStrOfString_long s m2 H2) as [-> _].
    + symmetry. apply safeStrOfString_short. lia.
  - destruct (safeStrOfString_long s m1 Hlong) as [-> _].
    rewrite (safeStrOfString_trimmed _ m2 (trim_marked m1 s Hlong)).
    assert (Hlen : length (take m1 (trim s) ++ ELLIPSIS) = S m1)
      by (rewrite length_app, length_take; simpl; lia).
    rewrite Hlen.
    destruct (Nat.ltb_spec m2 (S m1)) as [H2|H2].
    + rewrite Nat.min_r by lia.
      assert (Hm2 : (m2 < length (trim s))%nat) by lia.
      destruct (safeStrOfString_long s m2 Hm2) as [-> _].
      f_equal. rewrite take_app_le by (rewrite length_take; lia).
      rewrite take_take. f_equal. lia.
    + rewrite Nat.min_l by lia.
      by destruct (safeStrOfString_long s m1 Hlong) as [-> _].
Qed.

(** X16: what [safeStr] returns has no white space at either end, so that
    trimming it again changes nothing; for [null] and [undefined] it is
    the empty string, not their names. *)
Theorem safeStr_is_trimmed (v : jsvalue) (max : nat) (s : jsstring) :
  safeStr v max = Ok s ->
  trim s = s /\ (v = Null \/ v = Undefined -> s = []).
Proof.
  unfold safeStr.
  destruct (match v with Undefined | Null => Ok [] | _ => toString v end)
    as [str|e] eqn:Hstr; simpl; [| discriminate].
  intros [= <-]. split.
  - destruct (Nat.le_gt_cases (length (trim str)) max) as [H|H].
    + rewrite (safeStrOfString_short str max H). apply trim_idempotent.
    + destruct (safeStrOfString_long str max H) as [-> _].
      by apply trim_marked.
  - intros [-> | ->]; injection Hstr as <-; reflexivity.
Qed.

Lemma safeStr_is_trimmed_witness :
  trim (js "ab" ++ ELLIPSIS) = js "ab" ++ ELLIPSIS.
Proof.
  apply (safeStr_is_trimmed (Str (js "  abc d ")) 2 (js "ab" ++ ELLIPSIS)).
  vm_compute. reflexivity.
Defined.

(* --------------------------------------------------------------------- *)
(** ** The allow-list and the CORS headers *)
(* --------------------------------------------------------------------- *)

(** X11: [corsHeaders] echoes the request origin exactly when it is in a
    configured list that has no "*", or when the origin is itself "*" and
    the list is empty or holds "*"; with no list at all, or "*" in it, the
    header is "*" whatever the origin. *)
Theorem corsHeaders_echoes_listed_origin
    (requestOrigin : jsstring) (allowedOrigins : list jsstring) :
  (corsHeaders requestOrigin allowedOrigins !! js "Access-Control-Allow-Origin"
   = Some requestOrigin
   <-> (requestOrigin ∈ allowedOrigins /\ js "*" ∉ allowedOrigins)
       \/ (requestOrigin = js "*"
           /\ (allowedOrigins = [] \/ js "*" ∈ allowedOrigins)))
  /\ (allowedOrigins = [] \/ js "*" ∈ allowedOrigins ->
      corsHeaders requestOrigin allowedOrigins
        !! js "Access-Control-Allow-Origin" = Some (js "*")).
Proof.
  rewrite corsHeaders_allow. unfold includes. split.
  - destruct allowedOrigins as [|o rest].
    { cbn [length Nat.eqb]. split.
      - intros [= <-]. right. split; [reflexivity | by left].
      - intros [[Hin _] | [-> _]]; [by apply elem_of_nil in Hin | reflexivity]. }
    cbn [length Nat.eqb].
    destruct (decide (js "*" ∈ o :: rest)) as [Hstar|Hstar].
    { rewrite (bool_decide_eq_true_2 _ Hstar). split.
      - intros [= <-]. right. split; [reflexivity | by right].
      - intros [[_ Hno] | [-> _]]; [contradiction | reflexivity]. }
    rewrite (bool_decide_eq_false_2 _ Hstar).
    destruct (decide (requestOrigin ∈ o :: rest)) as [Hin|Hin].
    { rewrite (bool_decide_eq_true_2 _ Hin). split; [by left | reflexivity]. }
    rewrite (bool_decide_eq_false_2 _ Hin). cbn [hd]. split.
    + intros [= ->]. exfalso. apply Hin. left.
    + intros [[Hyes _] | [_ [Hnil | Hyes]]];
        [contradiction | discriminate | contradiction].
  - intros [-> | Hstar]; [reflexivity |].
    destruct allowedOrigins as [|o rest]; [reflexivity |].
    cbn [length Nat.eqb]. by rewrite (bool_decide_eq_true_2 _ Hstar).
Qed.

Lemma corsHeaders_echoes_listed_origin_witness :
  corsHeaders (js "https://www.ifet.example")
              [js "https://ifet.example"; js "https://www.ifet.example"]
    !! js "Access-Control-Allow-Origin" = Some (js "https://www.ifet.example")
  /\ corsHeaders (js "https://evil.example") [js "https://ifet.example"]
       !! js "Access-Control-Allow-Origin" <> Some (js "https://evil.example")
  /\ corsHeaders (js "https://evil.example") []
       !! js "Access-Control-Allow-Origin" = Some (js "*").
Proof.
  split; [| split].
  - apply (proj1 (corsHeaders_echoes_listed_origin _ _)). left. split.
    + apply (bool_decide_eq_true_1 _). vm_compute. reflexivity.
    + apply (bool_decide_eq_false_1 _). vm_compute. reflexivity.
  - intros H.
    apply (proj1 (corsHeaders_echoes_listed_origin _ _)) in H
      as [[Hin _] | [Hstar _]].
    + revert Hin. apply (bool_decide_eq_false_1 _). vm_compute. reflexivity.
    + vm_compute in Hstar. discriminate Hstar.
  - apply (proj2 (corsHeaders_echoes_listed_origin _ _)). by left.
Defined.

Lemma corsHeaders_allowed (requestOrigin : jsstring)
    (allowedOrigins : list jsstring) :
  exists allow,
    corsHeaders requestOrigin allowedOrigins !! js "Access-Control-Allow-Origin"
    = Some allow
    /\ (allow = js "*" \/ allow ∈ allowedOrigins).
Proof.
  eexists. split; [apply corsHeaders_allow |].
  unfold includes. destruct allowedOrigins as [|o rest]; [by left |].
  cbn [length Nat.eqb hd]. repeat case_bool_decide.
  - by left.
  - by right.
  - right. apply list_elem_of_here.
Qed.

Lemma json_headers_cors (data : responseBody) (requestOrigin : jsstring)
    (allowedOrigins : list jsstring) (st : N) (name : jsstring) :
  is_Some (corsHeaders requestOrigin allowedOrigins !! name) ->
  headers (json data (corsHeaders requestOrigin allowedOrigins) st) !! name
  = corsHeaders requestOrigin allowedOrigins !! name.
Proof.
  intros [x Hx]. unfold json. cbn [headers].
  rewrite Hx. by apply lookup_union_Some_l.
Qed.

(** X12: every answer of the handler, whatever the method and however the
    request ends, carries an Access-Control-Allow-Origin header, which is
    "*" or one of the origins of the configured list. *)
Theorem handler_always_sends_cors
    (fetch : telegramCall -> fetchOutcome) (env : Env) (request : Request) :
  exists allow,
    headers (fst (handler fetch env request)) !! js "Access-Control-Allow-Origin"
    = Some allow
    /\ (allow = js "*" \/ allow ∈ getAllowedOrigins env).
Proof.
  destruct (corsHeaders_allowed (orElse (originHeader request) [])
              (getAllowedOrigins env)) as (allow & Hallow & Hin).
  exists allow. split; [| exact Hin].
  assert (Hjson : forall data st,
    headers (json data (corsHeaders (orElse (originHeader request) [])
                          (getAllowedOrigins env)) st)
      !! js "Access-Control-Allow-Origin" = Some allow).
  { intros data st. rewrite json_headers_cors; [exact Hallow |].
    rewrite Hallow. by eexists. }
  unfold handler.
  repeat match goal with
         | |- context [if ?b then _ else _] => destruct b
         end; cbn [fst]; try apply Hjson; try exact Hallow.
  destruct (handlerTry fetch env request) as [[?|e] calls]; apply Hjson.
Qed.

(** X13: the origins [getAllowedOrigins] returns are never empty and have
    no white space at either end. *)
Theorem getAllowedOrigins_entries_trimmed (env : Env) (origin : jsstring) :
  origin ∈ getAllowedOrigins env -> origin <> [] /\ trim origin = origin.
Proof.
  unfold getAllowedOrigins.
  destruct (negb (nonEmpty _) || bool_decide _).
  - intros H. apply list_elem_of_singleton in H as ->.
    split; [discriminate | vm_compute; reflexivity].
  - intros H. apply list_elem_of_In, filter_In in H as [Hin Hne].
    apply in_map_iff in Hin as (piece & <- & _).
    split; [by destruct (trim piece) | apply trim_idempotent].
Qed.

Lemma getAllowedOrigins_entries_trimmed_witness :
  js "https://b.example" <> [] /\ trim (js "https://b.example") = js "https://b.example".
Proof.
  apply (getAllowedOrigins_entries_trimmed
           {| BOT_TOKEN := None; CHAT_ID := None; ALLOWED_ORIGIN := None;
              ALLOWED_ORIGINS := Some (js " https://a.example, ,https://b.example ") |}).
  apply (bool_decide_eq_true_1 _). vm_compute. reflexivity.
Defined.

Lemma trimStart_Forall (P : N -> Prop) (s : jsstring) :
  Forall P s -> Forall P (trimStart s).
Proof.
  induction 1 as [|c r Hc Hr IH]; simpl; [constructor |].
  destruct (isWhiteSpace c); [exact IH | by constructor].
Qed.

Lemma trim_Forall (P : N -> Prop) (s : jsstring) :
  Forall P s -> Forall P (trim s).
Proof.
  intros H. unfold trim, trimEnd.
  apply Forall_forall. intros c Hc.
  apply list_elem_of_In, in_rev in Hc.
  pose proof (trimStart_Forall P _ H) as H1.
  assert (H2 : Forall P (rev (trimStart s))).
  { apply Forall_forall. intros x Hx.
    apply list_elem_of_In, in_rev, list_elem_of_In in Hx.
    by apply (proj1 (Forall_forall _ _) H1). }
  apply (proj1 (Forall_forall _ _) (trimStart_Forall P _ H2)).
  by apply list_elem_of_In.
Qed.

Lemma trim_white (s : jsstring) :
  Forall (fun c => isWhiteSpace c = true) s -> trim s = [].
Proof.
  intros H. assert (trimStart s = []) as E.
  { induction H as [|c r Hc _ IH]; simpl; [reflexivity | by rewrite Hc]. }
  unfold trim. by rewrite E.
Qed.

Lemma split_separators (sep : N) (s : jsstring) :
  Forall (fun c => c = sep \/ isWhiteSpace c = true) s ->
  Forall (Forall (fun c => isWhiteSpace c = true)) (split sep s).
Proof.
  induction 1 as [|c r Hc _ IH]; simpl; [by repeat constructor |].
  destruct (N.eqb_spec c sep) as [E|E]; [by constructor |].
  destruct Hc as [Hc|Hc]; [contradiction |].
  destruct (split sep r) as [|h t]; [by repeat constructor |].
  apply Forall_cons in IH as [Hh Ht]. by repeat constructor.
Qed.

Lemma filter_trim_white (pieces : list jsstring) :
  Forall (Forall (fun c => isWhiteSpace c = true)) pieces ->
  List.filter nonEmpty (map trim pieces) = [].
Proof.
  induction 1 as [|p r Hp _ IH]; simpl; [reflexivity |].
  by rewrite (trim_white p Hp).
Qed.

(** X14: when the configured value of the allow-list has only commas and
    white space, no origin is left in the list and the header is "*" for
    every origin, as if nothing were configured. *)
Theorem separators_only_allow_every_origin
    (env : Env) (requestOrigin : jsstring) :
  Forall (fun c => c = 0x2C \/ isWhiteSpace c = true)
         (orElse (ALLOWED_ORIGINS env) (orElse (ALLOWED_ORIGIN env) (js "*"))) ->
  corsHeaders requestOrigin (getAllowedOrigins env)
    !! js "Access-Control-Allow-Origin" = Some (js "*").
Proof.
  intros H. apply (trim_Forall _ _) in H.
  assert (Hlist : getAllowedOrigins env = [js "*"] \/ getAllowedOrigins env = []).
  { unfold getAllowedOrigins.
    destruct (negb (nonEmpty _) || bool_decide _); [by left | right].
    apply filter_trim_white, split_separators, H. }
  rewrite corsHeaders_allow.
  destruct Hlist as [-> | ->]; reflexivity.
Qed.

Lemma separators_only_allow_every_origin_witness :
  corsHeaders (js "https://evil.example")
    (getAllowedOrigins {| BOT_TOKEN := None; CHAT_ID := None;
                          ALLOWED_ORIGIN := Some (js "https://ifet.example");
                          ALLOWED_ORIGINS := Some (js " , ,") |})
    !! js "Access-Control-Allow-Origin" = Some (js "*").
Proof.
  apply separators_only_allow_every_origin.
  apply Forall_forall. intros c Hc. vm_compute in Hc.
  repeat (apply elem_of_cons in Hc as [-> | Hc]; [auto |]).
  by apply elem_of_nil in Hc.
Defined.

(* --------------------------------------------------------------------- *)
(** ** What is sent to the bot API *)
(* --------------------------------------------------------------------- *)

Lemma handler_calls (fetch : telegramCall -> fetchOutcome) (env : Env)
    (request : Request) :
  snd (handler fetch env request) = []
  \/ method request = js "POST"
     /\ ~ missing (BOT_TOKEN env) /\ ~ missing (CHAT_ID env)
     /\ snd (handler fetch env request) = snd (handlerTry fetch env request).
Proof.
  unfold handler.
  destruct (bool_decide (method request = js "GET")); [by left |].
  destruct (bool_decide (method request = js "OPTIONS")); [by left |].
  case_bool_decide as Hm; [| by left]. cbn [negb].
  destruct (nonEmpty (default [] (BOT_TOKEN env))) eqn:Hb; [| by left].
  destruct (nonEmpty (default [] (CHAT_ID env))) eqn:Hc; [| by left].
  right. cbn [negb orb].
  split; [exact Hm |].
  split; [intros H; apply nonEmpty_default in H; congruence |].
  split; [intros H; apply nonEmpty_default in H; congruence |].
  destruct (handlerTry fetch env request) as [[?|?] calls]; reflexivity.
Qed.

(** X18: the handler contacts the bot API at most once for a request, and
    not at all for another method than POST, without BOT_TOKEN or CHAT_ID,
    or when reading the submission throws. *)
Theorem handler_calls_at_most_once
    (fetch : telegramCall -> fetchOutcome) (env : Env) (request : Request) :
  (length (snd (handler fetch env request)) <= 1)%nat
  /\ (method request <> js "POST"
      \/ missing (BOT_TOKEN env) \/ missing (CHAT_ID env)
      \/ (exists e, readSubmission request = Thrown e) ->
      snd (handler fetch env request) = []).
Proof.
  destruct (handler_calls fetch env request) as [-> | (Hm & Hb & Hc & ->)].
  - split; [simpl; lia | reflexivity].
  - rewrite handlerTry_calls. split.
    + destruct (readSubmission request) as [[p [f|]]|e]; simpl; lia.
    + intros [H | [H | [H | [e He]]]]; try contradiction.
      by rewrite He.
Qed.

Lemma handler_calls_at_most_once_witness :
  snd (handler fetchOk sampleEnv deleteRequest) = []
  /\ snd (handler fetchOk sampleEnv malformedJsonRequest) = [].
Proof.
  split.
  - apply (proj2 (handler_calls_at_most_once fetchOk sampleEnv deleteRequest)).
    left. intros H. vm_compute in H. discriminate H.
  - apply (proj2 (handler_calls_at_most_once fetchOk sampleEnv
                    malformedJsonRequest)).
    right. right. right. exists malformedJson. vm_compute. reflexivity.
Defined.

Lemma safeStr_falsy (v : jsvalue) (max : nat) :
  toBoolean v = false -> safeStr (or v (Str [])) max = Ok [].
Proof. intros H. unfold or. rewrite H. reflexivity. Qed.

(** X19: a JSON submission in which the six fields are missing or falsy is
    not refused: a configured POST forwards it as one sendMessage whose
    text is the heading with the type "unknown". *)
Theorem empty_submission_is_forwarded
    (fetch : telegramCall -> fetchOutcome) (env : Env) (request : Request)
    (body : jsonBody) :
  method request = js "POST" ->
  ~ missing (BOT_TOKEN env) -> ~ missing (CHAT_ID env) ->
  ~ isMultipart request ->
  jsonData request = Ok body ->
  Forall (fun name => toBoolean (property body name) = false)
         [js "type"; js "lang"; js "email"; js "message"; js "timestamp";
          js "userAgent"] ->
  snd (handler fetch env request)
  = [tgSendMessage env ([0xD83D; 0xDCDD] ++ js " IFET feedback: unknown")].
Proof.
  intros Hm Hb Hc Hct Hjson Hfalsy.
  rewrite (handler_post_calls _ _ _ Hm Hb Hc), handlerTry_calls.
  unfold readSubmission. unfold isMultipart in Hct.
  destruct (strIncludes _ _); [congruence |].
  rewrite Hjson. cbn [mbind result_bind]. unfold buildPayload.
  apply Forall_cons in Hfalsy as [H1 Hfalsy].
  apply Forall_cons in Hfalsy as [H2 Hfalsy].
  apply Forall_cons in Hfalsy as [H3 Hfalsy].
  apply Forall_cons in Hfalsy as [H4 Hfalsy].
  apply Forall_cons in Hfalsy as [H5 Hfalsy].
  apply Forall_cons in Hfalsy as [H6 _].
  rewrite (safeStr_falsy _ _ H1), (safeStr_falsy _ _ H2), (safeStr_falsy _ _ H3),
    (safeStr_falsy _ _ H4), (safeStr_falsy _ _ H5), (safeStr_falsy _ _ H6).
  reflexivity.
Qed.

Lemma empty_submission_is_forwarded_witness :
  snd (handler fetchOk sampleEnv
         {| method := js "POST"; originHeader := None;
            contentTypeHeader := Some (js "application/json");
            formData := Thrown malformedJson; jsonData := Ok JsonOther |})
  = [tgSendMessage sampleEnv ([0xD83D; 0xDCDD] ++ js " IFET feedback: unknown")].
Proof.
  apply (empty_submission_is_forwarded fetchOk sampleEnv _ JsonOther).
  - reflexivity.
  - intros [H|H]; discriminate H.
  - intros [H|H]; discriminate H.
  - unfold isMultipart. vm_compute. discriminate.
  - reflexivity.
  - repeat constructor.
Defined.

Lemma list_sum_cons (a : nat) (l : list nat) :
  list_sum (a :: l) = (a + list_sum l)%nat.
Proof. reflexivity. Qed.

Lemma join_LF_length (lines : list jsstring) :
  lines <> [] ->
  (length (join LF lines) + 1
   = list_sum (map (fun line => S (length line)) lines))%nat.
Proof.
  induction lines as [|x l IH]; [congruence |]. intros _.
  destruct l as [|y l]; [simpl; lia |].
  change (join LF (x :: y :: l)) with (x ++ LF ++ join LF (y :: l)).
  rewrite !length_app. cbn [map]. rewrite list_sum_cons.
  specialize (IH ltac:(discriminate)). cbn [map] in IH.
  simpl length at 2. lia.
Qed.

Lemma pushIf_length (present prefix field : jsstring) (max : nat) :
  (list_sum (map (fun line => S (length line)) (pushIf present prefix field max))
   <= S (length prefix + (max + 1)))%nat.
Proof.
  unfold pushIf. destruct (nonEmpty present); cbn [map]; [| simpl; lia].
  rewrite list_sum_cons, length_app. simpl list_sum.
  pose proof (safeStrOfString_length field max). lia.
Qed.

(** The text of a submission has at most 4139 code units. *)
Lemma formatMessage_length (payload : Payload) :
  (length (formatMessage payload) <= 4139)%nat.
Proof.
  unfold formatMessage.
  pose proof (join_LF_length
    ([[0xD83D; 0xDCDD] ++ js " IFET feedback: "
      ++ safeStrOfString (orElse (Some (type payload)) (js "unknown")) 40]
     ++ pushIf (lang payload) ([0xD83C; 0xDF10] ++ js " lang: ") (lang payload) 20
     ++ pushIf (email payload) ([0x2709; 0xFE0F] ++ js " email: ")
               (email payload) 200
     ++ pushIf (userAgent payload) ([0xD83E; 0xDDED] ++ js " ua: ")
               (userAgent payload) 240
     ++ pushIf (message payload) LF (message payload) 3500
     ++ pushIf (timestamp payload) (LF ++ [0x23F1] ++ js " ")
               (timestamp payload) 80) ltac:(discriminate)) as Hjoin.
  rewrite !map_app, !list_sum_app in Hjoin.
  pose proof (pushIf_length (lang payload) ([0xD83C; 0xDF10] ++ js " lang: ")
                (lang payload) 20) as H1.
  pose proof (pushIf_length (email payload) ([0x2709; 0xFE0F] ++ js " email: ")
                (email payload) 200) as H2.
  pose proof (pushIf_length (userAgent payload) ([0xD83E; 0xDDED] ++ js " ua: ")
                (userAgent payload) 240) as H3.
  pose proof (pushIf_length (message payload) LF (message payload) 3500) as H4.
  pose proof (pushIf_length (timestamp payload) (LF ++ [0x23F1] ++ js " ")
                (timestamp payload) 80) as H5.
  pose proof (safeStrOfString_length
                (orElse (Some (type payload)) (js "unknown")) 40) as H0.
  change (length ([0xD83C; 0xDF10] ++ js " lang: ")) with 9%nat in H1.
  change (length ([0x2709; 0xFE0F] ++ js " email: ")) with 10%nat in H2.
  change (length ([0xD83E; 0xDDED] ++ js " ua: ")) with 7%nat in H3.
  change (length LF) with 1%nat in H4.
  change (length (LF ++ [0x23F1] ++ js " ")) with 3%nat in H5.
  cbn [map] in Hjoin. rewrite list_sum_cons in Hjoin.
  change (list_sum []) with 0%nat in Hjoin.
  rewrite (length_app [0xD83D; 0xDCDD]), (length_app (js " IFET feedback: "))
    in Hjoin.
  change (length [0xD83D; 0xDCDD]) with 2%nat in Hjoin.
  change (length (js " IFET feedback: ")) with 16%nat in Hjoin.
  lia.
Qed.

(** X17: whatever the request, the text of a sendMessage has at most 4139
    code units and the caption of a sendDocument at most 951. *)
Theorem handler_sends_bounded_text
    (fetch : telegramCall -> fetchOutcome) (env : Env) (request : Request)
    (call : telegramCall) :
  call ∈ snd (handler fetch env request) ->
  match call with
  | SendMessage _ _ text => (length text <= 4139)%nat
  | SendDocument _ _ caption _ _ => (length caption <= 951)%nat
  end.
Proof.
  destruct (handler_calls fetch env request) as [-> | (_ & _ & _ & ->)];
    [by intros H; apply elem_of_nil in H |].
  rewrite handlerTry_calls.
  destruct (readSubmission request) as [[p [f|]]|e];
    intros H; try (by apply elem_of_nil in H);
    apply list_elem_of_singleton in H as ->;
    unfold tgSendDocument, tgSendMessage.
  - pose proof (safeStrOfString_length (formatMessage p) 950). lia.
  - apply formatMessage_length.
Qed.

Lemma handler_sends_bounded_text_witness :
  (length (safeStrOfString
             (formatMessage {| type := []; lang := []; email := [];
                               message := js "hello"; timestamp := [];
                               userAgent := [] |}) 950) <= 951)%nat.
Proof.
  apply (handler_sends_bounded_text fetchOk sampleEnv attachmentRequest
           (tgSendDocument sampleEnv sampleFile
              (formatMessage {| type := []; lang := []; email := [];
                                message := js "hello"; timestamp := [];
                                userAgent := [] |}))).
  replace (snd (handler fetchOk sampleEnv attachmentRequest))
    with [tgSendDocument sampleEnv sampleFile
            (formatMessage {| type := []; lang := []; email := [];
                              message := js "hello"; timestamp := [];
                              userAgent := [] |})]
    by (vm_compute; reflexivity).
  apply list_elem_of_here.
Defined.

(** X20: the answer to GET shows of BOT_TOKEN and CHAT_ID only whether
    they are set: two environments with the same allow-list in which the
    same variables are set get the same answer, whatever their values,
    whatever the body of the request and whatever the bot API would do;
    and the bot API is not called. *)
Theorem health_check_hides_secrets
    (fetch fetch' : telegramCall -> fetchOutcome) (env env' : Env)
    (request request' : Request) :
  method request = js "GET" -> method request' = js "GET" ->
  originHeader request = originHeader request' ->
  ALLOWED_ORIGIN env = ALLOWED_ORIGIN env' ->
  ALLOWED_ORIGINS env = ALLOWED_ORIGINS env' ->
  (missing (BOT_TOKEN env) <-> missing (BOT_TOKEN env')) ->
  (missing (CHAT_ID env) <-> missing (CHAT_ID env')) ->
  handler fetch env request = handler fetch' env' request'
  /\ snd (handler fetch env request) = []
  /\ status (fst (handler fetch env request)) = 200.
Proof.
  intros Hm Hm' Ho Ha1 Ha2 Hb Hc.
  assert (Hflag : forall v v' : option jsstring,
             (missing v <-> missing v') ->
             nonEmpty (default [] v) = nonEmpty (default [] v')).
  { intros v v' H.
    destruct (nonEmpty (default [] v)) eqn:E, (nonEmpty (default [] v')) eqn:E';
      try reflexivity.
    - apply nonEmpty_default, H, nonEmpty_default in E'. congruence.
    - apply nonEmpty_default, H, nonEmpty_default in E. congruence. }
  unfold handler, getAllowedOrigins. rewrite Hm, Hm', Ho, Ha1, Ha2.
  rewrite (Hflag _ _ Hb), (Hflag _ _ Hc).
  rewrite bool_decide_eq_true_2 by reflexivity. by repeat split.
Qed.

Lemma health_check_hides_secrets_witness :
  handler fetchOk sampleEnv
    {| method := js "GET"; originHeader := None; contentTypeHeader := None;
       formData := Thrown malformedJson; jsonData := Thrown malformedJson |}
  = handler fetchForbidden
      {| BOT_TOKEN := Some (js "999:zzz"); CHAT_ID := Some (js "-7");
         ALLOWED_ORIGIN := None; ALLOWED_ORIGINS := None |}
      {| method := js "GET"; originHeader := None;
         contentTypeHeader := Some (js "text/plain");
         formData := Thrown malformedJson; jsonData := Ok JsonOther |}.
Proof.
  apply (health_check_hides_secrets fetchOk fetchForbidden sampleEnv);
    try reflexivity.
  - split; intros [H|H]; discriminate H.
  - split; intros [H|H]; discriminate H.
Defined.

(* ===================================================================== *)
(** * Further properties of ifet/lang.js: page translation *)
(* ===================================================================== *)

Section Substitution.

Variables (platform : Platform) (translations : Translations)
          (lang : jsstring).

Lemma normal_no_gate (document : Document) :
  snd (translatePage platform translations lang document) = Normal ->
  comingSoonGate translations lang = false.
Proof.
  unfold translatePage. destruct (comingSoonGate translations lang);
    [| reflexivity].
  by destruct (setBodyInnerHTML _ _).
Qed.

(** What a call that ends without exception leaves at the place of an
    element that stays in the document: the element after the walk, with
    the [lang] attribute when it is the root. *)
Lemma translatePage_normal_at (document : Document) (e : element)
    (path : list nat) :
  snd (translatePage platform translations lang document) = Normal ->
  subtree (documentElement document) path = Some e ->
  staysBelow platform translations lang (kind document)
             (documentElement document) path = true ->
  (forEachMarked platform translations lang (kind document) e).2 = None
  /\ subtree (documentElement
                (fst (translatePage platform translations lang document))) path
     = Some (match path with
             | [] => setLang (forEachMarked platform translations lang
                                (kind document) e).1 lang
             | _ :: _ => (forEachMarked platform translations lang
                            (kind document) e).1
             end).
Proof.
  intros Hend Hsub Hstay.
  destruct (translatePage_at platform translations lang document e path
              (normal_no_gate _ Hend) Hsub Hstay)
    as (thrown & e' & He' & _ & Hnormal).
  destruct (Hnormal Hend) as (_ & Hquiet & ->). by split.
Qed.

(** The walk on a marked element, when it ends without exception: the
    assignment of the callback is made, and the child nodes are walked
    unless it has replaced them. *)
Lemma forEachMarked_marked (kind : documentKind) (e : element) (key : jsstring) :
  attributes e !! js "data-i18n" = Some key ->
  (forEachMarked platform translations lang kind e).2 = None ->
  exists asg e1,
    translateElement platform translations lang kind key e = Ok asg
    /\ assign platform e asg = Ok e1
    /\ namespaceURI (forEachMarked platform translations lang kind e).1
       = namespaceURI e1
    /\ localName (forEachMarked platform translations lang kind e).1
       = localName e1
    /\ attributes (forEachMarked platform translations lang kind e).1
       = attributes e1
    /\ value (forEachMarked platform translations lang kind e).1 = value e1
    /\ childNodes (forEachMarked platform translations lang kind e).1
       = match asg with
         | SetTextContent _ => childNodes e1
         | _ => (forEachMarkedBelow platform translations lang kind
                                    (childNodes e)).1
         end.
Proof.
  destruct e as [ns n a v c]. cbn [attributes childNodes]. intros Hkey.
  rewrite forEachMarked_unfold, Hkey.
  destruct (translateElement platform translations lang kind key
                             (Element ns n a v c)) as [asg|err];
    [| discriminate].
  destruct (assign platform (Element ns n a v c) asg)
    as [[ns1 n1 a1 v1 c1]|err] eqn:He1; [| discriminate].
  intros _. exists asg, (Element ns1 n1 a1 v1 c1).
  split; [reflexivity |]. split; [exact He1 |].
  destruct asg as [text|text|text|];
    try destruct (forEachMarkedBelow platform translations lang kind c);
    by repeat split.
Qed.

(** Reading what the walk has left of an element, at the root or
    elsewhere, but for the [lang] attribute. *)
Lemma childNodes_at (x : element) (path : list nat) :
  childNodes (match path with [] => setLang x lang | _ :: _ => x end)
  = childNodes x.
Proof. destruct path; [apply childNodes_setLang | reflexivity]. Qed.

Lemma value_setLang (e : element) (l : jsstring) :
  value (setLang e l) = value e.
Proof.
  destruct e as [ns n a v c]. unfold setLang.
  by destruct (isHTMLElement (Element ns n a v c)).
Qed.

Lemma names_setLang (e : element) (l : jsstring) :
  namespaceURI (setLang e l) = namespaceURI e
  /\ localName (setLang e l) = localName e.
Proof.
  destruct e as [ns n a v c]. unfold setLang.
  by destruct (isHTMLElement (Element ns n a v c)).
Qed.

Lemma attributes_setLang (e : element) (l name : jsstring) :
  name <> js "lang" ->
  attributes (setLang e l) !! name = attributes e !! name.
Proof.
  destruct e as [ns n a v c]. unfold setLang. intros H.
  destruct (isHTMLElement (Element ns n a v c)); [| reflexivity].
  cbn [attributes]. by rewrite lookup_insert_ne.
Qed.

Lemma value_at (x : element) (path : list nat) :
  value (match path with [] => setLang x lang | _ :: _ => x end) = value x.
Proof. destruct path; [apply value_setLang | reflexivity]. Qed.

Lemma attributes_at (x : element) (path : list nat) (name : jsstring) :
  name <> js "lang" ->
  attributes (match path with [] => setLang x lang | _ :: _ => x end) !! name
  = attributes x !! name.
Proof. destruct path; [apply attributes_setLang | reflexivity]. Qed.

(** With a locale that is no name of a property of [Object.prototype],
    the lookups do not throw and give a text that converts to a string. *)
Lemma translate_converts (key : jsstring) :
  lang ∉ objectPrototypeNames ->
  exists text s,
    translate platform translations lang key = Ok text
    /\ toString text = Ok s.
Proof.
  intros Hlang.
  assert (Hinh : exists s, toString (inherited platform key) = Ok s).
  { unfold inherited. case_bool_decide; [by eexists |].
    destruct (includes objectPrototypeMethods key); by eexists. }
  assert (Hentry : forall l, l ∉ objectPrototypeNames ->
             exists v s, entry platform translations l key = Ok v
                         /\ toString v = Ok s).
  { intros l Hl. unfold entry, includes.
    destruct (translations !! l) as [table|].
    - destruct (table !! key) as [text|]; [by eexists _, _ |].
      destruct Hinh as [s Hs]. by eexists _, _.
    - rewrite (bool_decide_eq_false_2 _ Hl). by eexists _, _. }
  unfold translate.
  destruct (Hentry lang Hlang) as (a & sa & -> & Ha).
  destruct (Hentry (js "en") en_plain) as (b & sb & -> & Hb).
  cbn [mbind result_bind].
  destruct (toBoolean a); [by eexists _, _ |].
  unfold or. destruct (toBoolean b); by eexists _, _.
Qed.

(** X4: when [translatePage] ends without exception, a marked element
    that is not input-like, has no link key and no element child, and
    stays in the document, ends with the text of its key as its only
    content, whatever text and comments it had: the text the lookups
    give, converted to a string.  For a key and a locale that are no
    names of properties of [Object.prototype] this is the text the page
    has written for the key, else the key, in one text node when the key
    is not empty. *)
Theorem translatePage_sets_text
    (key : jsstring) (document : Document) (e : element) (path : list nat) :
  snd (translatePage platform translations lang document) = Normal ->
  subtree (documentElement document) path = Some e ->
  staysBelow platform translations lang (kind document)
             (documentElement document) path = true ->
  attributes e !! js "data-i18n" = Some key ->
  isInputLike (kind document) e = false ->
  attributes e !! js "data-i18n-link" = None ->
  children (childNodes e) = [] ->
  exists text s e',
    translate platform translations lang key = Ok text
    /\ toString text = Ok s
    /\ subtree (documentElement
                  (fst (translatePage platform translations lang document)))
               path = Some e'
    /\ childNodes e' = textContentNodes s
    /\ (key ∉ objectPrototypeNames -> lang ∉ objectPrototypeNames ->
        s = textOf translations lang key
        /\ (key <> [] ->
            childNodes e' = [TextNode (textOf translations lang key)])).
Proof.
  intros Hend Hsub Hstay Hkey Hin Hlink Hc.
  destruct (translatePage_normal_at document e path Hend Hsub Hstay)
    as [Hquiet He'].
  destruct (forEachMarked_marked _ e key Hkey Hquiet)
    as (asg & e1 & Hte & Hassign & _ & _ & _ & _ & Hchildren).
  unfold translateElement in Hte. rewrite Hin, Hlink, Hc in Hte.
  destruct (translate platform translations lang key) as [text|err] eqn:Htext;
    [| discriminate].
  cbn [mbind result_bind length Nat.eqb] in Hte. injection Hte as <-.
  destruct (assign_keeps _ _ _ _ Hassign) as (_ & _ & _ & s & Hs & Hc1 & _).
  rewrite (toDOMString_translate _ _ _ _ _ Htext) in Hs.
  exists text, s. eexists.
  split; [reflexivity |]. split; [exact Hs |]. split; [exact He' |].
  rewrite childNodes_at, Hchildren, Hc1. split; [reflexivity |].
  intros Pkey Plang. rewrite (translate_plain _ _ _ _ Pkey Plang) in Htext.
  injection Htext as <-. cbn [toString] in Hs. injection Hs as <-.
  split; [reflexivity |]. intros Hne.
  assert (Hfull : textOf translations lang key <> []).
  { unfold textOf.
    destruct (ownEntry translations lang key) as [[|c r]|]; cbn [orElse];
      try discriminate;
      destruct (ownEntry translations (js "en") key) as [[|c' r']|];
      cbn [orElse]; try discriminate; exact Hne. }
  by destruct (textOf translations lang key).
Qed.

(** X22: when [translatePage] ends without exception, a marked element
    with a link key that is not input-like and stays in the document ends
    with the text of the link key, not of its key, as its only content,
    whatever child nodes it had. *)
Theorem translatePage_link_key_text
    (key linkKey : jsstring) (document : Document) (e : element)
    (path : list nat) :
  snd (translatePage platform translations lang document) = Normal ->
  subtree (documentElement document) path = Some e ->
  staysBelow platform translations lang (kind document)
             (documentElement document) path = true ->
  attributes e !! js "data-i18n" = Some key ->
  isInputLike (kind document) e = false ->
  attributes e !! js "data-i18n-link" = Some linkKey ->
  exists linkText s e',
    translate platform translations lang linkKey = Ok linkText
    /\ toString linkText = Ok s
    /\ subtree (documentElement
                  (fst (translatePage platform translations lang document)))
               path = Some e'
    /\ childNodes e' = textContentNodes s
    /\ (linkKey ∉ objectPrototypeNames -> lang ∉ objectPrototypeNames ->
        s = textOf translations lang linkKey).
Proof.
  intros Hend Hsub Hstay Hkey Hin Hlink.
  destruct (translatePage_normal_at document e path Hend Hsub Hstay)
    as [Hquiet He'].
  destruct (forEachMarked_marked _ e key Hkey Hquiet)
    as (asg & e1 & Hte & Hassign & _ & _ & _ & _ & Hchildren).
  unfold translateElement in Hte. rewrite Hin, Hlink in Hte.
  destruct (translate platform translations lang key) as [text|err];
    [| discriminate].
  cbn [mbind result_bind] in Hte.
  destruct (translate platform translations lang linkKey)
    as [linkText|err] eqn:Htext; [| discriminate].
  cbn [mbind result_bind] in Hte. injection Hte as <-.
  destruct (assign_keeps _ _ _ _ Hassign) as (_ & _ & _ & s & Hs & Hc1 & _).
  rewrite (toDOMString_translate _ _ _ _ _ Htext) in Hs.
  exists linkText, s. eexists.
  split; [reflexivity |]. split; [exact Hs |]. split; [exact He' |].
  rewrite childNodes_at, Hchildren, Hc1. split; [reflexivity |].
  intros Pkey Plang. rewrite (translate_plain _ _ _ _ Pkey Plang) in Htext.
  injection Htext as <-. cbn [toString] in Hs. by injection Hs as <-.
Qed.

(** X5: when [translatePage] ends without exception, a marked element
    whose tag name reads INPUT or TEXTAREA and that stays in the document
    gets the text of its key, converted to a string: as its [placeholder]
    attribute when it has one, its value being kept; otherwise, no
    [placeholder] being added, as its value for a [textarea], and for an
    [input] as its sanitized value, or as its [value] attribute (hidden,
    submit, image, reset, button, checkbox, radio), or not at all (file:
    the text was empty).  An element of that tag name that is not the HTML
    element [input] or [textarea] is left as it is. *)
Theorem translatePage_input_placeholder_or_value
    (key : jsstring) (document : Document) (e : element) (path : list nat) :
  snd (translatePage platform translations lang document) = Normal ->
  subtree (documentElement document) path = Some e ->
  staysBelow platform translations lang (kind document)
             (documentElement document) path = true ->
  attributes e !! js "data-i18n" = Some key ->
  isInputLike (kind document) e = true ->
  exists text e',
    translate platform translations lang key = Ok text
    /\ (key ∉ objectPrototypeNames -> lang ∉ objectPrototypeNames ->
        text = Str (textOf translations lang key))
    /\ subtree (documentElement
                  (fst (translatePage platform translations lang document)))
               path = Some e'
    /\ (isHTML (js "input") e = false -> isHTML (js "textarea") e = false ->
        value e' = value e
        /\ attributes e' !! js "placeholder" = attributes e !! js "placeholder"
        /\ attributes e' !! js "value" = attributes e !! js "value")
    /\ (isHTML (js "input") e = true \/ isHTML (js "textarea") e = true ->
        exists s,
          toString text = Ok s
          /\ (is_Some (attributes e !! js "placeholder") ->
              attributes e' !! js "placeholder" = Some s
              /\ value e' = value e
              /\ attributes e' !! js "value" = attributes e !! js "value")
          /\ (attributes e !! js "placeholder" = None ->
              attributes e' !! js "placeholder" = None
              /\ (isHTML (js "textarea") e = true ->
                  isHTML (js "input") e = false ->
                  value e' = s
                  /\ attributes e' !! js "value" = attributes e !! js "value")
              /\ (isHTML (js "input") e = true ->
                  match valueModeOf (typeState (attributes e)) with
                  | ModeValue =>
                      value e' = sanitized platform (attributes e) s
                      /\ attributes e' !! js "value"
                         = attributes e !! js "value"
                  | ModeDefault | ModeDefaultOn =>
                      attributes e' !! js "value" = Some s
                      /\ value e' = value e
                  | ModeFilename =>
                      s = [] /\ value e' = []
                      /\ attributes e' !! js "value"
                         = attributes e !! js "value"
                  end))).
Proof.
  intros Hend Hsub Hstay Hkey Hin.
  destruct (translatePage_normal_at document e path Hend Hsub Hstay)
    as [Hquiet He'].
  destruct (forEachMarked_marked _ e key Hkey Hquiet)
    as (asg & e1 & Hte & Hassign & _ & _ & Hattrs & Hvalue & _).
  unfold translateElement in Hte. rewrite Hin in Hte.
  destruct (translate platform translations lang key) as [text|err] eqn:Htext;
    [| discriminate].
  cbn [mbind result_bind] in Hte.
  exists text. eexists. split; [reflexivity |].
  split.
  { intros Pkey Plang. rewrite (translate_plain _ _ _ _ Pkey Plang) in Htext.
    by injection Htext as <-. }
  split; [exact He' |].
  assert (Hph : js "placeholder" <> js "lang") by distinct_names.
  assert (Hval : js "value" <> js "lang") by distinct_names.
  rewrite value_at, !attributes_at, Hattrs, Hvalue by assumption.
  clear He' Hattrs Hvalue Hquiet.
  destruct e as [ns n a v c]. cbn [attributes value] in *.
  unfold assign in Hassign.
  destruct (a !! js "placeholder") as [old|] eqn:Hold; injection Hte as <-.
  - destruct (isHTML (js "input") _ || isHTML (js "textarea") _) eqn:Hhtml.
    + apply orb_prop in Hhtml.
      rewrite (toDOMString_translate _ _ _ _ _ Htext) in Hassign.
      destruct (toString text) as [s|err]; [| discriminate].
      injection Hassign as <-. cbn [attributes value].
      split; [intros H1 H2; destruct Hhtml; congruence |].
      intros _. exists s. split; [reflexivity |]. split; [| discriminate].
      intros _. rewrite lookup_insert_eq, lookup_insert_ne by distinct_names.
      done.
    + apply orb_false_elim in Hhtml as [H1 H2].
      injection Hassign as <-. cbn [attributes value].
      split; [by rewrite Hold |].
      intros [H|H]; congruence.
  - destruct (isHTML (js "input") _) eqn:Hinput.
    + rewrite (toDOMString_translate _ _ _ _ _ Htext) in Hassign.
      destruct (toString text) as [s|err]; [| discriminate].
      cbn [mbind result_bind setInputValue] in Hassign.
      split; [discriminate |].
      intros _. exists s. split; [reflexivity |].
      split; [by intros [? [=]] |]. intros _.
      destruct (valueModeOf (typeState a)).
      * injection Hassign as <-. cbn [attributes value].
        split; [exact Hold |]. split; [discriminate |]. by intros _.
      * injection Hassign as <-. cbn [attributes value].
        rewrite lookup_insert_ne by distinct_names.
        split; [exact Hold |]. split; [discriminate |]. intros _.
        by rewrite lookup_insert_eq.
      * injection Hassign as <-. cbn [attributes value].
        rewrite lookup_insert_ne by distinct_names.
        split; [exact Hold |]. split; [discriminate |]. intros _.
        by rewrite lookup_insert_eq.
      * destruct s; [| discriminate]. injection Hassign as <-.
        cbn [attributes value].
        split; [exact Hold |]. split; [discriminate |]. by intros _.
    + destruct (isHTML (js "textarea") _) eqn:Harea.
      * rewrite (toDOMString_translate _ _ _ _ _ Htext) in Hassign.
      destruct (toString text) as [s|err]; [| discriminate].
        injection Hassign as <-. cbn [attributes value].
        split; [discriminate |].
        intros _. exists s. split; [reflexivity |].
        split; [by intros [? [=]] |]. intros _.
        split; [exact Hold |]. split; [by intros _ _ | discriminate].
      * injection Hassign as <-. cbn [attributes value].
        split; [by rewrite Hold |].
        intros [H|H]; discriminate.
Qed.


(* --------------------------------------------------------------------- *)
(** ** What the substitution keeps *)
(* --------------------------------------------------------------------- *)

(** What an assignment does to the [value] attribute: nothing, but on an
    [input]. *)
Lemma assign_value_attribute (e e1 : element) (a : assignment) :
  assign platform e a = Ok e1 ->
  isHTML (js "input") e = false ->
  attributes e1 !! js "value" = attributes e !! js "value".
Proof.
  destruct e as [ns n attrs v c]. unfold assign. intros H Hinput.
  rewrite Hinput in H. cbn [orb] in H.
  destruct a as [text|text|text|].
  - destruct (isHTML (js "textarea") _).
    + destruct (toDOMString _ text) as [s|err]; [| discriminate].
      injection H as <-. cbn [attributes].
      rewrite lookup_insert_ne; [reflexivity | distinct_names].
    + by injection H as <-.
  - destruct (isHTML (js "textarea") _).
    + destruct (toDOMString _ text) as [s|err]; [| discriminate].
      by injection H as <-.
    + by injection H as <-.
  - destruct (toDOMString _ text) as [s|err]; [| discriminate].
    by injection H as <-.
  - by injection H as <-.
Qed.

(** What the walk, or no walk after an exception, leaves of an element
    itself. *)
Lemma forEachMarkedFrom_keeps (kind : documentKind) (e : element)
    (thrown : option jsError) :
  let e' := (forEachMarkedFrom platform translations lang kind thrown e).1 in
  namespaceURI e' = namespaceURI e
  /\ localName e' = localName e
  /\ (forall name, name <> js "placeholder" -> name <> js "value" ->
                   attributes e' !! name = attributes e !! name)
  /\ (isHTML (js "input") e = false ->
      attributes e' !! js "value" = attributes e !! js "value")
  /\ (attributes e !! js "data-i18n" = None ->
      value e' = value e /\ attributes e' = attributes e).
Proof.
  destruct thrown as [err|]; [done |]. cbn [forEachMarkedFrom].
  destruct e as [ns n a v c].
  pose proof (forEachMarked_callback platform translations lang kind ns n a v c)
    as Hwalk.
  destruct (forEachCallback platform translations lang kind (Element ns n a v c))
    as [e1|err] eqn:Hcb; [| by rewrite Hwalk].
  assert (Hsame :
    namespaceURI (forEachMarked platform translations lang kind
                                (Element ns n a v c)).1 = namespaceURI e1
    /\ localName (forEachMarked platform translations lang kind
                                (Element ns n a v c)).1 = localName e1
    /\ attributes (forEachMarked platform translations lang kind
                                 (Element ns n a v c)).1 = attributes e1
    /\ value (forEachMarked platform translations lang kind
                            (Element ns n a v c)).1 = value e1).
  { destruct (overwritten platform translations lang kind (Element ns n a v c)).
    - by destruct Hwalk as [-> _].
    - by destruct Hwalk as [_ ->]. }
  destruct Hsame as (-> & -> & -> & ->). clear Hwalk.
  unfold forEachCallback in Hcb. cbn [attributes] in *.
  destruct (a !! js "data-i18n") as [key|].
  2: { by injection Hcb as <-. }
  destruct (translateElement platform translations lang kind key
                             (Element ns n a v c)) as [asg|err];
    [| discriminate].
  cbn [mbind result_bind] in Hcb.
  destruct (assign_keeps _ _ _ _ Hcb) as (Hns & Hn & Hattr & _).
  split; [exact Hns |]. split; [exact Hn |]. split; [exact Hattr |].
  split; [| discriminate].
  exact (assign_value_attribute _ _ _ Hcb).
Qed.

Lemma length_forEachMarkedBelow (kind : documentKind) (c : list node) :
  length (forEachMarkedBelow platform translations lang kind c).1 = length c.
Proof.
  induction c as [|m c IH]; [reflexivity |].
  rewrite forEachMarkedBelow_cons.
  destruct m as [d|d|x].
  - destruct (forEachMarkedBelow platform translations lang kind c).
    cbn [fst length] in *. by rewrite IH.
  - destruct (forEachMarkedBelow platform translations lang kind c).
    cbn [fst length] in *. by rewrite IH.
  - destruct (forEachMarked platform translations lang kind x) as [x' [err|]];
      [reflexivity |].
    destruct (forEachMarkedBelow platform translations lang kind c).
    cbn [fst length] in *. by rewrite IH.
Qed.

Lemma length_forEachMarkedFrom (kind : documentKind) (e : element)
    (thrown : option jsError) :
  attributes e !! js "data-i18n" = None ->
  length (childNodes
            (forEachMarkedFrom platform translations lang kind thrown e).1)
  = length (childNodes e).
Proof.
  destruct thrown as [err|]; [done |]. cbn [forEachMarkedFrom].
  destruct e as [ns n a v c]. cbn [attributes childNodes]. intros Hkey.
  rewrite forEachMarked_unfold, Hkey.
  pose proof (length_forEachMarkedBelow kind c) as Hlen.
  by destruct (forEachMarkedBelow platform translations lang kind c).
Qed.

Lemma tagName_same (kind : documentKind) (e e' : element) :
  namespaceURI e' = namespaceURI e -> localName e' = localName e ->
  tagName kind e' = tagName kind e.
Proof. intros Hns Hn. unfold tagName, isHTMLElement. by rewrite Hns, Hn. Qed.

(** X6: on the path of the substitution, whether a callback throws or
    not, an element that stays in the document keeps its namespace, its
    name and every attribute other than [placeholder], [value] and [lang],
    the marks [data-i18n] and [data-i18n-link] among them; the [value]
    attribute is written on an [input] only, and [lang] on a root that is
    an HTML element only; an element that is not marked keeps its value,
    its [placeholder] and the number of its child nodes as well. *)
Theorem translatePage_keeps_tags_and_marks
    (document : Document) (e : element) (path : list nat) :
  comingSoonGate translations lang = false ->
  subtree (documentElement document) path = Some e ->
  staysBelow platform translations lang (kind document)
             (documentElement document) path = true ->
  exists e',
    subtree (documentElement
               (fst (translatePage platform translations lang document))) path
    = Some e'
    /\ namespaceURI e' = namespaceURI e
    /\ localName e' = localName e
    /\ tagName (kind document) e' = tagName (kind document) e
    /\ (forall name,
           name <> js "placeholder" -> name <> js "value" ->
           name <> js "lang" ->
           attributes e' !! name = attributes e !! name)
    /\ (isHTML (js "input") e = false ->
        attributes e' !! js "value" = attributes e !! js "value")
    /\ (path <> [] \/ isHTMLElement e = false ->
        attributes e' !! js "lang" = attributes e !! js "lang")
    /\ (attributes e !! js "data-i18n" = None ->
        value e' = value e
        /\ attributes e' !! js "placeholder" = attributes e !! js "placeholder"
        /\ length (childNodes e') = length (childNodes e)).
Proof.
  intros Hgate Hsub Hstay.
  destruct (translatePage_at platform translations lang document e path
              Hgate Hsub Hstay) as (thrown & e' & He' & Hcases & _).
  exists e'. split; [exact He' |].
  destruct (forEachMarkedFrom_keeps (kind document) e thrown)
    as (Hns & Hn & Hattr & Hvalue & Hplain).
  pose proof (length_forEachMarkedFrom (kind document) e thrown) as Hlen.
  assert (Hph : js "placeholder" <> js "lang") by distinct_names.
  assert (Hval : js "value" <> js "lang") by distinct_names.
  assert (Hlv : js "lang" <> js "value") by distinct_names.
  assert (Hlp : js "lang" <> js "placeholder") by distinct_names.
  destruct Hcases as [-> | [-> ->]].
  - split; [exact Hns |]. split; [exact Hn |].
    split; [by apply tagName_same |].
    split; [intros name H1 H2 _; by apply Hattr |].
    split; [exact Hvalue |].
    split; [intros _; by apply Hattr |].
    intros Hno. destruct (Hplain Hno) as [Hv Ha].
    split; [exact Hv |]. split; [by rewrite Ha | by apply Hlen].
  - destruct (names_setLang
                (forEachMarkedFrom platform translations lang (kind document)
                                   thrown e).1 lang) as [Hns' Hn'].
    rewrite value_setLang, childNodes_setLang.
    split; [by rewrite Hns' |]. split; [by rewrite Hn' |].
    split; [apply tagName_same; congruence |].
    split; [intros name H1 H2 H3; rewrite attributes_setLang by exact H3;
            by apply Hattr |].
    split; [intros Hinput; rewrite attributes_setLang by exact Hval;
            by apply Hvalue |].
    split.
    + intros [H | Hother]; [done |].
      rewrite setLang_other; [by apply Hattr |].
      unfold isHTMLElement in *. by rewrite Hns.
    + intros Hno. destruct (Hplain Hno) as [Hv Ha].
      rewrite attributes_setLang by exact Hph.
      split; [exact Hv |]. split; [by rewrite Ha | by apply Hlen].
Qed.

(** X7: on the path of the substitution, a document in which no element
    is marked is left as it is but for the [lang] of the root: the call
    ends without exception, a root that is an HTML element has the locale
    as its [lang] attribute, and with any other root ([svg], say) the
    document is as before. *)
Theorem translatePage_without_marks (document : Document) :
  comingSoonGate translations lang = false ->
  unmarked (documentElement document) = true ->
  translatePage platform translations lang document
  = ({| kind := kind document;
        documentElement := setLang (documentElement document) lang |}, Normal)
  /\ (isHTMLElement (documentElement document) = true ->
      attributes (setLang (documentElement document) lang)
      = <[js "lang" := lang]> (attributes (documentElement document)))
  /\ (isHTMLElement (documentElement document) = false ->
      translatePage platform translations lang document = (document, Normal)).
Proof.
  intros Hgate Hplain.
  assert (Hcall :
    translatePage platform translations lang document
    = ({| kind := kind document;
          documentElement := setLang (documentElement document) lang |},
       Normal)).
  { unfold translatePage. rewrite Hgate.
    by rewrite forEachSelected_walk, forEachMarked_unmarked. }
  split; [exact Hcall |]. split.
  - destruct (documentElement document) as [ns n a v c]. intros Hhtml.
    by rewrite (setLang_html _ _ _ _ _ _ Hhtml).
  - intros Hother. rewrite Hcall, (setLang_other _ _ Hother).
    by destruct document.
Qed.

(* --------------------------------------------------------------------- *)
(** ** How the call ends *)
(* --------------------------------------------------------------------- *)

Lemma forEachMarkedBelow_thrown (kind : documentKind) (c : list node) :
  Forall (fun m => match m with
                   | ElementNode e =>
                       (forEachMarked platform translations lang kind e).2
                       = firstThrow
                           (forEachCallback platform translations lang kind) e
                   | _ => True
                   end) c ->
  (forEachMarkedBelow platform translations lang kind c).2
  = firstThrowBelow (forEachCallback platform translations lang kind) c.
Proof.
  induction 1 as [|m c Hm _ IH]; [reflexivity |].
  rewrite forEachMarkedBelow_cons, firstThrowBelow_cons.
  destruct m as [d|d|x].
  - by destruct (forEachMarkedBelow platform translations lang kind c).
  - by destruct (forEachMarkedBelow platform translations lang kind c).
  - rewrite <- Hm.
    destruct (forEachMarked platform translations lang kind x) as [x' [err|]];
      [reflexivity |].
    by destruct (forEachMarkedBelow platform translations lang kind c).
Qed.

(** What the walk throws is the first exception of the callbacks. *)
Lemma forEachMarked_thrown (kind : documentKind) (e : element) :
  (forEachMarked platform translations lang kind e).2
  = firstThrow (forEachCallback platform translations lang kind) e.
Proof.
  induction e as [ns n a v c IH] using element_tree_ind.
  pose proof (forEachMarked_callback platform translations lang kind ns n a v c)
    as Hwalk.
  rewrite firstThrow_unfold.
  destruct (forEachCallback platform translations lang kind (Element ns n a v c))
    as [e1|err]; [| by rewrite Hwalk].
  destruct (overwritten platform translations lang kind (Element ns n a v c)).
  - by destruct Hwalk as [-> _].
  - destruct Hwalk as [_ ->]. by apply forEachMarkedBelow_thrown.
Qed.

(** With a locale that is no name of a property of [Object.prototype],
    the callback throws on a file input only. *)
Lemma callback_no_throw (kind : documentKind) (e : element) :
  lang ∉ objectPrototypeNames ->
  bool_decide (is_Some (attributes e !! js "data-i18n"))
  && isFileInput e
  && bool_decide (attributes e !! js "placeholder" = None) = false ->
  exists e1, forEachCallback platform translations lang kind e = Ok e1.
Proof.
  intros Hlang Hfile. unfold forEachCallback.
  destruct (attributes e !! js "data-i18n") as [key|] eqn:Hkey;
    [| by eexists].
  rewrite bool_decide_eq_true_2 in Hfile by (by eexists).
  cbn [andb] in Hfile.
  destruct (translate_converts key Hlang) as (text & s & Htext & Hs).
  pose proof (toDOMString_translate _ _ _ _ _ Htext) as Hconv.
  unfold translateElement. rewrite Htext. cbn [mbind result_bind].
  destruct e as [ns n a v c]. cbn [attributes childNodes] in *.
  destruct (isInputLike kind (Element ns n a v c)).
  - destruct (a !! js "placeholder") as [old|] eqn:Hold;
      cbn [mbind result_bind assign].
    + destruct (_ || _); [rewrite Hconv, Hs |]; by eexists.
    + rewrite bool_decide_eq_true_2, andb_true_r in Hfile by reflexivity.
      unfold isFileInput in Hfile. cbn [attributes] in Hfile.
      destruct (isHTML (js "input") (Element ns n a v c)).
      * rewrite Hconv, Hs. cbn [mbind result_bind setInputValue].
        cbn [andb] in Hfile.
        destruct (valueModeOf (typeState a)); try discriminate; by eexists.
      * destruct (isHTML (js "textarea") _); [rewrite Hconv, Hs |]; by eexists.
  - destruct (a !! js "data-i18n-link") as [linkKey|].
    + destruct (translate_converts linkKey Hlang)
        as (linkText & s' & Hlink & Hs').
      rewrite Hlink. cbn [mbind result_bind assign].
      rewrite (toDOMString_translate _ _ _ _ _ Hlink), Hs'. by eexists.
    + destruct (length (children c) =? 0)%nat;
        [cbn [mbind result_bind assign]; rewrite Hconv, Hs; by eexists |].
      rewrite andb_false_r. cbn [mbind result_bind assign]. by eexists.
Qed.

Lemma firstThrow_none (kind : documentKind) (e : element) :
  lang ∉ objectPrototypeNames ->
  noMarkedFileInput e = true ->
  firstThrow (forEachCallback platform translations lang kind) e = None.
Proof.
  intros Hlang.
  induction e as [ns n a v c IH] using element_tree_ind.
  cbn [noMarkedFileInput]. intros H. apply andb_prop in H as [Hfile Hc].
  apply negb_true_iff in Hfile.
  rewrite firstThrow_unfold.
  destruct (callback_no_throw kind (Element ns n a v c) Hlang Hfile)
    as [e1 ->].
  induction IH as [|m c Hm _ IHc]; [reflexivity |].
  cbn [forallb] in Hc. apply andb_prop in Hc as [Hm' Hc].
  rewrite firstThrowBelow_cons.
  destruct m as [d|d|x]; try (by apply IHc).
  rewrite (Hm Hm'). by apply IHc.
Qed.

(** X8: [translatePage] ends without exception exactly when the gate is
    closed and no callback throws.  With a locale that is no name of a
    property of [Object.prototype] and no marked file input without
    [placeholder] in the document, this is when the translations have an
    entry for the locale or the locale is "en" or "ru", even with no
    translations at all.  The root, when it is an HTML element, then has
    the locale as its [lang] attribute; after an exception the [lang] of
    the root is as before. *)
Theorem translatePage_substitutes_iff (document : Document) :
  (snd (translatePage platform translations lang document) = Normal
   <-> comingSoonGate translations lang = false
       /\ firstThrow (forEachCallback platform translations lang (kind document))
                     (documentElement document) = None)
  /\ (lang ∉ objectPrototypeNames ->
      noMarkedFileInput (documentElement document) = true ->
      (snd (translatePage platform translations lang document) = Normal
       <-> is_Some (translations !! lang) \/ lang = js "en" \/ lang = js "ru"))
  /\ (snd (translatePage platform translations lang document) = Normal ->
      attributes (documentElement
                    (fst (translatePage platform translations lang document)))
                 !! js "lang"
      = if isHTMLElement (documentElement document) then Some lang
        else attributes (documentElement document) !! js "lang")
  /\ (forall err,
        snd (translatePage platform translations lang document) = Throw err ->
        attributes (documentElement
                      (fst (translatePage platform translations lang document)))
                   !! js "lang"
        = attributes (documentElement document) !! js "lang").
Proof.
  assert (Hend :
    snd (translatePage platform translations lang document) = Normal
    <-> comingSoonGate translations lang = false
        /\ firstThrow (forEachCallback platform translations lang (kind document))
                      (documentElement document) = None).
  { unfold translatePage.
    destruct (comingSoonGate translations lang).
    - destruct (setBodyInnerHTML _ _); cbn [snd]; split;
        (discriminate || by intros [? _]).
    - rewrite forEachSelected_walk, <- forEachMarked_thrown.
      destruct (forEachMarked platform translations lang (kind document)
                              (documentElement document)) as [root' [err|]];
        cbn [snd]; split; (discriminate || (by intros [_ ?]) || done). }
  destruct (forEachMarkedFrom_keeps (kind document) (documentElement document)
                                    None)
    as (Hns & _ & Hattr & _).
  cbn [forEachMarkedFrom] in Hns, Hattr.
  specialize (Hattr (js "lang")).
  split; [exact Hend |]. split; [| split].
  - intros Hlang Hfile. rewrite Hend, (firstThrow_none _ _ Hlang Hfile).
    unfold comingSoonGate, includes.
    rewrite (bool_decide_eq_false_2 _ Hlang). cbn [negb andb].
    destruct (translations !! lang) as [table|].
    { split; [by left; eexists | done]. }
    destruct (decide (lang = js "en")) as [Hen|Hen];
      [rewrite (bool_decide_eq_true_2 _ Hen)
      | rewrite (bool_decide_eq_false_2 _ Hen)]; cbn [negb andb].
    { split; [by right; left | done]. }
    destruct (decide (lang = js "ru")) as [Hru|Hru];
      [rewrite (bool_decide_eq_true_2 _ Hru)
      | rewrite (bool_decide_eq_false_2 _ Hru)]; cbn [negb andb].
    { split; [by right; right | done]. }
    split; [by intros [? _] |].
    intros [[? [=]] | [? | ?]]; contradiction.
  - unfold translatePage.
    destruct (comingSoonGate translations lang).
    { by destruct (setBodyInnerHTML _ _). }
    rewrite forEachSelected_walk.
    destruct (forEachMarked platform translations lang (kind document)
                            (documentElement document)) as [root' [err|]];
      cbn [fst snd documentElement] in *; [discriminate |].
    intros _. destruct root' as [ns n a v c].
    unfold setLang, isHTMLElement in *. cbn [namespaceURI attributes] in *.
    rewrite Hns. case_bool_decide.
    + cbn [attributes]. apply lookup_insert_eq.
    + apply Hattr; distinct_names.
  - intros err. unfold translatePage.
    destruct (comingSoonGate translations lang).
    { by destruct (setBodyInnerHTML _ _). }
    rewrite forEachSelected_walk.
    destruct (forEachMarked platform translations lang (kind document)
                            (documentElement document)) as [root' [err'|]];
      cbn [fst snd documentElement] in *; [| discriminate].
    intros _. apply Hattr; distinct_names.
Qed.

(** X9: with the gate open, [translatePage] throws a TypeError and leaves
    the document as it is exactly when the document has no body: its root
    is not the HTML element [html] (of an HTML or an XHTML page), or no
    child of the root is the HTML element [body] or [frameset], as while a
    script of the head runs.  Otherwise it returns. *)
Theorem translatePage_gate_throws_without_body (document : Document) :
  comingSoonGate translations lang = true ->
  (isHTML (js "html") (documentElement document) = false
   \/ forallb (fun n => negb (isBodyNode n))
              (childNodes (documentElement document)) = true ->
   translatePage platform translations lang document
   = (document, Throw bodyIsNull))
  /\ (isHTML (js "html") (documentElement document) = true ->
      forallb (fun n => negb (isBodyNode n))
              (childNodes (documentElement document)) = false ->
      snd (translatePage platform translations lang document) = Return ())
  /\ errorName bodyIsNull = js "TypeError".
Proof.
  intros Hgate. split; [| split; [| reflexivity]].
  - intros Hbody. apply translatePage_gate_without_body; [exact Hgate |].
    destruct (documentElement document) as [ns n a v c].
    cbn [childNodes] in Hbody. unfold setBodyInnerHTML.
    destruct (isHTML (js "html") (Element ns n a v c)); [| reflexivity].
    destruct Hbody as [H|H]; [discriminate |].
    by rewrite (setBody_no_body c _ H).
  - intros Hhtml Hbody. unfold translatePage. rewrite Hgate.
    destruct (documentElement document) as [ns n a v c].
    cbn [childNodes] in Hbody. unfold setBodyInnerHTML. rewrite Hhtml.
    clear Hhtml.
    assert (Hsome : is_Some (setBody c (comingSoonIn (kind document)))).
    { induction c as [|m c IH]; [discriminate |].
      cbn [forallb] in Hbody. cbn [setBody].
      destruct m as [d|d|[ns' n' a' v' c']]; cbn [isBodyNode negb andb] in Hbody.
      - destruct (IH Hbody) as [r ->]. by eexists.
      - destruct (IH Hbody) as [r ->]. by eexists.
      - destruct (isBodyElement (Element ns' n' a' v' c')); [by eexists |].
        destruct (IH Hbody) as [r ->]. by eexists. }
    by destruct Hsome as [r ->].
Qed.

(** X10: on the path of the substitution [translatePage] marks nothing:
    every element that [querySelectorAll('[data-i18n]')] selects in the
    document it leaves stands at a place where it selected one before. *)
Theorem translatePage_marks_nothing (document : Document) (place : list nat) :
  comingSoonGate translations lang = false ->
  place ∈ querySelectorAll
            (documentElement
               (fst (translatePage platform translations lang document))) ->
  place ∈ querySelectorAll (documentElement document).
Proof.
  intros Hgate. unfold translatePage. rewrite Hgate.
  rewrite forEachSelected_walk.
  pose proof (querySelectorAll_walk platform translations lang (kind document)
                (documentElement document) place) as Hwalk.
  destruct (forEachMarked platform translations lang (kind document)
                          (documentElement document)) as [root' [err|]];
    cbn [fst documentElement] in *; [exact Hwalk |].
  by rewrite querySelectorAll_setLang.
Qed.

End Substitution.

(* --------------------------------------------------------------------- *)
(** ** On the sample pages *)
(* --------------------------------------------------------------------- *)

Lemma translatePage_sets_text_witness :
  (exists e',
      subtree (documentElement
                 (fst (translatePage examplePlatform sampleTranslations
                                     (js "ru") samplePage)))
              [2; 0]%nat = Some e'
      /\ childNodes e' = [TextNode (js "Hello")])
  /\ (exists e',
         subtree (documentElement
                    (fst (translatePage examplePlatform sampleTranslations
                                        (js "ru") constructorPage)))
                 [1; 0]%nat = Some e'
         /\ childNodes e'
            = [TextNode (js "function Object() { [native code] }")]).
Proof.
  split.
  - destruct (translatePage_sets_text examplePlatform sampleTranslations
                (js "ru") (js "greeting") samplePage
                (elem "h1" [("data-i18n", "greeting")%string] [TextNode (js "Hi")])
                [2; 0]%nat)
      as (text & s & e' & _ & _ & He' & _ & Hplain);
      try (vm_compute; reflexivity).
    exists e'. split; [exact He' |].
    destruct Hplain as [_ Htext].
    + apply (bool_decide_eq_false_1 _). vm_compute. reflexivity.
    + apply (bool_decide_eq_false_1 _). vm_compute. reflexivity.
    + rewrite Htext; [vm_compute; reflexivity | discriminate].
  - destruct (translatePage_sets_text examplePlatform sampleTranslations
                (js "ru") (js "constructor") constructorPage
                (elem "p" [("data-i18n", "constructor")%string]
                      [TextNode (js "x")])
                [1; 0]%nat)
      as (text & s & e' & Htext & Hs & He' & Hc & _);
      try (vm_compute; reflexivity).
    exists e'. split; [exact He' |]. rewrite Hc.
    vm_compute in Htext. injection Htext as <-.
    vm_compute in Hs. injection Hs as <-. reflexivity.
Defined.

Lemma translatePage_link_key_text_witness :
  exists e',
    subtree (documentElement
               (fst (translatePage examplePlatform sampleTranslations (js "ru")
                                   samplePage)))
            [2; 1]%nat = Some e'
    /\ childNodes e' = [TextNode (js "Dalee")].
Proof.
  destruct (translatePage_link_key_text examplePlatform sampleTranslations
              (js "ru") (js "footer") (js "more") samplePage linkSpan
              [2; 1]%nat)
    as (text & s & e' & _ & _ & He' & Hc & Hplain);
    try (vm_compute; reflexivity).
  exists e'. split; [exact He' |]. rewrite Hc, Hplain.
  - vm_compute. reflexivity.
  - apply (bool_decide_eq_false_1 _). vm_compute. reflexivity.
  - apply (bool_decide_eq_false_1 _). vm_compute. reflexivity.
Defined.

Lemma translatePage_input_placeholder_or_value_witness :
  (exists e',
      subtree (documentElement
                 (fst (translatePage examplePlatform sampleTranslations
                                     (js "ru") formPage)))
              [1; 0]%nat = Some e'
      /\ attributes e' !! js "placeholder" = Some (js "Dalee")
      /\ value e' = js "typed")
  /\ (exists e',
         subtree (documentElement
                    (fst (translatePage examplePlatform sampleTranslations
                                        (js "ru") formPage)))
                 [1; 1]%nat = Some e'
         /\ value e' = js "Hello"
         /\ attributes e' !! js "placeholder" = None)
  /\ (exists e',
         subtree (documentElement
                    (fst (translatePage examplePlatform sampleTranslations
                                        (js "ru") formPage)))
                 [1; 2]%nat = Some e'
         /\ attributes e' !! js "value" = Some (js "Dalee")
         /\ value e' = []).
Proof.
  assert (Hplain : forall name,
             bool_decide (name ∈ objectPrototypeNames) = false ->
             name ∉ objectPrototypeNames)
    by (intros name; apply (bool_decide_eq_false_1 _)).
  assert (Pru : js "ru" ∉ objectPrototypeNames)
    by (apply Hplain; vm_compute; reflexivity).
  assert (Pmore : js "more" ∉ objectPrototypeNames)
    by (apply Hplain; vm_compute; reflexivity).
  assert (Pgreeting : js "greeting" ∉ objectPrototypeNames)
    by (apply Hplain; vm_compute; reflexivity).
  split; [| split].
  - destruct (translatePage_input_placeholder_or_value examplePlatform
                sampleTranslations (js "ru") (js "more") formPage searchInput
                [1; 0]%nat)
      as (text & e' & _ & Htext & He' & _ & Hset);
      try (vm_compute; reflexivity).
    exists e'. split; [exact He' |].
    destruct Hset as (s & Hs & Hph & _); [left; vm_compute; reflexivity |].
    rewrite (Htext Pmore Pru) in Hs. vm_compute in Hs. injection Hs as <-.
    destruct Hph as (Hp & Hv & _); [eexists; vm_compute; reflexivity |].
    by split.
  - destruct (translatePage_input_placeholder_or_value examplePlatform
                sampleTranslations (js "ru") (js "greeting") formPage draftArea
                [1; 1]%nat)
      as (text & e' & _ & Htext & He' & _ & Hset);
      try (vm_compute; reflexivity).
    exists e'. split; [exact He' |].
    destruct Hset as (s & Hs & _ & Hno); [right; vm_compute; reflexivity |].
    rewrite (Htext Pgreeting Pru) in Hs. vm_compute in Hs. injection Hs as <-.
    destruct Hno as (Hp & Harea & _); [vm_compute; reflexivity |].
    destruct Harea as [Hv _]; try (vm_compute; reflexivity).
    by split.
  - destruct (translatePage_input_placeholder_or_value examplePlatform
                sampleTranslations (js "ru") (js "more") formPage submitInput
                [1; 2]%nat)
      as (text & e' & _ & Htext & He' & _ & Hset);
      try (vm_compute; reflexivity).
    exists e'. split; [exact He' |].
    destruct Hset as (s & Hs & _ & Hno); [left; vm_compute; reflexivity |].
    rewrite (Htext Pmore Pru) in Hs. vm_compute in Hs. injection Hs as <-.
    destruct Hno as (_ & _ & Hinput); [vm_compute; reflexivity |].
    specialize (Hinput eq_refl).
    replace (valueModeOf (typeState (attributes submitInput))) with ModeDefault
      in Hinput by (vm_compute; reflexivity).
    exact Hinput.
Defined.

Lemma translatePage_keeps_tags_and_marks_witness :
  exists e',
    subtree (documentElement
               (fst (translatePage examplePlatform sampleTranslations (js "ru")
                                   samplePage)))
            [2; 1]%nat = Some e'
    /\ tagName HTMLDocument e' = js "SPAN"
    /\ attributes e' !! js "data-i18n-link" = Some (js "more").
Proof.
  destruct (translatePage_keeps_tags_and_marks examplePlatform
              sampleTranslations (js "ru") samplePage linkSpan [2; 1]%nat)
    as (e' & He' & _ & _ & Htag & Hattr & _); try (vm_compute; reflexivity).
  exists e'. split; [exact He' |]. split; [exact Htag |].
  rewrite Hattr; [vm_compute; reflexivity | | |];
    intros H; vm_compute in H; discriminate H.
Defined.

Lemma translatePage_without_marks_witness :
  translatePage examplePlatform sampleTranslations (js "ru") plainPage
  = (page (setLang plainRoot (js "ru")), Normal)
  /\ attributes (setLang plainRoot (js "ru")) !! js "lang" = Some (js "ru")
  /\ translatePage examplePlatform sampleTranslations (js "ru") svgPage
     = (svgPage, Normal).
Proof.
  destruct (translatePage_without_marks examplePlatform sampleTranslations
              (js "ru") plainPage) as (Hcall & Hattrs & _);
    try (vm_compute; reflexivity).
  destruct (translatePage_without_marks examplePlatform sampleTranslations
              (js "ru") svgPage) as (_ & _ & Hsvg);
    try (vm_compute; reflexivity).
  split; [exact Hcall |]. split.
  - cbn [plainPage page documentElement] in Hattrs.
    rewrite Hattrs by (vm_compute; reflexivity). apply lookup_insert_eq.
  - apply Hsvg. vm_compute. reflexivity.
Defined.

Lemma translatePage_substitutes_iff_witness :
  snd (translatePage examplePlatform ∅ (js "ru") samplePage) = Normal
  /\ attributes (documentElement
                   (fst (translatePage examplePlatform ∅ (js "ru") samplePage)))
                !! js "lang" = Some (js "ru")
  /\ attributes (documentElement
                   (fst (translatePage examplePlatform sampleTranslations
                                       (js "en") uploadPage)))
                !! js "lang" = None.
Proof.
  destruct (translatePage_substitutes_iff examplePlatform ∅ (js "ru") samplePage)
    as (_ & Hiff & Hlang & _).
  assert (H : snd (translatePage examplePlatform ∅ (js "ru") samplePage)
              = Normal).
  { apply Hiff.
    - apply (bool_decide_eq_false_1 _). vm_compute. reflexivity.
    - vm_compute. reflexivity.
    - right. right. reflexivity. }
  split; [exact H |]. split; [exact (Hlang H) |].
  destruct (translatePage_substitutes_iff examplePlatform sampleTranslations
              (js "en") uploadPage) as (_ & _ & _ & Hthrown).
  rewrite (Hthrown InvalidStateError); vm_compute; reflexivity.
Defined.

Lemma translatePage_gate_throws_without_body_witness :
  translatePage examplePlatform sampleTranslations (js "fr") headOnlyPage
  = (headOnlyPage, Throw bodyIsNull)
  /\ translatePage examplePlatform sampleTranslations (js "fr") svgPage
     = (svgPage, Throw bodyIsNull)
  /\ snd (translatePage examplePlatform sampleTranslations (js "fr") xhtmlPage)
     = Return ().
Proof.
  split; [| split].
  - apply translatePage_gate_throws_without_body.
    + vm_compute. reflexivity.
    + right. vm_compute. reflexivity.
  - apply translatePage_gate_throws_without_body.
    + vm_compute. reflexivity.
    + left. vm_compute. reflexivity.
  - apply translatePage_gate_throws_without_body; vm_compute; reflexivity.
Defined.

Lemma translatePage_marks_nothing_witness :
  [2; 0]%nat ∈ querySelectorAll sampleRoot.
Proof.
  apply (translatePage_marks_nothing examplePlatform sampleTranslations
           (js "ru") samplePage).
  - vm_compute. reflexivity.
  - apply (bool_decide_eq_true_1 _). vm_compute. reflexivity.
Defined.

(* ===================================================================== *)
(** * Further properties of ifet/lang.js: language detection *)
(* ===================================================================== *)

(** Two letters, in either case, normalise to the lower-case letters. *)
Lemma normalize_letters (d1 d2 c1 c2 : N) :
  d1 = c1 \/ d1 + 0x20 = c1 -> d2 = c2 \/ d2 + 0x20 = c2 ->
  0x61 <= c1 <= 0x7A -> 0x61 <= c2 <= 0x7A ->
  normalize [d1; d2] = [c1; c2].
Proof.
  intros Hd1 Hd2 H1 H2. unfold normalize.
  rewrite (trim_cons _ _ (letter_not_space _ _ Hd1 H1)).
  rewrite (trimEnd_cons _ _ (letter_not_space _ _ Hd2 H2)).
  change (trimEnd []) with (@nil N).
  unfold toLowerCase. cbn [flat_map].
  rewrite (letter_lower _ _ Hd1 H1), (letter_lower _ _ Hd2 H2). cbn [app].
  rewrite (split_cons_other 0x2D c1) by lia.
  by rewrite (split_cons_other 0x2D c2) by lia.
Qed.

(** The value of [?lang=] followed by two letters and nothing more, or
    the next parameter. *)
Lemma get_lang_letters (d1 d2 : N) (tail : jsstring) :
  0x41 <= d1 <= 0x7A -> 0x41 <= d2 <= 0x7A ->
  tail = [] \/ (exists t, tail = 0x26 :: t) ->
  get (URLSearchParams (js "?lang=" ++ [d1; d2] ++ tail)) (js "lang")
  = Some [d1; d2].
Proof.
  intros H1 H2 Htail.
  change (js "?lang=" ++ [d1; d2] ++ tail)
    with (0x3F :: 0x6C :: 0x61 :: 0x6E :: 0x67 :: 0x3D :: d1 :: d2 :: tail).
  unfold URLSearchParams. rewrite N.eqb_refl.
  rewrite 7 utf8Encode_cons_ascii by lia.
  destruct (parseUrlencoded_lang (d1 :: d2 :: utf8Encode tail))
    as (piece & more & Hsplit & Hparse).
  change (0x6C :: 0x61 :: 0x6E :: 0x67 :: 0x3D :: d1 :: d2 :: utf8Encode tail)
    with ([0x6C; 0x61; 0x6E; 0x67; 0x3D] ++ d1 :: d2 :: utf8Encode tail).
  rewrite Hparse. simpl get.
  rewrite (split_cons_other 0x26 d1) in Hsplit by lia.
  rewrite (split_cons_other 0x26 d2) in Hsplit by lia.
  assert (Hhd : hd [] (split 0x26 (utf8Encode tail)) = []).
  { destruct Htail as [-> | [t ->]]; [reflexivity |].
    rewrite utf8Encode_cons_ascii by lia. by rewrite split_cons_sep. }
  rewrite Hhd in Hsplit. injection Hsplit as <- _.
  rewrite 2 urlDecode_cons_ascii by lia. reflexivity.
Qed.

(** X1: the [lang] value is read without regard to the case of its
    letters: for every supported locale L written with some of its
    letters in upper case, alone in the query or followed by other
    parameters, [detectLanguage] returns L. *)
Theorem detectLanguage_any_letter_case (L V tail url : jsstring) :
  L ∈ SUPPORTED_LOCALES ->
  sameLetters V L ->
  tail = [] \/ (exists t, tail = 0x26 :: t) ->
  detectLanguage {| search := js "?lang=" ++ V ++ tail; href := url |} = L.
Proof.
  intros HL HV Htail.
  destruct (supported_two_letters L HL) as (c1 & c2 & -> & H1 & H2).
  unfold sameLetters in HV.
  apply Forall2_cons_inv_r in HV as (d1 & V1 & Hd1 & HV & ->).
  apply Forall2_cons_inv_r in HV as (d2 & V2 & Hd2 & HV & ->).
  apply Forall2_nil_inv_r in HV as ->.
  unfold detectLanguage, detectLanguage_try. cbn [search href].
  rewrite (get_lang_letters d1 d2 tail) by (lia || exact Htail).
  cbn [orElse].
  change (hd [] (split 0x2D (toLowerCase (trim [d1; d2]))))
    with (normalize [d1; d2]).
  rewrite (normalize_letters d1 d2 c1 c2 Hd1 Hd2 H1 H2).
  unfold includes. by rewrite bool_decide_eq_true_2.
Qed.

Lemma detectLanguage_any_letter_case_witness :
  detectLanguage {| search := js "?lang=" ++ js "Ru" ++ js "&page=2";
                    href := js "https://ifet.example/?lang=Ru&page=2" |}
  = js "ru".
Proof.
  apply detectLanguage_any_letter_case.
  - apply (bool_decide_eq_true_1 _). vm_compute. reflexivity.
  - unfold sameLetters. vm_compute.
    constructor; [right; reflexivity |].
    constructor; [left; reflexivity | constructor].
  - right. eexists. reflexivity.
Defined.

(* --------------------------------------------------------------------- *)
(** ** The lookup in the whole URL *)
(* --------------------------------------------------------------------- *)

Lemma matchLang_cons_other (c : N) (r : jsstring) :
  c <> 0x3F -> c <> 0x26 -> matchLang (c :: r) = matchLang r.
Proof.
  intros H1 H2. cbn [matchLang].
  destruct (N.eqb_spec c 0x3F); [contradiction |].
  destruct (N.eqb_spec c 0x26); [contradiction | reflexivity].
Qed.

Lemma matchLang_skip (base s : jsstring) :
  0x3F ∉ base -> 0x26 ∉ base -> matchLang (base ++ s) = matchLang s.
Proof.
  induction base as [|c base IH]; intros Hq Ha; [reflexivity |].
  apply not_elem_of_cons in Hq as [Hq1 Hq]. apply not_elem_of_cons in Ha as [Ha1 Ha].
  cbn [app]. rewrite matchLang_cons_other by congruence. by apply IH.
Qed.

Lemma eqIgnoreCase_letter (lower c : N) :
  c = lower \/ c + 0x20 = lower -> eqIgnoreCase lower c = true.
Proof.
  intros H. unfold eqIgnoreCase.
  destruct H as [-> | <-].
  - by rewrite N.eqb_refl.
  - replace (c + 0x20 - 0x20) with c by lia.
    rewrite N.eqb_refl. apply orb_true_r.
Qed.

Lemma takeValue_letters (c1 c2 : N) (tail : jsstring) :
  0x61 <= c1 <= 0x7A -> 0x61 <= c2 <= 0x7A -> endsValue tail ->
  takeValue (c1 :: c2 :: tail) = [c1; c2].
Proof.
  intros H1 H2 Htail. cbn [takeValue].
  destruct (N.eqb_spec c1 0x26); [lia |].
  destruct (N.eqb_spec c1 0x23); [lia |].
  destruct (N.eqb_spec c2 0x26); [lia |].
  destruct (N.eqb_spec c2 0x23); [lia |].
  cbn [orb]. do 2 f_equal.
  destruct Htail as [-> | [t [-> | ->]]]; reflexivity.
Qed.

(** The match of [[?&]lang=] in any letter case, followed by two
    lower-case letters and the end of the value. *)
Lemma matchLang_here (q n1 n2 n3 n4 c1 c2 : N) (tail : jsstring) :
  q = 0x3F \/ q = 0x26 ->
  sameLetters [n1; n2; n3; n4] (js "lang") ->
  0x61 <= c1 <= 0x7A -> 0x61 <= c2 <= 0x7A -> endsValue tail ->
  matchLang (q :: n1 :: n2 :: n3 :: n4 :: 0x3D :: c1 :: c2 :: tail)
  = Some [c1; c2].
Proof.
  intros Hq Hname H1 H2 Htail. unfold sameLetters in Hname.
  change (js "lang") with [0x6C; 0x61; 0x6E; 0x67] in Hname.
  apply Forall2_cons_1 in Hname as [Hn1 Hname].
  apply Forall2_cons_1 in Hname as [Hn2 Hname].
  apply Forall2_cons_1 in Hname as [Hn3 Hname].
  apply Forall2_cons_1 in Hname as [Hn4 _].
  cbn [matchLang].
  assert ((q =? 0x3F) || (q =? 0x26) = true) as ->
    by (destruct Hq as [-> | ->]; reflexivity).
  rewrite (eqIgnoreCase_letter _ _ Hn1), (eqIgnoreCase_letter _ _ Hn2),
    (eqIgnoreCase_letter _ _ Hn3), (eqIgnoreCase_letter _ _ Hn4).
  cbn [andb]. rewrite N.eqb_refl.
  by rewrite (takeValue_letters c1 c2 tail H1 H2 Htail).
Qed.

Lemma decodeURIComponent_letters (c1 c2 : N) :
  0x61 <= c1 <= 0x7A -> 0x61 <= c2 <= 0x7A ->
  decodeURIComponent [c1; c2] = Some [c1; c2].
Proof.
  intros H1 H2. unfold decodeURIComponent. cbn [decodeFrom].
  destruct (N.eqb_spec c1 0x25); [lia |].
  destruct (N.eqb_spec c2 0x25); [lia | reflexivity].
Qed.

(** X2: when the query gives no supported locale, for instance because
    [location.search] is empty, the first [?lang=] or [&lang=] of the
    whole URL decides, the name in any letter case: followed by a
    supported locale L and the end of the value, it makes
    [detectLanguage] return L. *)
Theorem detectLanguage_reads_href
    (location : Location) (base name L tail : jsstring) (q : N) :
  langOfQuery location ∉ SUPPORTED_LOCALES ->
  L ∈ SUPPORTED_LOCALES ->
  0x3F ∉ base -> 0x26 ∉ base ->
  q = 0x3F \/ q = 0x26 ->
  sameLetters name (js "lang") ->
  endsValue tail ->
  href location = base ++ q :: name ++ js "=" ++ L ++ tail ->
  detectLanguage location = L.
Proof.
  intros Hquery HL Hbq Hba Hq Hname Htail Hhref.
  destruct (supported_two_letters L HL) as (c1 & c2 & -> & H1 & H2).
  assert (Hshape : exists n1 n2 n3 n4, name = [n1; n2; n3; n4]).
  { unfold sameLetters in Hname.
    change (js "lang") with [0x6C; 0x61; 0x6E; 0x67] in Hname.
    apply Forall2_cons_inv_r in Hname as (n1 & r1 & _ & Hname & ->).
    apply Forall2_cons_inv_r in Hname as (n2 & r2 & _ & Hname & ->).
    apply Forall2_cons_inv_r in Hname as (n3 & r3 & _ & Hname & ->).
    apply Forall2_cons_inv_r in Hname as (n4 & r4 & _ & Hname & ->).
    apply Forall2_nil_inv_r in Hname as ->. by eexists _, _, _, _. }
  destruct Hshape as (n1 & n2 & n3 & n4 & ->).
  unfold detectLanguage. rewrite detectLanguage_try_cases. unfold includes.
  rewrite (bool_decide_eq_false_2 _ Hquery), Hhref.
  rewrite (matchLang_skip _ _ Hbq Hba).
  change (q :: [n1; n2; n3; n4] ++ js "=" ++ [c1; c2] ++ tail)
    with (q :: n1 :: n2 :: n3 :: n4 :: 0x3D :: c1 :: c2 :: tail).
  rewrite (matchLang_here q n1 n2 n3 n4 c1 c2 tail Hq Hname H1 H2 Htail).
  rewrite (decodeURIComponent_letters c1 c2 H1 H2).
  rewrite (normalize_letters c1 c2 c1 c2) by (lia || by left).
  by rewrite (bool_decide_eq_true_2 _ HL).
Qed.

Lemma detectLanguage_reads_href_witness :
  detectLanguage
    {| search := [];
       href := js "file:///C:/ifet/index.html" ++ 0x3F :: js "Lang" ++ js "="
               ++ js "de" ++ js "#top" |}
  = js "de".
Proof.
  apply (detectLanguage_reads_href _ (js "file:///C:/ifet/index.html")
           (js "Lang") (js "de") (js "#top") 0x3F).
  - apply (bool_decide_eq_false_1 _). vm_compute. reflexivity.
  - apply (bool_decide_eq_true_1 _). vm_compute. reflexivity.
  - apply (bool_decide_eq_false_1 _). vm_compute. reflexivity.
  - apply (bool_decide_eq_false_1 _). vm_compute. reflexivity.
  - by left.
  - unfold sameLetters. vm_compute.
    constructor; [right; reflexivity |].
    repeat (constructor; [left; reflexivity |]). constructor.
  - right. exists (js "top"). right. reflexivity.
  - reflexivity.
Defined.

(* --------------------------------------------------------------------- *)
(** ** Spaces around the value *)
(* --------------------------------------------------------------------- *)

Lemma urlDecode_cons_space (c : N) (bytes : list N) :
  c = 0x2B \/ c = 0x20 -> urlDecode (c :: bytes) = 0x20 :: urlDecode bytes.
Proof. intros [-> | ->]; reflexivity. Qed.

Lemma urlDecode_spaces (pad bytes : list N) :
  Forall (fun c => c = 0x2B \/ c = 0x20) pad ->
  urlDecode (pad ++ bytes) = repeat 0x20 (length pad) ++ urlDecode bytes.
Proof.
  induction 1 as [|c pad Hc _ IH]; [reflexivity |].
  cbn [app length repeat]. by rewrite (urlDecode_cons_space c _ Hc), IH.
Qed.

Lemma split_spaces (pad s : list N) :
  Forall (fun c => c = 0x2B \/ c = 0x20) pad ->
  split 0x26 (pad ++ s)
  = (pad ++ hd [] (split 0x26 s)) :: tl (split 0x26 s).
Proof.
  induction 1 as [|c pad Hc _ IH]; cbn [app].
  - pose proof (split_not_nil 0x26 s). by destruct (split 0x26 s).
  - rewrite split_cons_other by (destruct Hc; lia). by rewrite IH.
Qed.

Lemma utf8Encode_spaces (pad s : jsstring) :
  Forall (fun c => c = 0x2B \/ c = 0x20) pad ->
  utf8Encode (pad ++ s) = pad ++ utf8Encode s.
Proof.
  induction 1 as [|c pad Hc _ IH]; [reflexivity |].
  cbn [app]. rewrite utf8Encode_cons_ascii by (destruct Hc; lia).
  by rewrite IH.
Qed.

Lemma trimStart_spaces (n : nat) (s : jsstring) :
  trimStart (repeat 0x20 n ++ s) = trimStart s.
Proof. induction n as [|n IH]; [reflexivity | exact IH]. Qed.

Lemma trimEnd_spaces (n : nat) : trimEnd (repeat 0x20 n) = [].
Proof.
  unfold trimEnd.
  assert (H : forall l, Forall (fun c => c = 0x20) l -> trimStart l = []).
  { induction 1 as [|c l -> _ IH]; [reflexivity | exact IH]. }
  rewrite H; [reflexivity |].
  apply Forall_forall. intros c Hc.
  apply list_elem_of_In, in_rev, repeat_spec in Hc. exact Hc.
Qed.

(** X3: spaces around the value do not count: for every supported locale
    L with any number of [+] or spaces before and after it in the [lang]
    parameter, alone in the query or followed by other parameters,
    [detectLanguage] returns L. *)
Theorem detectLanguage_ignores_spaces (L before after tail url : jsstring) :
  L ∈ SUPPORTED_LOCALES ->
  Forall (fun c => c = 0x2B \/ c = 0x20) before ->
  Forall (fun c => c = 0x2B \/ c = 0x20) after ->
  tail = [] \/ (exists t, tail = 0x26 :: t) ->
  detectLanguage {| search := js "?lang=" ++ before ++ L ++ after ++ tail;
                    href := url |} = L.
Proof.
  intros HL Hbefore Hafter Htail.
  destruct (supported_two_letters L HL) as (c1 & c2 & -> & H1 & H2).
  assert (Hget :
    get (URLSearchParams (js "?lang=" ++ before ++ [c1; c2] ++ after ++ tail))
        (js "lang")
    = Some (repeat 0x20 (length before)
            ++ c1 :: c2 :: repeat 0x20 (length after))).
  { change (js "?lang=" ++ before ++ [c1; c2] ++ after ++ tail)
      with (0x3F :: 0x6C :: 0x61 :: 0x6E :: 0x67 :: 0x3D
                 :: before ++ c1 :: c2 :: after ++ tail).
    unfold URLSearchParams. rewrite N.eqb_refl.
    rewrite 5 utf8Encode_cons_ascii by lia.
    rewrite (utf8Encode_spaces _ _ Hbefore).
    rewrite 2 utf8Encode_cons_ascii by lia.
    rewrite (utf8Encode_spaces _ _ Hafter).
    destruct (parseUrlencoded_lang
                (before ++ c1 :: c2 :: after ++ utf8Encode tail))
      as (piece & more & Hsplit & Hparse).
    change (0x6C :: 0x61 :: 0x6E :: 0x67 :: 0x3D
                 :: before ++ c1 :: c2 :: after ++ utf8Encode tail)
      with ([0x6C; 0x61; 0x6E; 0x67; 0x3D]
              ++ before ++ c1 :: c2 :: after ++ utf8Encode tail).
    rewrite Hparse. simpl get.
    rewrite (split_spaces _ _ Hbefore) in Hsplit.
    rewrite (split_cons_other 0x26 c1) in Hsplit by lia.
    rewrite (split_cons_other 0x26 c2) in Hsplit by lia.
    rewrite (split_spaces _ _ Hafter) in Hsplit.
    assert (Hhd : hd [] (split 0x26 (utf8Encode tail)) = []).
    { destruct Htail as [-> | [t ->]]; [reflexivity |].
      rewrite utf8Encode_cons_ascii by lia. by rewrite split_cons_sep. }
    cbn [hd] in Hsplit. rewrite Hhd in Hsplit. injection Hsplit as <- _.
    rewrite (urlDecode_spaces _ _ Hbefore).
    rewrite 2 urlDecode_cons_ascii by lia.
    rewrite (urlDecode_spaces _ _ Hafter).
    change (urlDecode []) with (@nil N). by rewrite app_nil_r. }
  unfold detectLanguage, detectLanguage_try. cbn [search href].
  rewrite Hget.
  assert (Htrim :
    trim (orElse (Some (repeat 0x20 (length before)
                        ++ c1 :: c2 :: repeat 0x20 (length after))) [])
    = [c1; c2]).
  { assert (orElse (Some (repeat 0x20 (length before)
                          ++ c1 :: c2 :: repeat 0x20 (length after))) []
            = repeat 0x20 (length before)
              ++ c1 :: c2 :: repeat 0x20 (length after)) as ->
      by (by destruct (length before)).
    unfold trim. rewrite trimStart_spaces.
    assert (P1 : isPlain c1) by (by left).
    assert (P2 : isPlain c2) by (by left).
    rewrite (trimStart_fixed _ _ (isPlain_not_space _ P1)).
    rewrite (trimEnd_cons _ _ (isPlain_not_space _ P1)).
    rewrite (trimEnd_cons _ _ (isPlain_not_space _ P2)).
    by rewrite trimEnd_spaces. }
  rewrite Htrim.
  assert (Hnorm : hd [] (split 0x2D (toLowerCase [c1; c2])) = [c1; c2]).
  { rewrite 2 toLowerCase_cons_plain by (by left).
    rewrite (split_cons_other 0x2D c1) by lia.
    by rewrite (split_cons_other 0x2D c2) by lia. }
  rewrite Hnorm. unfold includes. by rewrite bool_decide_eq_true_2.
Qed.

Lemma detectLanguage_ignores_spaces_witness :
  detectLanguage {| search := js "?lang=" ++ js "+ " ++ js "ja" ++ js "++"
                              ++ js "&ref=mail";
                    href := js "https://ifet.example/?lang=+%20ja++&ref=mail" |}
  = js "ja".
Proof.
  apply detectLanguage_ignores_spaces.
  - apply (bool_decide_eq_true_1 _). vm_compute. reflexivity.
  - vm_compute. constructor; [left; reflexivity |].
    constructor; [right; reflexivity | constructor].
  - vm_compute. constructor; [left; reflexivity |].
    constructor; [left; reflexivity | constructor].
  - right. eexists. reflexivity.
Defined.

(* ===================================================================== *)
(** * Further properties: what is not configured, and link keys *)
(* ===================================================================== *)

(** X21: with ALLOWED_ORIGINS and ALLOWED_ORIGIN both unset or empty, the
    allow-list is ["*"] and every origin gets the header "*". *)
Theorem unset_allow_list_allows_every_origin
    (env : Env) (requestOrigin : jsstring) :
  missing (ALLOWED_ORIGINS env) -> missing (ALLOWED_ORIGIN env) ->
  getAllowedOrigins env = [js "*"]
  /\ corsHeaders requestOrigin (getAllowedOrigins env)
       !! js "Access-Control-Allow-Origin" = Some (js "*").
Proof.
  intros H1 H2.
  assert (Hlist : getAllowedOrigins env = [js "*"]).
  { unfold getAllowedOrigins.
    rewrite (orElse_blank _ _ H1), (orElse_blank _ _ H2). reflexivity. }
  split; [exact Hlist |]. by rewrite Hlist, corsHeaders_allow.
Qed.

Lemma unset_allow_list_allows_every_origin_witness :
  getAllowedOrigins sampleEnv = [js "*"]
  /\ corsHeaders (js "https://evil.example") (getAllowedOrigins sampleEnv)
       !! js "Access-Control-Allow-Origin" = Some (js "*").
Proof.
  apply unset_allow_list_allows_every_origin; by left.
Defined.

